(** * pyopt 0.84: command-line binding of Python functions

    A shallow embedding of [pyopt/pyopt.py]: the function wrapper
    ([_FunctionWrapper] and its three subclasses, one per parsing strategy),
    the docstring parser and the [Exposer] coordinator, followed by the
    properties of the strategies and of the coordinator.

    Conventions.
    - A Python [str] is a [string]; its characters are the code points
      below 256.
    - A Python exception is a constructor of [exn]; a computation that may
      raise has type [result A].
    - A Python [dict] is an association list in insertion order ([Dict.t]).
    - Integers that the source computes by subtraction are in [Z]. *)

From Stdlib Require Import String Ascii List Bool Arith ZArith Lia DecimalString.
Import ListNotations.
Local Open Scope list_scope.
Local Open Scope string_scope.

(** ** Python strings *)

Module Str.

Definition code (c : ascii) : nat := nat_of_ascii c.

Definition chr1 (c : ascii) : string := String c EmptyString.

Definition TAB : string := chr1 (ascii_of_nat 9).
Definition NL : string := chr1 (ascii_of_nat 10).

(** [len(s)] *)
Definition len (s : string) : Z := Z.of_nat (String.length s).

(** [s.startswith(p)] *)
Definition startswith (s p : string) : bool := prefix p s.

(** [s[n:]] for a count [n] of characters *)
Fixpoint drop (n : nat) (s : string) : string :=
  match n, s with
  | O, _ => s
  | S _, EmptyString => EmptyString
  | S n', String _ r => drop n' r
  end.

(** [s[i:]] for [0 <= i] *)
Definition slice_from (s : string) (i : Z) : string := drop (Z.to_nat i) s.

(** [s[n]]; [None] where Python raises [IndexError] *)
Definition item (s : string) (n : nat) : option string :=
  option_map chr1 (String.get n s).

(** [sep.join(l)] *)
Definition join (sep : string) (l : list string) : string := String.concat sep l.

(** [c.isspace()] on the code points below 256 *)
Definition isspace (c : ascii) : bool :=
  let n := code c in
  ((9 <=? n)%nat && (n <=? 13)%nat) || ((28 <=? n)%nat && (n <=? 32)%nat)
  || (n =? 133)%nat || (n =? 160)%nat.

Fixpoint lstrip (s : string) : string :=
  match s with
  | EmptyString => EmptyString
  | String c r => if isspace c then lstrip r else s
  end.

Fixpoint rstrip (s : string) : string :=
  match s with
  | EmptyString => EmptyString
  | String c r =>
      match rstrip r with
      | EmptyString => if isspace c then EmptyString else chr1 c
      | r' => String c r'
      end
  end.

(** [s.strip()] *)
Definition strip (s : string) : string := rstrip (lstrip s).

(** the line boundaries of [str.splitlines] below 256 *)
Definition islinebreak (c : ascii) : bool :=
  let n := code c in
  ((10 <=? n)%nat && (n <=? 13)%nat) || ((28 <=? n)%nat && (n <=? 30)%nat)
  || (n =? 133)%nat.

Definition is_cr (c : ascii) : bool := (code c =? 13)%nat.
Definition is_lf (c : ascii) : bool := (code c =? 10)%nat.

(** [splitlines_from skip s]: the lines of [s]; [skip] says that the previous
    character was a carriage return, whose line feed is part of the same
    boundary. *)
Fixpoint splitlines_from (skip_lf : bool) (s : string) : list string :=
  match s with
  | EmptyString => []
  | String c r =>
      if skip_lf && is_lf c then splitlines_from false r
      else if islinebreak c then EmptyString :: splitlines_from (is_cr c) r
      else match splitlines_from false r with
           | [] => [chr1 c]
           | l :: ls => String c l :: ls
           end
  end.

(** [s.splitlines()] *)
Definition splitlines (s : string) : list string := splitlines_from false s.

(** [s.split()]: the maximal runs of non-whitespace characters *)
Fixpoint split (s : string) : list string :=
  match s with
  | EmptyString => []
  | String c r =>
      if isspace c then split r
      else match r with
           | EmptyString => [chr1 c]
           | String c' _ =>
               if isspace c' then chr1 c :: split r
               else match split r with
                    | [] => [chr1 c]
                    | w :: ws => String c w :: ws
                    end
           end
  end.

Fixpoint rfind_from (c : ascii) (s : string) (i last : Z) : Z :=
  match s with
  | EmptyString => last
  | String c' r => rfind_from c r (i + 1) (if Ascii.eqb c' c then i else last)
  end.

(** [s.rfind(c)] for a one-character [c] *)
Definition rfind (s : string) (c : ascii) : Z := rfind_from c s 0 (-1).

(** [os.path.basename] of [posixpath] *)
Definition basename (p : string) : string :=
  let i := (rfind p "/" + 1)%Z in
  slice_from p i.

(** [s.endswith(c)] for a one-character [c] *)
Fixpoint endswith (s : string) (c : ascii) : bool :=
  match s with
  | EmptyString => false
  | String c' EmptyString => Ascii.eqb c' c
  | String _ r => endswith r c
  end.

(** [s[:-1]] *)
Fixpoint drop_last (s : string) : string :=
  match s with
  | EmptyString => EmptyString
  | String _ EmptyString => EmptyString
  | String c r => String c (drop_last r)
  end.

(** [s.index(c)] for a one-character [c]; [None] where Python raises
    [ValueError] *)
Fixpoint index (s : string) (c : ascii) : option nat :=
  match s with
  | EmptyString => None
  | String c' r => if Ascii.eqb c' c then Some O else option_map S (index r c)
  end.

(** [s[:n]] for a count [n] of characters *)
Fixpoint take (n : nat) (s : string) : string :=
  match n, s with
  | O, _ => EmptyString
  | S _, EmptyString => EmptyString
  | S n', String c r => String c (take n' r)
  end.

(** ["%d" % n] *)
Definition of_int (n : Z) : string := NilZero.string_of_int (Z.to_int n).

Fixpoint contains (c : ascii) (s : string) : bool :=
  match s with
  | EmptyString => false
  | String c' r => Ascii.eqb c' c || contains c r
  end.

Definition hex_digit (n : nat) : ascii :=
  ascii_of_nat (if (n <? 10)%nat then 48 + n else 87 + n).

Definition squote : ascii := ascii_of_nat 39.
Definition dquote : ascii := ascii_of_nat 34.
Definition backslash : ascii := ascii_of_nat 92.

Definition repr_char (quote c : ascii) : string :=
  let n := code c in
  if Ascii.eqb c quote || Ascii.eqb c backslash then String backslash (chr1 c)
  else if (n =? 9)%nat then String backslash "t"
  else if (n =? 10)%nat then String backslash "n"
  else if (n =? 13)%nat then String backslash "r"
  else if (n <? 32)%nat || ((127 <=? n)%nat && (n <=? 160)%nat) || (n =? 173)%nat
       then String backslash
              (String "x" (String (hex_digit (n / 16)) (chr1 (hex_digit (n mod 16)))))
  else chr1 c.

Fixpoint repr_body (quote : ascii) (s : string) : string :=
  match s with
  | EmptyString => EmptyString
  | String c r => repr_char quote c ++ repr_body quote r
  end.

(** [repr(s)] *)
Definition repr (s : string) : string :=
  let quote := if contains squote s && negb (contains dquote s)
               then dquote else squote in
  String quote (repr_body quote s ++ chr1 quote).

End Str.

(** ** Python lists *)

Module PyList.

(** [l[:n]] *)
Definition slice_to {A} (l : list A) (n : Z) : list A :=
  if (n <? 0)%Z then firstn (Z.to_nat (Z.of_nat (length l) + n)) l
  else firstn (Z.to_nat n) l.

(** [l[n:]] *)
Definition slice_from {A} (l : list A) (n : Z) : list A :=
  if (n <? 0)%Z then skipn (Z.to_nat (Z.of_nat (length l) + n)) l
  else skipn (Z.to_nat n) l.

Definition len {A} (l : list A) : Z := Z.of_nat (length l).

(** [x in l] for a list of strings *)
Definition mem (x : string) (l : list string) : bool :=
  existsb (String.eqb x) l.

(** [l.remove(x)]: drops the first occurrence; [None] where Python raises
    [ValueError]. *)
Fixpoint remove (x : string) (l : list string) : option (list string) :=
  match l with
  | [] => None
  | y :: r => if String.eqb y x then Some r
              else option_map (cons y) (remove x r)
  end.

End PyList.

(** ** Exceptions *)

Inductive exn : Type :=
| PyoptError (msg : string)
| PrintHelp (msg : string)
| NotEnoughArgs (msg : string)
| NotImplementedError (msg : string)
| GetoptError (msg : string)
| IndexError (msg : string)
| KeyError (key : string)
| ValueError (msg : string)
| UnboundLocalError (var : string)
| AttributeError (attr : string).

(** [isinstance(e, PyoptError)]: [PrintHelp] and [NotEnoughArgs] are the two
    subclasses of [PyoptError]; the others are built-in exceptions or
    [getopt]'s own. *)
Definition is_PyoptError (e : exn) : bool :=
  match e with
  | PyoptError _ | PrintHelp _ | NotEnoughArgs _ => true
  | _ => false
  end.

Inductive result (A : Type) : Type :=
| Return (a : A)
| Raise (e : exn).

Arguments Return {A} a.
Arguments Raise {A} e.

Definition bind {A B} (c : result A) (k : A -> result B) : result B :=
  match c with
  | Return a => k a
  | Raise e => Raise e
  end.

Notation "x <- c ;; k" := (bind c (fun x => k))
  (at level 61, c at next level, right associativity).
Notation "' p <- c ;; k" := (bind c (fun x => match x with p => k end))
  (at level 61, p pattern, c at next level, right associativity).

(** subscripting that raises *)
Definition str_item (s : string) (n : nat) : result string :=
  match Str.item s n with
  | Some c => Return c
  | None => Raise (IndexError "string index out of range")
  end.

Definition list_item (l : list string) (n : nat) : result string :=
  match nth_error l n with
  | Some x => Return x
  | None => Raise (IndexError "list index out of range")
  end.

Fixpoint mapM {A B} (f : A -> result B) (l : list A) : result (list B) :=
  match l with
  | [] => Return []
  | a :: r => b <- f a ;; bs <- mapM f r ;; Return (b :: bs)
  end.

(** ** Python dictionaries, in insertion order *)

Module Dict.

Definition t (V : Type) : Type := list (string * V).

Definition empty {V} : t V := [].

Fixpoint get {V} (d : t V) (k : string) : option V :=
  match d with
  | [] => None
  | (k', v) :: r => if String.eqb k' k then Some v else get r k
  end.

(** [k in d] *)
Definition mem {V} (d : t V) (k : string) : bool :=
  match get d k with Some _ => true | None => false end.

(** [d[k] = v]: a key that is present keeps its place *)
Fixpoint set {V} (d : t V) (k : string) (v : V) : t V :=
  match d with
  | [] => [(k, v)]
  | (k', v') :: r =>
      if String.eqb k' k then (k, v) :: r else (k', v') :: set r k v
  end.

(** [d[k]] *)
Definition item {V} (d : t V) (k : string) : result V :=
  match get d k with
  | Some v => Return v
  | None => Raise (KeyError k)
  end.

Definition keys {V} (d : t V) : list string := map fst d.
Definition values {V} (d : t V) : list V := map snd d.

(** [dict(pairs)] *)
Definition of_list {V} (l : list (string * V)) : t V :=
  fold_left (fun d kv => set d (fst kv) (snd kv)) l empty.

End Dict.

(** ** Values, casts and function objects *)

(** The values a cast produces. *)
Inductive pyvalue : Type :=
| VBool (b : bool)
| VInt (z : Z)
| VStr (s : string).

(** A declared cast: the type [bool], or any other type or callable, given by
    what it does to a string: [inr v] when it returns [v], [inl msg] when it
    raises an exception [e] with [str(e) = msg]. *)
Inductive cast : Type :=
| Cbool
| Ccall (conv : string -> string + pyvalue).

(** the type [str] *)
Definition Cstr : cast := Ccall (fun s => inr (VStr s)).

Definition is_bool (c : cast) : bool :=
  match c with Cbool => true | Ccall _ => false end.

(** A plain function, as far as the module looks at it: [__name__], [__doc__]
    and what [inspect.getfullargspec] reports.  Of a default value only its
    type is read ([type(defaults_dict[name])]), so [fn_defaults] holds the
    type of each default.  Bound methods are left out: [_getfunctionspec]
    raises [NameError] on them ([arg_names] is not defined there), so none is
    ever registered. *)
Record pyfunction : Type := {
  fn_name : string;
  fn_doc : option string;
  fn_args : list string;
  fn_defaults : list cast;
  fn_annotations : Dict.t cast
}.

Definition _getfunctionspec (function : pyfunction)
  : list string * list cast * Dict.t cast :=
  (fn_args function, fn_defaults function, fn_annotations function).

(** What the language guarantees of a signature: the parameter names are
    identifiers (a letter, an underscore or a character above 127, then
    also digits), they differ from each other, and there are no more
    defaults than parameters. *)
Definition is_id_start (c : ascii) : bool :=
  let n := Str.code c in
  ((65 <=? n)%nat && (n <=? 90)%nat) || ((97 <=? n)%nat && (n <=? 122)%nat)
  || (n =? 95)%nat || (128 <=? n)%nat.

Definition is_id_char (c : ascii) : bool :=
  let n := Str.code c in
  is_id_start c || ((48 <=? n)%nat && (n <=? 57)%nat).

Fixpoint all_chars (p : ascii -> bool) (s : string) : bool :=
  match s with
  | EmptyString => true
  | String c r => p c && all_chars p r
  end.

Definition is_identifier (s : string) : bool :=
  match s with
  | EmptyString => false
  | String c r => is_id_start c && all_chars is_id_char r
  end.

Fixpoint distinct (l : list string) : bool :=
  match l with
  | [] => true
  | x :: r => negb (PyList.mem x r) && distinct r
  end.

Definition valid_signature (function : pyfunction) : bool :=
  forallb is_identifier (fn_args function)
  && distinct (fn_args function)
  && (length (fn_defaults function) <=? length (fn_args function))%nat.

Definition _indent (text : string) (tab_count : nat) : string :=
  let lines := Str.splitlines text in
  let lines := map (fun ln => Str.join "" (repeat Str.TAB tab_count) ++ Str.strip ln)
                   lines in
  Str.join Str.NL lines.

Definition _bool_cast (name value : string) : pyvalue := VBool true.

(** ** The docstring parser *)

(** The character class [[ \t-:]]: a space, and the range from the tab to
    the colon. *)
Definition var_doc_class (c : ascii) : bool :=
  let n := Str.code c in
  (n =? 32)%nat || ((9 <=? n)%nat && (n <=? 58)%nat).

Fixpoint skip_class (s : string) : string :=
  match s with
  | EmptyString => EmptyString
  | String c r => if var_doc_class c then skip_class r else s
  end.

(** The second group, any characters up to the first line feed. *)
Fixpoint dot_star (s : string) : string :=
  match s with
  | EmptyString => EmptyString
  | String c r => if Str.is_lf c then EmptyString else String c (dot_star r)
  end.

(** The alternatives of ['|'.join(names)]; parameter names are identifiers,
    so none of them holds a character that is special in a pattern. *)
Definition alternatives (names : list string) : list string :=
  match names with
  | [] => [EmptyString]
  | _ => names
  end.

(** The first alternative that the text starts with, and the text after it. *)
Fixpoint match_alt (alts : list string) (s : string) : option (string * string) :=
  match alts with
  | [] => None
  | a :: r =>
      if Str.startswith s a then Some (a, Str.drop (String.length a) s)
      else match_alt r s
  end.

(** [var_doc_re.match(stripped)]: the two groups of the match.  The pattern
    is the group of alternatives, then any run of characters of the class,
    then the group of any characters.  The two starred parts also match the
    empty text, so the first alternative that fits is the one kept. *)
Definition var_doc_match (names : list string) (stripped : string)
  : option (string * string) :=
  match match_alt (alternatives names) stripped with
  | Some (name, rest) => Some (name, dot_star (skip_class rest))
  | None => None
  end.

(** The loop of [_parse_docstring] over [enumerate(lines)], from index [i]. *)
Fixpoint parse_doc_lines (names lines : list string) (i first_line : Z)
    (docs_dict : Dict.t string) : Z * Dict.t string :=
  match lines with
  | [] => (first_line, docs_dict)
  | ln :: r =>
      let stripped := Str.strip ln in
      match var_doc_match names stripped with
      | Some (name, doc) =>
          parse_doc_lines names r (i + 1)
            (if (i <? first_line)%Z then i else first_line)
            (Dict.set docs_dict name (Str.strip doc))
      | None => parse_doc_lines names r (i + 1) first_line docs_dict
      end
  end.

Definition _parse_docstring (function : pyfunction) : string * Dict.t string :=
  let '(arg_names_list, _, _) := _getfunctionspec function in
  let docs := match fn_doc function with None => EmptyString | Some d => d end in
  let lines := Str.splitlines docs in
  let '(first_line, docs_dict) :=
    parse_doc_lines arg_names_list lines 0 (Str.len docs) Dict.empty in
  let summary :=
    if (first_line <? Str.len docs)%Z
    then Str.strip (Str.join Str.NL (PyList.slice_to lines first_line))
    else EmptyString in
  (summary, docs_dict).

(** ** The function wrapper *)

(** The three subclasses of [_FunctionWrapper]. *)
Inductive strategy : Type :=
| ArgsFunction
| MixedFunction
| KwargsFunction.

(** The attributes that [_FunctionWrapper.__init__] sets.  [optional] is a
    Python set; it is kept as the list of its elements in the order in which
    the set is iterated.  [special_casts] is always the one-entry dictionary
    that sends [bool] to [_bool_cast]. *)
Record FunctionWrapper : Type := {
  cls : strategy;
  function : pyfunction;
  arg_names : list string;
  name : string;
  required : list string;
  optional : list string;
  booleans : list string;
  defaults_count : Z;
  needed_args : Z;
  casts : Dict.t cast
}.

Section Wrapper.

(** The order in which the interpreter iterates over a set of strings, given
    its elements; it depends on the hashes of the process. *)
Variable set_iter : list string -> list string.

(** [set(l1) - set(l2)] *)
Definition set_difference (l1 l2 : list string) : list string :=
  set_iter (nodup string_dec (filter (fun a => negb (PyList.mem a l2)) l1)).

(** The loop that fills [casts]: the annotation, else the type of the
    default, else [default_cast]. *)
Definition compute_casts (arg_names : list string)
    (annotations defaults_dict : Dict.t cast) (default_cast : cast)
  : Dict.t cast :=
  fold_left
    (fun casts name =>
       Dict.set casts name
         (match Dict.get annotations name with
          | Some c => c
          | None =>
              match Dict.get defaults_dict name with
              | Some c => c
              | None => default_cast
              end
          end))
    arg_names Dict.empty.

(** [casts[arg] is bool], for an [arg] of [arg_names] *)
Definition cast_is_bool (casts : Dict.t cast) (arg : string) : bool :=
  match Dict.get casts arg with
  | Some c => is_bool c
  | None => false
  end.

(** [_FunctionWrapper.__init__], in the subclass [cls] *)
Definition FunctionWrapper_init (cls : strategy) (function : pyfunction)
    (default_cast : cast) : FunctionWrapper :=
  let '(args, defaults, annotations) := _getfunctionspec function in
  let arg_names := args in
  let defaults_count := PyList.len defaults in
  let not_default_count := (PyList.len arg_names - defaults_count)%Z in
  let not_defaulted := PyList.slice_to arg_names not_default_count in
  let defaulted_args := PyList.slice_from arg_names not_default_count in
  let defaults_dict := Dict.of_list (combine defaulted_args defaults) in
  let casts := compute_casts arg_names annotations defaults_dict default_cast in
  let booleans := filter (cast_is_bool casts) arg_names in
  let required :=
    filter (fun arg => negb (PyList.mem arg booleans)) not_defaulted in
  {| cls := cls;
     function := function;
     arg_names := arg_names;
     name := fn_name function;
     required := required;
     optional := set_difference arg_names required;
     booleans := booleans;
     defaults_count := defaults_count;
     needed_args := (PyList.len arg_names - defaults_count)%Z;
     casts := casts |}.

End Wrapper.

Definition failed_parsing (name e : string) : string :=
  "Failed parsing '" ++ name ++ "', " ++ e ++ ".".

(** [cast_parameter]: every exception raised inside the [try] comes back as a
    [PyoptError]; a missing key of [casts] is the [KeyError] whose text is
    the [repr] of the key. *)
Definition cast_parameter (self : FunctionWrapper) (name value : string)
  : result pyvalue :=
  match Dict.get (casts self) name with
  | None => Raise (PyoptError (failed_parsing name (Str.repr name)))
  | Some Cbool => Return (_bool_cast name value)
  | Some (Ccall type_to_cast) =>
      match type_to_cast value with
      | inr parsed_arg => Return parsed_arg
      | inl e => Raise (PyoptError (failed_parsing name e))
      end
  end.

Definition get_doc (self : FunctionWrapper) : string :=
  match fn_doc (function self) with
  | None => EmptyString
  | Some doc => _indent (Str.strip doc) 2
  end.

(** [_shortcuts] of [_MixedFunction] and of [_KwargsFunction]: the first
    letter of each parameter name, sent to the name; a later name replaces
    an earlier one with the same letter. *)
Fixpoint shortcuts_from (names : list string) (d : Dict.t string)
  : result (Dict.t string) :=
  match names with
  | [] => Return d
  | name :: r =>
      short <- str_item name 0 ;;
      shortcuts_from r (Dict.set d short name)
  end.

Definition _shortcuts (self : FunctionWrapper) : result (Dict.t string) :=
  shortcuts_from (arg_names self) Dict.empty.

(** [parameters_repr], by subclass *)
Definition parameters_repr (self : FunctionWrapper) : result string :=
  match cls self with
  | ArgsFunction =>
      let req_str := required self in
      let opt_str := map (fun arg => "[" ++ arg ++ "]") (optional self) in
      Return (Str.join " " (req_str ++ opt_str))
  | MixedFunction | KwargsFunction =>
      req_str <- mapM (fun arg => a0 <- str_item arg 0 ;;
                                  Return ("-" ++ a0 ++ " " ++ arg))
                      (required self) ;;
      opt_str <- mapM (fun arg => a0 <- str_item arg 0 ;;
                                  Return ("[-" ++ a0 ++ " " ++ arg ++ "]"))
                      (filter (fun arg => negb (PyList.mem arg (booleans self)))
                              (optional self)) ;;
      bools_str <- mapM (fun arg => a0 <- str_item arg 0 ;;
                                    Return ("[-" ++ a0 ++ "]"))
                        (booleans self) ;;
      Return (Str.join " " (req_str ++ opt_str ++ bools_str))
  end.

Definition get_usage (self : FunctionWrapper) : result string :=
  params <- parameters_repr self ;;
  Return (Str.TAB ++ name self ++ " " ++ params ++ Str.NL ++ get_doc self).

(** [docstring_usage]: the one of [_ArgsFunction], and the one the other two
    subclasses inherit. *)
Definition docstring_usage (self : FunctionWrapper) : result string :=
  let '(summary, docs_dict) := _parse_docstring (function self) in
  match cls self with
  | ArgsFunction =>
      Return (Str.join Str.NL
                (summary :: map (fun '(name, explanation) =>
                                   Str.TAB ++ name ++ " - " ++ explanation)
                                docs_dict))
  | MixedFunction | KwargsFunction =>
      short_to_name <- _shortcuts self ;;
      usage_lines <-
        mapM (fun '(name, explanation) =>
                short <- str_item name 0 ;;
                full <- Dict.item short_to_name short ;;
                if String.eqb full name
                then Return (Str.TAB ++ "-" ++ short ++ " --" ++ name ++ " - "
                               ++ explanation)
                else Return (Str.TAB ++ "--" ++ name ++ " - " ++ explanation))
             docs_dict ;;
      Return (Str.join Str.NL (summary :: usage_lines))
  end.

(** ** The positional strategy *)

Definition ArgsFunction_parse (self : FunctionWrapper) (raw_args : list string)
  : result (list pyvalue * Dict.t pyvalue) :=
  if (PyList.len raw_args <? needed_args self)%Z then
    Raise (NotEnoughArgs (Str.of_int (needed_args self)
                          ++ " arguments required, got only "
                          ++ Str.of_int (PyList.len raw_args) ++ "."))
  else if (PyList.len (arg_names self) <? PyList.len raw_args)%Z then
    Raise (PyoptError ("Got " ++ Str.of_int (PyList.len raw_args)
                       ++ " arguments and expected at most "
                       ++ Str.of_int (PyList.len (arg_names self)) ++ "."))
  else
    args_to_call_with <-
      mapM (fun '(arg, arg_name) => cast_parameter self arg_name arg)
           (combine raw_args (arg_names self)) ;;
    Return (args_to_call_with, Dict.empty).

(** ** The scanner of the standard library

    [getopt.getopt], which the mixed strategy calls.  It is not code of
    pyopt: it is the module [getopt] of the Python standard library
    (CPython 3.12, [Lib/getopt.py]), followed function by function:
    [short_has_arg], [do_shorts], [long_has_args], [do_longs] and [getopt].
    It reads options from the front of the argument list and stops at the
    first argument that is not one; [GetoptError] is its own exception. *)

Module getopt.

Definition opts_t : Type := list (string * string).

(** [opts.append(o)] *)
Definition append (opts : opts_t) (o : string * string) : opts_t :=
  (opts ++ [o])%list.

Fixpoint short_has_arg (opt : ascii) (shortopts : string) : result bool :=
  match shortopts with
  | EmptyString =>
      Raise (GetoptError ("option -" ++ Str.chr1 opt ++ " not recognized"))
  | String c r =>
      if Ascii.eqb opt c && negb (Ascii.eqb c ":")
      then Return (Str.startswith r ":")
      else short_has_arg opt r
  end.

Fixpoint do_shorts (opts : opts_t) (optstring shortopts : string)
    (args : list string) : result (opts_t * list string) :=
  match optstring with
  | EmptyString => Return (opts, args)
  | String opt optstring =>
      has_arg <- short_has_arg opt shortopts ;;
      if has_arg : bool then
        match optstring with
        | EmptyString =>
            match args with
            | [] => Raise (GetoptError ("option -" ++ Str.chr1 opt
                                        ++ " requires argument"))
            | optarg :: args =>
                Return (append opts ("-" ++ Str.chr1 opt, optarg), args)
            end
        | optarg =>
            Return (append opts ("-" ++ Str.chr1 opt, optarg), args)
        end
      else
        do_shorts (append opts ("-" ++ Str.chr1 opt, EmptyString))
                  optstring shortopts args
  end.

Definition long_has_args (opt : string) (longopts : list string)
  : result (bool * string) :=
  let possibilities := filter (fun o => Str.startswith o opt) longopts in
  match possibilities with
  | [] => Raise (GetoptError ("option --" ++ opt ++ " not recognized"))
  | unique_match :: others =>
      if PyList.mem opt possibilities then Return (false, opt)
      else if PyList.mem (opt ++ "=") possibilities then Return (true, opt)
      else
        match others with
        | _ :: _ =>
            Raise (GetoptError ("option --" ++ opt ++ " not a unique prefix"))
        | [] =>
            let has_arg := Str.endswith unique_match "=" in
            Return (has_arg,
                    if has_arg then Str.drop_last unique_match
                    else unique_match)
        end
  end.

Definition do_longs (opts : opts_t) (opt : string) (longopts args : list string)
  : result (opts_t * list string) :=
  let '(opt, optarg) :=
    match Str.index opt "=" with
    | None => (opt, None)
    | Some i => (Str.take i opt, Some (Str.drop (S i) opt))
    end in
  '(has_arg, opt) <- long_has_args opt longopts ;;
  if has_arg : bool then
    match optarg with
    | None =>
        match args with
        | [] => Raise (GetoptError ("option --" ++ opt ++ " requires argument"))
        | optarg :: args => Return (append opts ("--" ++ opt, optarg), args)
        end
    | Some optarg => Return (append opts ("--" ++ opt, optarg), args)
    end
  else
    match optarg with
    | Some _ =>
        Raise (GetoptError ("option --" ++ opt ++ " must not have an argument"))
    | None => Return (append opts ("--" ++ opt, EmptyString), args)
    end.

(** The test of the [while] loop on the first argument: it starts with a
    hyphen and is not the hyphen alone. *)
Definition is_option (arg : string) : bool :=
  Str.startswith arg "-" && negb (String.eqb arg "-").

(** The [while] loop of [getopt]; every turn shortens [args], so [fuel]
    above the length of [args] is never used up ([None]). *)
Fixpoint getopt_loop (fuel : nat) (opts : opts_t) (args : list string)
    (shortopts : string) (longopts : list string)
  : option (result (opts_t * list string)) :=
  match fuel with
  | O => None
  | S fuel =>
      match args with
      | [] => Some (Return (opts, args))
      | arg0 :: rest =>
          if is_option arg0 then
            if String.eqb arg0 "--" then Some (Return (opts, rest))
            else
              match (if Str.startswith arg0 "--"
                     then do_longs opts (Str.drop 2 arg0) longopts rest
                     else do_shorts opts (Str.drop 1 arg0) shortopts rest) with
              | Return (opts, args) =>
                  getopt_loop fuel opts args shortopts longopts
              | Raise e => Some (Raise e)
              end
          else Some (Return (opts, args))
      end
  end.

Definition getopt (args : list string) (shortopts : string)
    (longopts : list string) : result (opts_t * list string) :=
  match getopt_loop (S (length args)) [] args shortopts longopts with
  | Some r => r
  | None => Return ([], args)
  end.

End getopt.

(** A list of tokens that is empty or starts with a token that is not an
    option. *)
Definition plain_head (more : list string) : Prop :=
  match more with
  | [] => True
  | token :: _ => getopt.is_option token = false
  end.

(** ** The mixed strategy *)

(** The short-option text: for each boolean [[name][0]], which is the whole
    name, then for each required parameter its first letter and a colon. *)
Definition mixed_shorts_str (self : FunctionWrapper) : result string :=
  let bool_part := Str.join "" (map (fun name => name) (booleans self)) in
  req_part <- mapM (fun name => n0 <- str_item name 0 ;; Return (n0 ++ ":"))
                   (required self) ;;
  Return (bool_part ++ Str.join "" req_part).

Definition mixed_long_opts (self : FunctionWrapper) : list string :=
  (map (fun name => name) (booleans self)
   ++ map (fun name => (name ++ "=")%string) (required self))%list.

(** The loop over [optlist].  [name] is the local variable of that name,
    [None] while it is not bound. *)
Fixpoint mixed_switches (self : FunctionWrapper) (short_to_name : Dict.t string)
    (optlist : getopt.opts_t) (name : option string)
    (kwargs_dict : Dict.t pyvalue) (pos_args : list string)
  : result (Dict.t pyvalue * list string) :=
  match optlist with
  | [] => Return (kwargs_dict, pos_args)
  | (opt, val) :: optlist =>
      name <- (if Str.startswith opt "--" then Return (Some (Str.drop 2 opt))
               else if Str.startswith opt "-" then
                 short <- str_item opt 1 ;;
                 full <- Dict.item short_to_name short ;;
                 Return (Some full)
               else Return name) ;;
      match name with
      | None => Raise (UnboundLocalError "name")
      | Some name =>
          parsed <- cast_parameter self name val ;;
          let kwargs_dict := Dict.set kwargs_dict name parsed in
          match PyList.remove name pos_args with
          | None => Raise (ValueError "list.remove(x): x not in list")
          | Some pos_args =>
              mixed_switches self short_to_name optlist (Some name)
                             kwargs_dict pos_args
          end
      end
  end.

(** What follows the loop over [optlist]: the positional fill-in and the
    check of the required parameters. *)
Definition mixed_positional (self : FunctionWrapper)
    (kwargs_dict : Dict.t pyvalue) (pos_args uncasted_args_list : list string)
  : result (list pyvalue * Dict.t pyvalue) :=
  args_list <- mapM (fun '(name, val) => cast_parameter self name val)
                    (combine pos_args uncasted_args_list) ;;
  let args_given := map fst (combine pos_args uncasted_args_list) in
  let not_key_given :=
    filter (fun arg => negb (Dict.mem kwargs_dict arg)) (required self) in
  let not_given :=
    filter (fun arg => negb (PyList.mem arg args_given)) not_key_given in
  if (0 <? PyList.len not_given)%Z then
    Raise (NotEnoughArgs ("The following options are required: "
                          ++ Str.join ", " not_given ++ "."))
  else Return (args_list, kwargs_dict).

(** The first part of [parse]: the scanner, then the loop over [optlist]. *)
Definition mixed_scan (self : FunctionWrapper) (raw_args : list string)
  : result (Dict.t pyvalue * list string * list string) :=
  short_to_name <- _shortcuts self ;;
  shorts_str <- mixed_shorts_str self ;;
  let long_opts := mixed_long_opts self in
  ' (optlist, uncasted_args_list) <-
      getopt.getopt raw_args shorts_str long_opts ;;
  ' (kwargs_dict, pos_args) <-
      mixed_switches self short_to_name optlist None Dict.empty
                     (arg_names self) ;;
  Return (kwargs_dict, pos_args, uncasted_args_list).

Definition MixedFunction_parse (self : FunctionWrapper) (raw_args : list string)
  : result (list pyvalue * Dict.t pyvalue) :=
  ' (kwargs_dict, pos_args, uncasted_args_list) <- mixed_scan self raw_args ;;
  mixed_positional self kwargs_dict pos_args uncasted_args_list.

(** ** The keyword strategy *)

(** A token of several letters after one hyphen: each letter names a
    boolean. *)
Fixpoint kwargs_bundle (self : FunctionWrapper) (short_to_name : Dict.t string)
    (shorts : string) (name : option string) (args_dict : Dict.t pyvalue)
  : result (option string * Dict.t pyvalue) :=
  match shorts with
  | EmptyString => Return (name, args_dict)
  | String c shorts =>
      let short := Str.chr1 c in
      name <- Dict.item short_to_name short ;;
      if negb (PyList.mem name (booleans self)) then
        Raise (PyoptError ("Illegal option '" ++ short ++ "' given as boolean."))
      else
        kwargs_bundle self short_to_name shorts (Some name)
                      (Dict.set args_dict name (VBool true))
  end.

(** How one turn of the loop reads its token: it binds [name] and goes on to
    the value, or it has handled a bundle and continues with the next
    token. *)
Inductive kwargs_token : Type :=
| Named (name : option string)
| Bundled (name : option string) (args_dict : Dict.t pyvalue).

Definition kwargs_read (self : FunctionWrapper) (short_to_name : Dict.t string)
    (argument : string) (name : option string) (args_dict : Dict.t pyvalue)
  : result kwargs_token :=
  if Str.startswith argument "--" then Return (Named (Some (Str.drop 2 argument)))
  else if Str.startswith argument "-" then
    if (Str.len argument =? 2)%Z then
      short <- str_item argument 1 ;;
      full <- Dict.item short_to_name short ;;
      Return (Named (Some full))
    else if (2 <? Str.len argument)%Z then
      ' (name, args_dict) <-
        kwargs_bundle self short_to_name (Str.drop 1 argument) name args_dict ;;
      Return (Bundled name args_dict)
    else Return (Named name)
  else Raise (PyoptError "Options must start with '-' or '--'.").

(** The [while] loop over [raw_args], from the token at index [i] on.
    [name] is the local variable of that name, [None] while it is not
    bound. *)
Fixpoint kwargs_loop (self : FunctionWrapper) (short_to_name : Dict.t string)
    (raw_args : list string) (name : option string)
    (args_dict : Dict.t pyvalue) : result (Dict.t pyvalue) :=
  match raw_args with
  | [] => Return args_dict
  | argument :: rest =>
      token <- kwargs_read self short_to_name argument name args_dict ;;
      match token with
      | Bundled name args_dict =>
          kwargs_loop self short_to_name rest name args_dict
      | Named None => Raise (UnboundLocalError "name")
      | Named (Some name) =>
          if negb (PyList.mem name (arg_names self)) then
            Raise (PyoptError ("Illegal option '" ++ name ++ "' given."))
          else
            val_type <- Dict.item (casts self) name ;;
            if is_bool val_type then
              kwargs_loop self short_to_name rest (Some name)
                          (Dict.set args_dict name (VBool true))
            else
              match rest with
              | [] => Raise (IndexError "list index out of range")
              | val :: rest =>
                  parsed_val <- cast_parameter self name val ;;
                  kwargs_loop self short_to_name rest (Some name)
                              (Dict.set args_dict name parsed_val)
              end
      end
  end.

(** [args_dict] after the loop that defaults all booleans to [False] *)
Definition kwargs_seed (self : FunctionWrapper) : Dict.t pyvalue :=
  fold_left (fun args_dict name => Dict.set args_dict name (VBool false))
            (booleans self) Dict.empty.

Definition KwargsFunction_parse (self : FunctionWrapper) (raw_args : list string)
  : result (list pyvalue * Dict.t pyvalue) :=
  short_to_name <- _shortcuts self ;;
  let args_dict := kwargs_seed self in
  args_dict <- kwargs_loop self short_to_name raw_args None args_dict ;;
  let not_given :=
    filter (fun arg => negb (Dict.mem args_dict arg)) (required self) in
  if (0 <? PyList.len not_given)%Z then
    Raise (NotEnoughArgs ("The following options are required: "
                          ++ Str.join ", " not_given ++ "."))
  else Return ([], args_dict).

(** [self.func.parse], by subclass *)
Definition parse (self : FunctionWrapper) (raw_args : list string)
  : result (list pyvalue * Dict.t pyvalue) :=
  match cls self with
  | ArgsFunction => ArgsFunction_parse self raw_args
  | MixedFunction => MixedFunction_parse self raw_args
  | KwargsFunction => KwargsFunction_parse self raw_args
  end.

(** ** The coordinator *)

Definition HELP_SET : list string := ["-h"; "--help"; "/?"; "?"; "-?"].

(** The attributes of an [Exposer] (the printer apart).  [func] is [None]
    as long as the attribute is not set. *)
Record Exposer : Type := {
  functions_dict : Dict.t FunctionWrapper;
  default_cast : cast;
  cmd_args : list string;
  script_name : string;
  is_single : bool;
  raw_args : list string;
  func : option FunctionWrapper
}.

Definition with_functions (self : Exposer) (d : Dict.t FunctionWrapper)
  : Exposer :=
  {| functions_dict := d;
     default_cast := default_cast self;
     cmd_args := cmd_args self;
     script_name := script_name self;
     is_single := is_single self;
     raw_args := raw_args self;
     func := func self |}.

Section Registration.

Variable set_iter : list string -> list string.

(** The decorators [args], [kwargs] and [mixed]. *)
Definition expose (cls : strategy) (self : Exposer) (function : pyfunction)
  : Exposer :=
  with_functions self
    (Dict.set (functions_dict self) (fn_name function)
              (FunctionWrapper_init set_iter cls function (default_cast self))).

Definition Exposer_args := expose ArgsFunction.
Definition Exposer_kwargs := expose KwargsFunction.
Definition Exposer_mixed := expose MixedFunction.

Definition Exposer_init (kw_funcs_list pos_funcs_list mixed_funcs_list
                         : list pyfunction) (default_cast : cast) : Exposer :=
  let self := {| functions_dict := Dict.empty;
                 default_cast := default_cast;
                 cmd_args := [];
                 script_name := EmptyString;
                 is_single := false;
                 raw_args := [];
                 func := None |} in
  let self := fold_left Exposer_kwargs kw_funcs_list self in
  let self := fold_left Exposer_args pos_funcs_list self in
  fold_left Exposer_mixed mixed_funcs_list self.

End Registration.

Definition the_func (self : Exposer) : result FunctionWrapper :=
  match func self with
  | Some f => Return f
  | None => Raise (AttributeError "func")
  end.

Definition _single_usage (self : Exposer) : result string :=
  func <- the_func self ;;
  args_repr <- parameters_repr func ;;
  let usage := "Usage: " ++ script_name self ++ " " ++ args_repr in
  doc_usage <- docstring_usage func ;;
  Return (usage ++ Str.NL ++ doc_usage).

Definition _func_usage (self : Exposer) : result string :=
  if is_single self then _single_usage self
  else func <- the_func self ;; get_usage func.

Definition _complete_usage (self : Exposer) : result string :=
  if is_single self then _single_usage self
  else
    usages <- mapM get_usage (Dict.values (functions_dict self)) ;;
    Return (Str.join Str.NL
              (("Usage: " ++ script_name self ++ " [function_name] [args]")
               :: "Available functions are:" :: usages)).

(** [_give_help]: an [IndexError] or a [KeyError] inside the [try] gives the
    complete usage. *)
Definition _give_help (self : Exposer) : result string :=
  match (func_name <- list_item (cmd_args self) 2 ;;
         func <- Dict.item (functions_dict self) func_name ;;
         get_usage func) with
  | Return usage => Return usage
  | Raise (IndexError _) | Raise (KeyError _) => _complete_usage self
  | Raise e => Raise e
  end.

(** The argument of [_setup]: a list of tokens, or one text that is split
    at white space. *)
Inductive cmdline : Type :=
| CmdStr (s : string)
| CmdList (l : list string).

Definition tokens_of (cmd_args : cmdline) : list string :=
  match cmd_args with
  | CmdStr s => Str.split s
  | CmdList l => l
  end.

Definition _setup (self : Exposer) (cmd_args : cmdline) : result Exposer :=
  let cmd_args := tokens_of cmd_args in
  arg0 <- list_item cmd_args 0 ;;
  let script_name := Str.basename arg0 in
  let total_funcs := length (functions_dict self) in
  match total_funcs with
  | 0 =>
      Raise (NotImplementedError
               "No functions were decorated for command-line usage.")
  | 1 =>
      let self := {| functions_dict := functions_dict self;
                     default_cast := default_cast self;
                     cmd_args := cmd_args;
                     script_name := script_name;
                     is_single := true;
                     raw_args := PyList.slice_from cmd_args 1;
                     func := hd_error (Dict.values (functions_dict self)) |} in
      match cmd_args with
      | _ :: arg1 :: _ =>
          if PyList.mem arg1 HELP_SET then
            usage <- _complete_usage self ;; Raise (PrintHelp usage)
          else Return self
      | _ => Return self
      end
  | _ =>
      let self := {| functions_dict := functions_dict self;
                     default_cast := default_cast self;
                     cmd_args := cmd_args;
                     script_name := script_name;
                     is_single := false;
                     raw_args := PyList.slice_from cmd_args 2;
                     func := func self |} in
      match cmd_args with
      | _ :: arg1 :: _ =>
          if PyList.mem arg1 HELP_SET then
            usage <- _give_help self ;; Raise (PrintHelp usage)
          else
            match Dict.get (functions_dict self) arg1 with
            | Some f =>
                Return {| functions_dict := functions_dict self;
                          default_cast := default_cast self;
                          cmd_args := cmd_args;
                          script_name := script_name;
                          is_single := false;
                          raw_args := PyList.slice_from cmd_args 2;
                          func := Some f |}
            | None =>
                Raise (PyoptError ("Unkown function '" ++ arg1 ++ "'."))
            end
      | _ => usage <- _complete_usage self ;; Raise (PrintHelp usage)
      end
  end.

Definition parse_args (self : Exposer) (cmd_args : cmdline)
  : result (pyfunction * list pyvalue * Dict.t pyvalue) :=
  self <- _setup self cmd_args ;;
  func <- the_func self ;;
  match parse func (raw_args self) with
  | Return (args, kwargs) => Return (function func, args, kwargs)
  | Raise (NotEnoughArgs e) =>
      if (PyList.len (raw_args self) =? 0)%Z then
        usage <- _func_usage self ;; Raise (PrintHelp usage)
      else Raise (NotEnoughArgs e)
  | Raise e => Raise e
  end.

(** ** Reference functions *)

(** A set iterated in the order of its listing, for the examples. *)
Definition listed (l : list string) : list string := l.

(** [def greet(name: str, debug: bool)] *)
Definition greet : pyfunction :=
  {| fn_name := "greet";
     fn_doc := None;
     fn_args := ["name"; "debug"];
     fn_defaults := [];
     fn_annotations := [("name", Cstr); ("debug", Cbool)] |}.

Definition is_digit (c : ascii) : bool :=
  let n := Str.code c in (48 <=? n)%nat && (n <=? 57)%nat.

Fixpoint digits_value (s : string) (acc : Z) : Z :=
  match s with
  | EmptyString => acc
  | String c r => digits_value r (10 * acc + Z.of_nat (Str.code c - 48))
  end.

(** A converter of the user, fit for an annotation: the number that a
    non-empty text of the digits 0 to 9 writes; on any other text it raises
    [ValueError("not a number")]. *)
Definition decimal : cast :=
  Ccall (fun s =>
           if negb (String.eqb s EmptyString) && all_chars is_digit s
           then inr (VInt (digits_value s 0))
           else inl "not a number").

(** [def take(count: decimal)] *)
Definition take_count : pyfunction :=
  {| fn_name := "take";
     fn_doc := None;
     fn_args := ["count"];
     fn_defaults := [];
     fn_annotations := [("count", decimal)] |}.

(** [def send(email, debug: bool = False)] *)
Definition send : pyfunction :=
  {| fn_name := "send";
     fn_doc := None;
     fn_args := ["email"; "debug"];
     fn_defaults := [Cbool];
     fn_annotations := [] |}.

(** [def pick(x)] with two lines of documentation for [x] *)
Definition pick : pyfunction :=
  {| fn_name := "pick";
     fn_doc := Some ("Pick one." ++ Str.NL ++ "x - first" ++ Str.NL
                     ++ "x - second");
     fn_args := ["x"];
     fn_defaults := [];
     fn_annotations := [] |}.

(** [def copy(src, dst, verbose: bool = False)] *)
Definition copy : pyfunction :=
  {| fn_name := "copy";
     fn_doc := None;
     fn_args := ["src"; "dst"; "verbose"];
     fn_defaults := [Cbool];
     fn_annotations := [] |}.

(** An [Exposer] on which no function was registered. *)
Definition bare : Exposer := Exposer_init listed [] [] [] Cstr.

(** [letter_names short_to_name k c]: the letter [c] is a shortcut of the
    parameter [k]. *)
Definition letter_names (short_to_name : Dict.t string) (k : string)
    (c : ascii) : bool :=
  match Dict.get short_to_name (Str.chr1 c) with
  | Some n => String.eqb n k
  | None => false
  end.

(** [names_switch short_to_name opt n]: the option [opt] that the scanner
    returns is the long form of the parameter [n], or a short form whose
    letter the shortcut table sends to [n]. *)
Definition names_switch (short_to_name : Dict.t string) (opt n : string)
  : Prop :=
  opt = "--" ++ n
  \/ exists c, c <> "-"%char
               /\ opt = String "-" (Str.chr1 c)
               /\ Dict.get short_to_name (Str.chr1 c) = Some n.

(** ** Running *)

(** What [run] comes to when it raises nothing: the value that the exposed
    function returned, or the line that it handed to the printer. *)
Inductive run_outcome : Type :=
| Returned (v : pyvalue)
| Printed (line : string).

Section Run.

(** The call of the exposed function with the parsed positional and
    keyword arguments: the value it returns, or the exception it raises. *)
Variable call : pyfunction -> list pyvalue -> Dict.t pyvalue -> result pyvalue.

(** [run]: the three [except] clauses are tried in their order, [PrintHelp],
    [ValueError], then [PyoptError] with its subclasses; the call of the
    function is inside the [try]. *)
Definition run (self : Exposer) (cmd_args : cmdline) : result run_outcome :=
  match (parsed <- parse_args self cmd_args ;;
         let '(func, args, kwargs) := parsed in
         call func args kwargs) with
  | Return v => Return (Returned v)
  | Raise (PrintHelp e) => Return (Printed e)
  | Raise (ValueError e) =>
      Return (Printed (e ++ ". Run with ? or -h for more help."))
  | Raise (PyoptError e) | Raise (NotEnoughArgs e) =>
      Return (Printed (e ++ " " ++ "Run with ? or -h for more help."))
  | Raise e => Raise e
  end.

End Run.

(** * Properties *)

(** ** The error monad *)

Lemma bind_Return_inv {A B} (c : result A) (k : A -> result B) (b : B) :
  bind c k = Return b -> exists a, c = Return a /\ k a = Return b.
Proof.
  destruct c as [a|e]; simpl; intros H; [eauto | discriminate].
Qed.

Lemma mapM_length {A B} (f : A -> result B) (l : list A) (bs : list B) :
  mapM f l = Return bs -> length bs = length l.
Proof.
  revert bs; induction l as [|a l IH]; simpl; intros bs H.
  - injection H as <-. reflexivity.
  - destruct (f a) as [b|e]; simpl in H; [|discriminate].
    destruct (mapM f l) as [bs'|e]; simpl in H; [|discriminate].
    injection H as <-. simpl. f_equal. now apply IH.
Qed.

Lemma mapM_Forall2 {A B} (f : A -> result B) (l : list A) (bs : list B) :
  Forall2 (fun a b => f a = Return b) l bs -> mapM f l = Return bs.
Proof.
  induction 1 as [|a b l bs Hab _ IH]; simpl; [reflexivity|].
  now rewrite Hab, IH.
Qed.

Lemma mapM_Return_Forall2 {A B} (f : A -> result B) (l : list A) (bs : list B) :
  mapM f l = Return bs -> Forall2 (fun a b => f a = Return b) l bs.
Proof.
  revert bs; induction l as [|a l IH]; simpl; intros bs H.
  - injection H as <-. constructor.
  - destruct (f a) as [b|e] eqn:Hf; simpl in H; [|discriminate].
    destruct (mapM f l) as [bs'|e]; simpl in H; [|discriminate].
    injection H as <-. constructor; auto.
Qed.

Lemma mapM_first_failure {A B} (f : A -> result B) (before after : list A)
    (a : A) (bs : list B) (e : exn) :
  Forall2 (fun a b => f a = Return b) before bs ->
  f a = Raise e ->
  mapM f (before ++ a :: after) = Raise e.
Proof.
  induction 1 as [|a' b l bs' Hab _ IH]; simpl; intros Hf.
  - now rewrite Hf.
  - now rewrite Hab, IH.
Qed.

(** ** Dictionaries *)

Lemma Dict_get_set_eq {V} (d : Dict.t V) k v :
  Dict.get (Dict.set d k v) k = Some v.
Proof.
  induction d as [|[k' v'] d IH]; simpl.
  - now rewrite String.eqb_refl.
  - destruct (String.eqb k' k) eqn:E; simpl.
    + now rewrite String.eqb_refl.
    + now rewrite E.
Qed.

Lemma Dict_get_set_ne {V} (d : Dict.t V) k k' v :
  k <> k' -> Dict.get (Dict.set d k v) k' = Dict.get d k'.
Proof.
  intros Hne. induction d as [|[k0 v0] d IH]; simpl.
  - apply String.eqb_neq in Hne. now rewrite Hne.
  - destruct (String.eqb k0 k) eqn:E; simpl.
    + apply String.eqb_eq in E. subst k0.
      apply String.eqb_neq in Hne. now rewrite Hne.
    + destruct (String.eqb k0 k'); auto.
Qed.

Lemma Dict_mem_set {V} (d : Dict.t V) k k' v :
  Dict.mem (Dict.set d k v) k' = String.eqb k k' || Dict.mem d k'.
Proof.
  unfold Dict.mem. destruct (String.eqb_spec k k') as [->|Hne]; simpl.
  - now rewrite Dict_get_set_eq.
  - now rewrite Dict_get_set_ne.
Qed.

Lemma PyList_mem_In x l : PyList.mem x l = true <-> In x l.
Proof.
  unfold PyList.mem. rewrite existsb_exists. split.
  - intros [y [Hy E]]. apply String.eqb_eq in E. now subst.
  - intros H. exists x. split; [assumption | apply String.eqb_refl].
Qed.

Lemma PyList_len_nonneg {A} (l : list A) : (0 <= PyList.len l)%Z.
Proof. unfold PyList.len. lia. Qed.

(** ** The caster *)

(** A cast fails with a [PyoptError] that names the parameter, and with
    nothing else. *)
Lemma cast_parameter_Raise self name value e :
  cast_parameter self name value = Raise e ->
  exists msg, e = PyoptError (failed_parsing name msg).
Proof.
  unfold cast_parameter.
  destruct (Dict.get (casts self) name) as [[|conv]|].
  - discriminate.
  - destruct (conv value); [|discriminate].
    intros H; injection H as <-; eauto.
  - intros H; injection H as <-; eauto.
Qed.

(** A boolean parameter ignores the text it is given. *)
Lemma cast_parameter_bool self name value :
  Dict.get (casts self) name = Some Cbool ->
  cast_parameter self name value = Return (VBool true).
Proof. unfold cast_parameter. now intros ->. Qed.

(** ** The wrapper that [__init__] builds *)

Section WrapperFacts.

Variable set_iter : list string -> list string.
Variable kind : strategy.
Variable function : pyfunction.
Variable default_cast : cast.

Let self := FunctionWrapper_init set_iter kind function default_cast.

Lemma init_cls : cls self = kind.
Proof. reflexivity. Qed.

Lemma init_arg_names : arg_names self = fn_args function.
Proof. reflexivity. Qed.

Lemma init_needed_args :
  needed_args self
  = (PyList.len (fn_args function) - PyList.len (fn_defaults function))%Z.
Proof. reflexivity. Qed.

Lemma init_booleans :
  booleans self = filter (cast_is_bool (casts self)) (fn_args function).
Proof. reflexivity. Qed.

Lemma init_required :
  required self
  = filter (fun arg => negb (PyList.mem arg (booleans self)))
      (PyList.slice_to (fn_args function)
         (PyList.len (fn_args function) - PyList.len (fn_defaults function))).
Proof. reflexivity. Qed.

End WrapperFacts.

(** ** The positional strategy *)

(** C9. Result shape of the strategies: a successful parse of the positional
    strategy returns an empty keyword mapping, with one positional value per
    token, and a successful parse of the keyword strategy returns an empty
    positional sequence. *)
Theorem strategies_result_shape (self : FunctionWrapper) (raw_args : list string)
    (args : list pyvalue) (kwargs : Dict.t pyvalue) :
  parse self raw_args = Return (args, kwargs) ->
  (cls self = ArgsFunction ->
   kwargs = Dict.empty /\ length args = length raw_args)
  /\ (cls self = KwargsFunction -> args = []).
Proof.
  unfold parse. intros H. split; intros Hcls; rewrite Hcls in H.
  - unfold ArgsFunction_parse in H.
    destruct (PyList.len raw_args <? needed_args self)%Z; [discriminate|].
    destruct (PyList.len (arg_names self) <? PyList.len raw_args)%Z eqn:Hlen;
      [discriminate|].
    apply bind_Return_inv in H. destruct H as [vals [Hm H]].
    injection H as <- <-. split; [reflexivity|].
    apply mapM_length in Hm. rewrite Hm, length_combine.
    apply Z.ltb_ge in Hlen. unfold PyList.len in Hlen. lia.
  - unfold KwargsFunction_parse in H.
    apply bind_Return_inv in H. destruct H as [s2n [_ H]].
    apply bind_Return_inv in H. destruct H as [d [_ H]].
    destruct (0 <? PyList.len _)%Z; [discriminate|].
    now injection H as <- _.
Qed.

Lemma strategies_result_shape_witness :
  (@Dict.empty pyvalue = Dict.empty
   /\ length [VStr "Alice"; VBool true] = length ["Alice"; "yes"])
  /\ (@nil pyvalue = []).
Proof.
  split.
  - apply (strategies_result_shape
             (FunctionWrapper_init listed ArgsFunction greet Cstr)
             ["Alice"; "yes"] [VStr "Alice"; VBool true] Dict.empty);
      reflexivity.
  - apply (strategies_result_shape
             (FunctionWrapper_init listed KwargsFunction greet Cstr)
             ["-n"; "Alice"] []
             [("debug", VBool false); ("name", VStr "Alice")]);
      reflexivity.
Defined.

(** C2, as the code has it. Token-count bounds of the positional strategy:
    with fewer tokens than parameters without a default, the parse raises
    [NotEnoughArgs]; with more tokens than parameters, it raises
    [PyoptError]; in between, the tokens are cast in order, each against
    the parameter at its place: the parse returns the values, with an empty
    keyword mapping, when every cast succeeds, and raises the [PyoptError]
    of the first cast that fails otherwise. *)
Theorem ArgsFunction_parse_token_count (set_iter : list string -> list string)
    (function : pyfunction) (default_cast : cast) (raw_args : list string) :
  let self := FunctionWrapper_init set_iter ArgsFunction function default_cast in
  let given := PyList.len raw_args in
  let total := PyList.len (fn_args function) in
  let needed := (total - PyList.len (fn_defaults function))%Z in
  let paired := combine raw_args (fn_args function) in
  let casted := fun (p : string * string) (v : pyvalue) =>
                  cast_parameter self (snd p) (fst p) = Return v in
  ((given < needed)%Z ->
   parse self raw_args
   = Raise (NotEnoughArgs (Str.of_int needed ++ " arguments required, got only "
                           ++ Str.of_int given ++ ".")))
  /\ ((total < given)%Z ->
      parse self raw_args
      = Raise (PyoptError ("Got " ++ Str.of_int given
                           ++ " arguments and expected at most "
                           ++ Str.of_int total ++ ".")))
  /\ ((needed <= given <= total)%Z ->
      (forall values,
          Forall2 casted paired values ->
          parse self raw_args = Return (values, Dict.empty))
      /\ (forall before p after values e,
             paired = (before ++ p :: after)%list ->
             Forall2 casted before values ->
             cast_parameter self (snd p) (fst p) = Raise e ->
             parse self raw_args = Raise e
             /\ exists msg, e = PyoptError (failed_parsing (snd p) msg))).
Proof.
  intros self given total needed paired casted.
  assert (Hparse : parse self raw_args = ArgsFunction_parse self raw_args)
    by reflexivity.
  assert (Hneeded : needed_args self = needed) by reflexivity.
  assert (Hnames : arg_names self = fn_args function) by reflexivity.
  rewrite Hparse. unfold ArgsFunction_parse. rewrite Hneeded, Hnames.
  fold given total.
  assert (Hmap : forall l,
             mapM (fun '(arg, arg_name) => cast_parameter self arg_name arg) l
             = mapM (fun p => cast_parameter self (snd p) (fst p)) l).
  { induction l as [|[a n] l IH]; simpl; [reflexivity | now rewrite IH]. }
  rewrite Hmap. fold paired.
  split; [|split].
  - intros Hlt. apply Z.ltb_lt in Hlt. now rewrite Hlt.
  - intros Hgt.
    assert (Hge : (given <? needed)%Z = false).
    { apply Z.ltb_ge. subst needed.
      pose proof (PyList_len_nonneg (fn_defaults function)). lia. }
    rewrite Hge. apply Z.ltb_lt in Hgt. now rewrite Hgt.
  - intros [Hlo Hhi].
    apply Z.ltb_ge in Hlo. apply Z.ltb_ge in Hhi. rewrite Hlo, Hhi.
    split.
    + intros values Hall. now rewrite (mapM_Forall2 _ _ _ Hall).
    + intros before p after values e Hsplit Hall Hfail. split.
      * rewrite Hsplit. now rewrite (mapM_first_failure _ _ _ _ _ _ Hall Hfail).
      * eapply cast_parameter_Raise; eassumption.
Qed.

Lemma ArgsFunction_parse_token_count_witness :
  parse (FunctionWrapper_init listed ArgsFunction greet Cstr) ["Alice"]
  = Raise (NotEnoughArgs "2 arguments required, got only 1.")
  /\ parse (FunctionWrapper_init listed ArgsFunction greet Cstr)
           ["Alice"; "yes"; "more"]
     = Raise (PyoptError "Got 3 arguments and expected at most 2.")
  /\ parse (FunctionWrapper_init listed ArgsFunction greet Cstr) ["Alice"; "yes"]
     = Return ([VStr "Alice"; VBool true], Dict.empty)
  /\ parse (FunctionWrapper_init listed ArgsFunction take_count Cstr) ["abc"]
     = Raise (PyoptError "Failed parsing 'count', not a number.").
Proof.
  split; [|split; [|split]].
  - apply (ArgsFunction_parse_token_count listed greet Cstr ["Alice"]).
    vm_compute. reflexivity.
  - apply (ArgsFunction_parse_token_count listed greet Cstr
             ["Alice"; "yes"; "more"]).
    vm_compute. reflexivity.
  - apply (ArgsFunction_parse_token_count listed greet Cstr ["Alice"; "yes"]).
    + vm_compute. split; discriminate.
    + repeat constructor.
  - destruct (ArgsFunction_parse_token_count listed take_count Cstr ["abc"])
      as (_ & _ & Hbetween).
    destruct Hbetween as [_ Hfail]; [vm_compute; split; discriminate|].
    apply (Hfail [] ("abc", "count") [] []).
    + reflexivity.
    + constructor.
    + reflexivity.
Defined.

(** C2, as stated, fails: one token for one parameter without a default is
    within the bounds, and the parse raises all the same, because the cast
    of the token fails. *)
Lemma ArgsFunction_parse_cast_failure :
  let self := FunctionWrapper_init listed ArgsFunction take_count Cstr in
  (needed_args self <= PyList.len ["abc"] <= PyList.len (arg_names self))%Z
  /\ parse self ["abc"]
     = Raise (PyoptError "Failed parsing 'count', not a number.")
  /\ ~ (exists r, parse self ["abc"] = Return r).
Proof.
  split; [|split].
  - vm_compute. split; discriminate.
  - reflexivity.
  - intros [r H]. vm_compute in H. discriminate.
Qed.

(** ** The keyword strategy *)

(** Every value of the seed is [False], and every boolean is a key of it. *)
Lemma seed_fold (l : list string) (d : Dict.t pyvalue) :
  (forall k v, Dict.get d k = Some v -> v = VBool false) ->
  forall k v,
    Dict.get (fold_left (fun d name => Dict.set d name (VBool false)) l d) k
    = Some v ->
    v = VBool false.
Proof.
  revert d. induction l as [|b l IH]; simpl; intros d Hd k v; [apply Hd|].
  apply IH. intros k' v'.
  destruct (String.eqb_spec b k') as [->|Hne].
  - rewrite Dict_get_set_eq. congruence.
  - rewrite Dict_get_set_ne by assumption. apply Hd.
Qed.

Lemma seed_fold_mem (l : list string) (d : Dict.t pyvalue) (k : string) :
  Dict.mem (fold_left (fun d name => Dict.set d name (VBool false)) l d) k
  = PyList.mem k l || Dict.mem d k.
Proof.
  revert d. induction l as [|b l IH]; simpl; intros d; [reflexivity|].
  rewrite IH, Dict_mem_set, (String.eqb_sym k b).
  destruct (String.eqb b k), (PyList.mem k l), (Dict.mem d k); reflexivity.
Qed.

Lemma kwargs_seed_mem self k :
  Dict.mem (kwargs_seed self) k = PyList.mem k (booleans self).
Proof.
  unfold kwargs_seed. rewrite seed_fold_mem. simpl. apply orb_false_r.
Qed.

Lemma kwargs_seed_get self b :
  In b (booleans self) -> Dict.get (kwargs_seed self) b = Some (VBool false).
Proof.
  intros Hb. apply PyList_mem_In in Hb. rewrite <- kwargs_seed_mem in Hb.
  unfold Dict.mem in Hb.
  destruct (Dict.get (kwargs_seed self) b) as [v|] eqn:E; [|discriminate].
  f_equal. eapply seed_fold; [|exact E]. simpl. discriminate.
Qed.

(** The loop only adds keys. *)
Lemma kwargs_bundle_mem self s2n shorts name d name' d' k :
  kwargs_bundle self s2n shorts name d = Return (name', d') ->
  Dict.mem d k = true -> Dict.mem d' k = true.
Proof.
  revert name d. induction shorts as [|c shorts IH]; simpl; intros name d H Hk.
  - now injection H as _ <-.
  - apply bind_Return_inv in H. destruct H as [full [_ H]].
    destruct (negb (PyList.mem full (booleans self))); [discriminate|].
    apply IH in H; [assumption|].
    rewrite Dict_mem_set, Hk. apply orb_true_r.
Qed.

Lemma kwargs_loop_mem self s2n raw_args name d d' k :
  kwargs_loop self s2n raw_args name d = Return d' ->
  Dict.mem d k = true -> Dict.mem d' k = true.
Proof.
  remember (length raw_args) as n eqn:Hn.
  assert (Hle : length raw_args <= n) by lia. clear Hn.
  revert raw_args name d Hle.
  induction n as [|n IH]; intros [|argument rest] name d Hle; simpl in *;
    intros H Hk; try (injection H as <-; assumption); try lia.
  apply bind_Return_inv in H. destruct H as [token [Hread H]].
  destruct token as [[name1|]|name1 d1]; [| discriminate |].
  - destruct (negb (PyList.mem name1 (arg_names self))); [discriminate|].
    apply bind_Return_inv in H. destruct H as [val_type [_ H]].
    destruct (is_bool val_type).
    + apply IH in H; [assumption | lia |].
      rewrite Dict_mem_set, Hk. apply orb_true_r.
    + destruct rest as [|val rest]; [discriminate|].
      apply bind_Return_inv in H. destruct H as [parsed [_ H]].
      apply IH in H; [assumption | simpl in Hle; lia |].
      rewrite Dict_mem_set, Hk. apply orb_true_r.
  - apply IH in H; [assumption | lia |].
    unfold kwargs_read in Hread.
    destruct (Str.startswith argument "--"); [discriminate|].
    destruct (Str.startswith argument "-"); [|discriminate].
    destruct (Str.len argument =? 2)%Z.
    { apply bind_Return_inv in Hread. destruct Hread as [s [_ Hread]].
      apply bind_Return_inv in Hread. destruct Hread as [f [_ Hread]].
      discriminate. }
    destruct (2 <? Str.len argument)%Z; [|discriminate].
    apply bind_Return_inv in Hread. destruct Hread as [[nm dd] [Hb Hread]].
    injection Hread as <- <-.
    eapply kwargs_bundle_mem; eassumption.
Qed.

(** C3. Pre-seeding of the booleans, and the reference example: before the
    scan every boolean parameter is in the result mapping with the value
    false, and it is still a key of the mapping that a successful parse
    returns; for [greet], with the boolean [debug] and the required [name],
    the tokens [-n Alice] give [debug] false and [name] Alice, the tokens
    [-n Alice -d] give [debug] true, and [-d] alone raises [NotEnoughArgs]
    with the missing [name] in its message. *)
Theorem kwargs_seed_and_reference_example :
  (forall self,
      Forall (fun b => Dict.get (kwargs_seed self) b = Some (VBool false))
             (booleans self))
  /\ (forall self raw_args args kwargs,
         KwargsFunction_parse self raw_args = Return (args, kwargs) ->
         Forall (fun b => Dict.mem kwargs b = true) (booleans self))
  /\ (forall set_iter default_cast,
         let self :=
           FunctionWrapper_init set_iter KwargsFunction greet default_cast in
         booleans self = ["debug"]
         /\ required self = ["name"]
         /\ parse self ["-n"; "Alice"]
            = Return ([], [("debug", VBool false); ("name", VStr "Alice")])
         /\ parse self ["-n"; "Alice"; "-d"]
            = Return ([], [("debug", VBool true); ("name", VStr "Alice")])
         /\ parse self ["-d"]
            = Raise (NotEnoughArgs "The following options are required: name.")).
Proof.
  split; [|split].
  - intros self. apply Forall_forall. intros b Hb. now apply kwargs_seed_get.
  - intros self raw_args args kwargs H. apply Forall_forall. intros b Hb.
    unfold KwargsFunction_parse in H.
    apply bind_Return_inv in H. destruct H as [s2n [_ H]].
    apply bind_Return_inv in H. destruct H as [d [Hloop H]].
    destruct (0 <? PyList.len _)%Z; [discriminate|].
    injection H as _ <-.
    eapply kwargs_loop_mem; [eassumption|].
    rewrite kwargs_seed_mem. now apply PyList_mem_In.
  - intros set_iter default_cast self. repeat split.
Qed.

Lemma kwargs_seed_and_reference_example_witness :
  Forall (fun b => Dict.mem [("debug", VBool true); ("name", VStr "Alice")] b
                   = true)
         (booleans (FunctionWrapper_init listed KwargsFunction greet Cstr)).
Proof.
  destruct kwargs_seed_and_reference_example as (_ & Hkeys & _).
  apply (Hkeys (FunctionWrapper_init listed KwargsFunction greet Cstr)
               ["-n"; "Alice"; "-d"] []).
  reflexivity.
Defined.

(** Text that starts with a prefix. *)
Lemma startswith_cons c r p q :
  Str.startswith (String c r) (String p q)
  = Ascii.eqb p c && Str.startswith r q.
Proof.
  unfold Str.startswith. simpl.
  destruct (Ascii.ascii_dec p c) as [->|Hne].
  - now rewrite Ascii.eqb_refl.
  - apply Ascii.eqb_neq in Hne. now rewrite Hne.
Qed.

Lemma startswith_empty s : Str.startswith s EmptyString = true.
Proof. now destruct s. Qed.

Lemma startswith_two_hyphens s :
  Str.startswith s "--" = true -> Str.startswith s "-" = true.
Proof.
  destruct s as [|c r]; [discriminate|].
  rewrite !startswith_cons, startswith_empty.
  destruct (Ascii.eqb "-" c); [reflexivity | discriminate].
Qed.

(** The loop of the keyword strategy, at a token that does not start with a
    hyphen: whatever the state, it raises the [PyoptError] of the [else]
    branch. *)
Lemma kwargs_loop_plain_token self s2n argument rest name d :
  Str.startswith argument "-" = false ->
  kwargs_loop self s2n (argument :: rest) name d
  = Raise (PyoptError "Options must start with '-' or '--'.").
Proof.
  intros Hplain. simpl. unfold kwargs_read.
  destruct (Str.startswith argument "--") eqn:Hlong.
  - apply startswith_two_hyphens in Hlong. congruence.
  - now rewrite Hplain.
Qed.

(** At a long form whose name is not a parameter name, it raises the
    [PyoptError] of the membership test. *)
Lemma kwargs_loop_unknown_long self s2n argument rest name d :
  Str.startswith argument "--" = true ->
  PyList.mem (Str.drop 2 argument) (arg_names self) = false ->
  kwargs_loop self s2n (argument :: rest) name d
  = Raise (PyoptError ("Illegal option '" ++ Str.drop 2 argument ++ "' given.")).
Proof.
  intros Hlong Hmem. cbn [kwargs_loop]. unfold kwargs_read. rewrite Hlong.
  cbn [bind]. now rewrite Hmem.
Qed.

(** At a short form whose letter is not in the shortcut table, the lookup in
    the table raises [KeyError], before the membership test is reached. *)
Lemma kwargs_loop_unknown_short self s2n c rest name d :
  c <> "-"%char ->
  Dict.get s2n (Str.chr1 c) = None ->
  kwargs_loop self s2n (String "-" (Str.chr1 c) :: rest) name d
  = Raise (KeyError (Str.chr1 c)).
Proof.
  intros Hc Hget. simpl. unfold kwargs_read, Str.chr1.
  rewrite !startswith_cons, !startswith_empty.
  assert (Hne : Ascii.eqb "-" c = false).
  { apply Ascii.eqb_neq. congruence. }
  rewrite Hne. simpl. unfold Dict.item, Str.chr1 in *. now rewrite Hget.
Qed.

(** C4, where the code departs from it. An unknown short switch does not
    end in a parsing error of the module: as the first token, a hyphen and
    a letter that starts no parameter name make the keyword strategy raise
    [KeyError], which is not a [PyoptError]. *)
Theorem kwargs_unknown_short_switch (self : FunctionWrapper)
    (short_to_name : Dict.t string) (c : ascii) (rest : list string) :
  cls self = KwargsFunction ->
  _shortcuts self = Return short_to_name ->
  Dict.get short_to_name (Str.chr1 c) = None ->
  c <> "-"%char ->
  parse self (String "-" (Str.chr1 c) :: rest) = Raise (KeyError (Str.chr1 c))
  /\ is_PyoptError (KeyError (Str.chr1 c)) = false.
Proof.
  intros Hcls Hs2n Hget Hc. split; [|reflexivity].
  unfold parse. rewrite Hcls. unfold KwargsFunction_parse. rewrite Hs2n.
  cbn [bind]. now rewrite kwargs_loop_unknown_short.
Qed.

Lemma kwargs_unknown_short_switch_witness :
  parse (FunctionWrapper_init listed KwargsFunction greet Cstr) ["-x"]
  = Raise (KeyError "x")
  /\ is_PyoptError (KeyError "x") = false.
Proof.
  apply (kwargs_unknown_short_switch
           (FunctionWrapper_init listed KwargsFunction greet Cstr)
           [("n", "name"); ("d", "debug")] "x" []).
  - reflexivity.
  - reflexivity.
  - reflexivity.
  - discriminate.
Defined.

(** ** The coordinator without functions *)

(** C6, as the code has it. With no function registered and at least one
    token, [_setup] raises the built-in [NotImplementedError], whatever the
    tokens are; this exception is not a [PyoptError]. *)
Theorem setup_without_functions (self : Exposer) (cmd_args : cmdline) :
  functions_dict self = [] ->
  tokens_of cmd_args <> [] ->
  _setup self cmd_args
  = Raise (NotImplementedError
             "No functions were decorated for command-line usage.")
  /\ is_PyoptError (NotImplementedError
                      "No functions were decorated for command-line usage.")
     = false.
Proof.
  intros Hnone Htokens. split; [|reflexivity].
  unfold _setup. destruct (tokens_of cmd_args) as [|arg0 rest]; [congruence|].
  simpl. now rewrite Hnone.
Qed.

Lemma setup_without_functions_witness :
  _setup bare (CmdStr "prog.py --help")
  = Raise (NotImplementedError
             "No functions were decorated for command-line usage.")
  /\ is_PyoptError (NotImplementedError
                      "No functions were decorated for command-line usage.")
     = false.
Proof.
  apply (setup_without_functions bare (CmdStr "prog.py --help")).
  - reflexivity.
  - vm_compute. discriminate.
Defined.

(** C6, as stated, fails: the exception that [_setup] raises without
    functions is outside the family of [PyoptError], and on an empty token
    list [_setup] raises [IndexError] before it counts the functions. *)
Lemma setup_empty_registry_outside_family :
  ~ (exists e, _setup bare (CmdList ["prog.py"]) = Raise e
               /\ is_PyoptError e = true)
  /\ _setup bare (CmdList []) = Raise (IndexError "list index out of range").
Proof.
  split; [|reflexivity].
  intros [e [H Hfam]]. vm_compute in H. injection H as <-. discriminate.
Qed.

(** ** The docstring parser *)

Lemma parse_doc_lines_app names l1 l2 i first_line d :
  parse_doc_lines names (l1 ++ l2) i first_line d
  = parse_doc_lines names l2 (i + PyList.len l1)
      (fst (parse_doc_lines names l1 i first_line d))
      (snd (parse_doc_lines names l1 i first_line d)).
Proof.
  revert i first_line d. induction l1 as [|ln l1 IH]; intros i first_line d.
  - simpl. f_equal. unfold PyList.len. simpl. lia.
  - cbn [app parse_doc_lines].
    assert (Hi : (i + PyList.len (ln :: l1) = i + 1 + PyList.len l1)%Z).
    { unfold PyList.len. cbn [length]. lia. }
    rewrite Hi.
    destruct (var_doc_match names (Str.strip ln)) as [[name doc]|]; apply IH.
Qed.

(** Lines that do not match with [name] leave its entry as it is. *)
Lemma parse_doc_lines_other names lines i first_line d name :
  (forall ln doc, In ln lines ->
                  var_doc_match names (Str.strip ln) <> Some (name, doc)) ->
  Dict.get (snd (parse_doc_lines names lines i first_line d)) name
  = Dict.get d name.
Proof.
  revert i first_line d. induction lines as [|ln lines IH];
    intros i first_line d Hother; [reflexivity|].
  cbn [parse_doc_lines].
  assert (Hrest : forall ln' doc, In ln' lines ->
            var_doc_match names (Str.strip ln') <> Some (name, doc)).
  { intros ln' doc Hin. apply Hother. now right. }
  destruct (var_doc_match names (Str.strip ln)) as [[name' doc']|] eqn:Hm.
  - rewrite IH by assumption. apply Dict_get_set_ne.
    intros ->. apply (Hother ln doc'); [now left | assumption].
  - now apply IH.
Qed.

(** A line that starts with a parameter name, goes on with a run of
    characters of the class and then with text that starts outside the class
    and holds no line feed: the match gives the name and that text. *)
Lemma var_doc_match_trailing names name sep text :
  match_alt (alternatives names) (name ++ sep ++ text)
  = Some (name, sep ++ text) ->
  all_chars var_doc_class sep = true ->
  skip_class text = text ->
  dot_star text = text ->
  var_doc_match names (name ++ sep ++ text) = Some (name, text).
Proof.
  intros Halt Hsep Hstart Hline. unfold var_doc_match. rewrite Halt.
  do 2 f_equal. clear Halt.
  assert (Hskip : skip_class (sep ++ text) = text).
  { induction sep as [|c sep IH]; simpl in *; [assumption|].
    apply andb_prop in Hsep. destruct Hsep as [Hc Hsep].
    rewrite Hc. now apply IH. }
  now rewrite Hskip.
Qed.

(** C5, as the code has it. Last-line rule of the docstring parser: when
    several stripped lines of the docstring match with the same parameter
    name, the help recorded for that parameter is the trimmed second group
    of the last such line; every matching line replaces the entry of the ones
    before it. *)
Theorem parse_docstring_last_line (function : pyfunction) (docs : string)
    (before after : list string) (ln name doc : string) :
  fn_doc function = Some docs ->
  Str.splitlines docs = (before ++ ln :: after)%list ->
  var_doc_match (fn_args function) (Str.strip ln) = Some (name, doc) ->
  (forall ln' doc', In ln' after ->
     var_doc_match (fn_args function) (Str.strip ln') <> Some (name, doc')) ->
  Dict.get (snd (_parse_docstring function)) name = Some (Str.strip doc).
Proof.
  intros Hdoc Hlines Hmatch Hafter.
  unfold _parse_docstring, _getfunctionspec. rewrite Hdoc, Hlines.
  rewrite parse_doc_lines_app.
  destruct (parse_doc_lines (fn_args function) before 0 (Str.len docs)
              Dict.empty) as [first_line d] eqn:Hbefore.
  cbn [fst snd parse_doc_lines]. rewrite Hmatch.
  match goal with
  | |- context [parse_doc_lines ?n ?l ?i ?f ?d0] =>
      pose proof (parse_doc_lines_other n l i f d0 name Hafter) as Hkeep;
      destruct (parse_doc_lines n l i f d0) as [first_line' d']
  end.
  cbn [snd] in *. rewrite Hkeep. apply Dict_get_set_eq.
Qed.

Lemma parse_docstring_last_line_witness :
  Dict.get (snd (_parse_docstring pick)) "x" = Some (Str.strip "second").
Proof.
  apply (parse_docstring_last_line pick
           ("Pick one." ++ Str.NL ++ "x - first" ++ Str.NL ++ "x - second")
           ["Pick one."; "x - first"] [] "x - second" "x" "second").
  - reflexivity.
  - reflexivity.
  - reflexivity.
  - intros ln' doc' [].
Defined.

(** C5, as stated, fails: of two lines that document [x], the first with the
    text [first] and the second with the text [second], the help recorded
    for [x] is [second]. *)
Lemma parse_docstring_not_first_line :
  Str.splitlines ("Pick one." ++ Str.NL ++ "x - first" ++ Str.NL ++ "x - second")
  = ["Pick one."; "x - first"; "x - second"]
  /\ var_doc_match (fn_args pick) (Str.strip "x - first") = Some ("x", "first")
  /\ var_doc_match (fn_args pick) (Str.strip "x - second") = Some ("x", "second")
  /\ _parse_docstring pick = ("Pick one.", [("x", "second")])
  /\ Dict.get (snd (_parse_docstring pick)) "x" <> Some "first".
Proof.
  repeat split. vm_compute. discriminate.
Qed.

(** ** The scanner *)

Section Scanner.

Variable shortopts : string.
Variable longopts : list string.

Lemma do_shorts_app opts optstring args more opts' args' :
  getopt.do_shorts opts optstring shortopts args = Return (opts', args') ->
  getopt.do_shorts opts optstring shortopts (args ++ more)
  = Return (opts', (args' ++ more)%list).
Proof.
  revert opts. induction optstring as [|opt s IH]; intros opts H.
  - cbn [getopt.do_shorts] in *. now injection H as <- <-.
  - cbn [getopt.do_shorts] in *.
    destruct (getopt.short_has_arg opt shortopts) as [[|]|e];
      cbn [bind] in *; [| now apply IH | discriminate].
    destruct s as [|c s].
    + destruct args as [|optarg args]; [discriminate|].
      now injection H as <- <-.
    + now injection H as <- <-.
Qed.

Lemma do_shorts_length opts optstring args opts' args' :
  getopt.do_shorts opts optstring shortopts args = Return (opts', args') ->
  length args' <= length args.
Proof.
  revert opts. induction optstring as [|opt s IH]; intros opts H.
  - cbn [getopt.do_shorts] in *. injection H as <- <-. lia.
  - cbn [getopt.do_shorts] in *.
    destruct (getopt.short_has_arg opt shortopts) as [[|]|e];
      cbn [bind] in *; [| now apply IH in H | discriminate].
    destruct s as [|c s].
    + destruct args as [|optarg args]; [discriminate|].
      injection H as <- <-. simpl. lia.
    + injection H as <- <-. lia.
Qed.

Lemma do_longs_app opts opt args more opts' args' :
  getopt.do_longs opts opt longopts args = Return (opts', args') ->
  getopt.do_longs opts opt longopts (args ++ more)
  = Return (opts', (args' ++ more)%list).
Proof.
  unfold getopt.do_longs.
  destruct (match Str.index opt "=" with
            | Some i => (Str.take i opt, Some (Str.drop (S i) opt))
            | None => (opt, None)
            end) as [opt1 optarg].
  destruct (getopt.long_has_args opt1 longopts) as [[[|] opt2]|e];
    cbn [bind]; [| | discriminate].
  - destruct optarg as [optarg|].
    + intros H. now injection H as <- <-.
    + destruct args as [|optarg args]; [discriminate|].
      intros H. now injection H as <- <-.
  - destruct optarg as [optarg|]; [discriminate|].
    intros H. now injection H as <- <-.
Qed.

Lemma do_longs_length opts opt args opts' args' :
  getopt.do_longs opts opt longopts args = Return (opts', args') ->
  length args' <= length args.
Proof.
  unfold getopt.do_longs.
  destruct (match Str.index opt "=" with
            | Some i => (Str.take i opt, Some (Str.drop (S i) opt))
            | None => (opt, None)
            end) as [opt1 optarg].
  destruct (getopt.long_has_args opt1 longopts) as [[[|] opt2]|e];
    cbn [bind]; [| | discriminate].
  - destruct optarg as [optarg|].
    + intros H. injection H as <- <-. lia.
    + destruct args as [|optarg args]; [discriminate|].
      intros H. injection H as <- <-. simpl. lia.
  - destruct optarg as [optarg|]; [discriminate|].
    intros H. injection H as <- <-. lia.
Qed.

(** With fuel above the length of the arguments the loop ends. *)
Lemma getopt_loop_ends fuel opts args :
  length args < fuel ->
  exists r, getopt.getopt_loop fuel opts args shortopts longopts = Some r.
Proof.
  revert opts args. induction fuel as [|fuel IH]; intros opts args Hlen; [lia|].
  cbn [getopt.getopt_loop]. destruct args as [|arg0 rest]; [eauto|].
  destruct (getopt.is_option arg0); [|eauto].
  destruct (String.eqb arg0 "--"); [eauto|].
  simpl in Hlen.
  destruct (Str.startswith arg0 "--").
  - destruct (getopt.do_longs opts (Str.drop 2 arg0) longopts rest)
      as [[opts' args']|e] eqn:Hdo; [|eauto].
    apply do_longs_length in Hdo. apply IH. lia.
  - destruct (getopt.do_shorts opts (Str.drop 1 arg0) shortopts rest)
      as [[opts' args']|e] eqn:Hdo; [|eauto].
    apply do_shorts_length in Hdo. apply IH. lia.
Qed.

(** More fuel does not change the outcome. *)
Lemma getopt_loop_more_fuel fuel fuel' opts args r :
  getopt.getopt_loop fuel opts args shortopts longopts = Some r ->
  fuel <= fuel' ->
  getopt.getopt_loop fuel' opts args shortopts longopts = Some r.
Proof.
  revert fuel' opts args. induction fuel as [|fuel IH];
    intros fuel' opts args H Hle; [discriminate|].
  destruct fuel' as [|fuel']; [lia|].
  cbn [getopt.getopt_loop] in *. destruct args as [|arg0 rest]; [assumption|].
  destruct (getopt.is_option arg0); [|assumption].
  destruct (String.eqb arg0 "--"); [assumption|].
  destruct (if Str.startswith arg0 "--"
            then getopt.do_longs opts (Str.drop 2 arg0) longopts rest
            else getopt.do_shorts opts (Str.drop 1 arg0) shortopts rest)
    as [[opts' args']|e]; [|assumption].
  apply IH; [assumption | lia].
Qed.

Lemma getopt_unfold args :
  getopt.getopt_loop (S (length args)) [] args shortopts longopts
  = Some (getopt.getopt args shortopts longopts).
Proof.
  unfold getopt.getopt.
  destruct (getopt_loop_ends (S (length args)) [] args) as [r Hr]; [lia|].
  now rewrite Hr.
Qed.

Lemma getopt_of_loop fuel args r :
  getopt.getopt_loop fuel [] args shortopts longopts = Some r ->
  getopt.getopt args shortopts longopts = r.
Proof.
  intros H.
  pose proof (getopt_unfold args) as Hu.
  apply (getopt_loop_more_fuel _ (fuel + S (length args))) in H; [|lia].
  apply (getopt_loop_more_fuel _ (fuel + S (length args))) in Hu; [|lia].
  congruence.
Qed.

(** The tokens that follow do not matter to the scan once it has stopped:
    either it left tokens over, or the first of the tokens that follow is
    not an option. *)
Lemma getopt_loop_app fuel opts args more opts' rest :
  getopt.getopt_loop fuel opts args shortopts longopts
  = Some (Return (opts', rest)) ->
  rest <> [] \/ plain_head more ->
  exists fuel',
    getopt.getopt_loop fuel' opts (args ++ more) shortopts longopts
    = Some (Return (opts', (rest ++ more)%list)).
Proof.
  revert opts args. induction fuel as [|fuel IH]; intros opts args H Hstop;
    [discriminate|].
  cbn [getopt.getopt_loop] in H. destruct args as [|arg0 args].
  - injection H as <- <-. destruct Hstop as [Hrest|Hplain]; [congruence|].
    exists 1. cbn [app getopt.getopt_loop].
    destruct more as [|token more]; [reflexivity|].
    cbn [plain_head] in Hplain. now rewrite Hplain.
  - destruct (getopt.is_option arg0) eqn:Hopt.
    + destruct (String.eqb arg0 "--") eqn:Hsep.
      * injection H as <- <-. exists 1.
        cbn [app getopt.getopt_loop]. now rewrite Hopt, Hsep.
      * destruct (Str.startswith arg0 "--") eqn:Hlong.
        -- destruct (getopt.do_longs opts (Str.drop 2 arg0) longopts args)
             as [[opts1 args1]|e] eqn:Hdo; [|discriminate].
           destruct (IH _ _ H Hstop) as [fuel' Hloop].
           exists (S fuel'). rewrite <- app_comm_cons.
           cbn [getopt.getopt_loop]. rewrite Hopt, Hsep, Hlong.
           now rewrite (do_longs_app _ _ _ more _ _ Hdo).
        -- destruct (getopt.do_shorts opts (Str.drop 1 arg0) shortopts args)
             as [[opts1 args1]|e] eqn:Hdo; [|discriminate].
           destruct (IH _ _ H Hstop) as [fuel' Hloop].
           exists (S fuel'). rewrite <- app_comm_cons.
           cbn [getopt.getopt_loop]. rewrite Hopt, Hsep, Hlong.
           now rewrite (do_shorts_app _ _ _ more _ _ Hdo).
    + injection H as <- <-. exists 1. rewrite <- app_comm_cons.
      cbn [getopt.getopt_loop]. now rewrite Hopt.
Qed.

Lemma getopt_app args more opts rest :
  getopt.getopt args shortopts longopts = Return (opts, rest) ->
  rest <> [] \/ plain_head more ->
  getopt.getopt (args ++ more) shortopts longopts
  = Return (opts, (rest ++ more)%list).
Proof.
  intros H Hstop. pose proof (getopt_unfold args) as Hu. rewrite H in Hu.
  destruct (getopt_loop_app _ _ _ more _ _ Hu Hstop) as [fuel' Hloop].
  now apply getopt_of_loop in Hloop.
Qed.

End Scanner.

(** ** The mixed strategy *)

(** C8, where the code departs from it. The short-option text holds the
    whole name of every boolean parameter, not its first letter: for
    [send], with the required [email] and the boolean [debug], it is
    [debuge:], so each of the letters d, e, b, u and g is an option without
    argument.  The letter e of [email] is then read as a flag: the tokens
    [-e bob] bind [email] to the empty text and [debug] to true.  The long
    options are as the claim has them. *)
Theorem mixed_shorts_str_of_booleans (set_iter : list string -> list string) :
  let self := FunctionWrapper_init set_iter MixedFunction send Cstr in
  booleans self = ["debug"]
  /\ required self = ["email"]
  /\ mixed_shorts_str self = Return "debuge:"
  /\ mixed_long_opts self = ["debug"; "email="]
  /\ getopt.short_has_arg "e" "debuge:" = Return false
  /\ getopt.short_has_arg "u" "debuge:" = Return false
  /\ parse self ["-e"; "bob"]
     = Return ([VBool true], [("email", VStr EmptyString)]).
Proof.
  intros self. repeat split.
Qed.

(** What the text is in general: the names of the booleans, then a letter
    and a colon for each required parameter. *)
Lemma mixed_shorts_str_Return self shorts :
  mixed_shorts_str self = Return shorts ->
  exists req_part,
    mapM (fun name => n0 <- str_item name 0 ;; Return (n0 ++ ":"))
         (required self) = Return req_part
    /\ shorts = Str.join "" (booleans self) ++ Str.join "" req_part.
Proof.
  unfold mixed_shorts_str. intros H.
  apply bind_Return_inv in H. destruct H as [req_part [Hreq H]].
  injection H as <-. exists req_part. split; [assumption|].
  now rewrite map_id.
Qed.

Lemma mixed_scan_inv self raw_args kw pos rest :
  mixed_scan self raw_args = Return (kw, pos, rest) ->
  exists short_to_name shorts_str optlist,
    _shortcuts self = Return short_to_name
    /\ mixed_shorts_str self = Return shorts_str
    /\ getopt.getopt raw_args shorts_str (mixed_long_opts self)
       = Return (optlist, rest)
    /\ mixed_switches self short_to_name optlist None Dict.empty
                      (arg_names self) = Return (kw, pos).
Proof.
  unfold mixed_scan. intros H.
  apply bind_Return_inv in H. destruct H as [s2n [Hs H]].
  apply bind_Return_inv in H. destruct H as [shorts [Hsh H]].
  apply bind_Return_inv in H. destruct H as [[optlist rest'] [Hg H]].
  apply bind_Return_inv in H. destruct H as [[kw' pos'] [Hsw H]].
  injection H as <- <- <-. exists s2n, shorts, optlist. auto.
Qed.

(** Tokens after the place where the scan stopped are handed on as they
    are. *)
Lemma mixed_scan_app self raw_args more kw pos rest :
  mixed_scan self raw_args = Return (kw, pos, rest) ->
  rest <> [] \/ plain_head more ->
  mixed_scan self (raw_args ++ more) = Return (kw, pos, (rest ++ more)%list).
Proof.
  intros H Hstop. apply mixed_scan_inv in H.
  destruct H as (s2n & shorts & optlist & Hs & Hsh & Hg & Hsw).
  unfold mixed_scan. rewrite Hs, Hsh. cbn [bind].
  rewrite (getopt_app _ _ _ more _ _ Hg Hstop). cbn [bind].
  now rewrite Hsw.
Qed.

Lemma distinct_NoDup l : distinct l = true -> NoDup l.
Proof.
  induction l as [|x l IH]; simpl; intros H; constructor.
  - apply andb_prop in H. destruct H as [Hx _].
    intros Hin. apply PyList_mem_In in Hin. rewrite Hin in Hx. discriminate.
  - apply andb_prop in H. destruct H as [_ Hl]. now apply IH.
Qed.

Lemma filter_all {A} (f : A -> bool) l :
  (forall x, In x l -> f x = true) -> filter f l = l.
Proof.
  induction l as [|x l IH]; simpl; intros H; [reflexivity|].
  rewrite (H x) by now left. f_equal. apply IH. intros y Hy. apply H. now right.
Qed.

Lemma remove_filter x l l' :
  NoDup l -> PyList.remove x l = Some l' ->
  l' = filter (fun n => negb (String.eqb x n)) l.
Proof.
  revert l'. induction l as [|y l IH]; simpl; intros l' Hnd H; [discriminate|].
  inversion Hnd as [|? ? Hy Hl]; subst.
  destruct (String.eqb_spec y x) as [->|Hne].
  - injection H as <-. rewrite String.eqb_refl. simpl.
    symmetry. apply filter_all. intros n Hn.
    destruct (String.eqb_spec x n) as [->|]; [contradiction | reflexivity].
  - destruct (PyList.remove x l) as [r|]; [|discriminate].
    injection H as <-.
    destruct (String.eqb_spec x y) as [->|_]; [congruence|]. simpl.
    f_equal. now apply IH.
Qed.

Lemma remove_keeps x l l' n :
  PyList.remove x l = Some l' -> In n l -> n = x \/ In n l'.
Proof.
  revert l'. induction l as [|y l IH]; simpl; intros l' H Hn; [contradiction|].
  destruct (String.eqb_spec y x) as [->|Hne].
  - injection H as <-. destruct Hn as [<-|Hn]; auto.
  - destruct (PyList.remove x l) as [r|]; [|discriminate].
    injection H as <-. destruct Hn as [<-|Hn]; [right; now left|].
    destruct (IH r eq_refl Hn) as [->|Hr]; [now left | right; now right].
Qed.

Lemma filter_filter {A} (f g : A -> bool) l :
  filter f (filter g l) = filter (fun x => g x && f x) l.
Proof.
  induction l as [|x l IH]; simpl; [reflexivity|].
  destruct (g x); simpl; [destruct (f x); now rewrite IH | assumption].
Qed.

(** After the loop over the options, a parameter is left for the positional
    tokens or it is a key of the keyword mapping. *)
Lemma mixed_switches_covers self s2n optlist name kw0 pos0 kw pos n :
  mixed_switches self s2n optlist name kw0 pos0 = Return (kw, pos) ->
  In n pos0 \/ Dict.mem kw0 n = true ->
  In n pos \/ Dict.mem kw n = true.
Proof.
  revert name kw0 pos0.
  induction optlist as [|[opt val] optlist IH]; intros name kw0 pos0 H Hn.
  - cbn [mixed_switches] in H. now injection H as <- <-.
  - cbn [mixed_switches] in H.
    apply bind_Return_inv in H. destruct H as [[name1|] [_ H]]; [|discriminate].
    apply bind_Return_inv in H. destruct H as [parsed [_ H]].
    destruct (PyList.remove name1 pos0) as [pos1|] eqn:Hrem; [|discriminate].
    apply IH in H; [assumption|].
    rewrite Dict_mem_set.
    destruct Hn as [Hn|Hn].
    + destruct (remove_keeps _ _ _ _ Hrem Hn) as [->|Hin]; [|now left].
      right. now rewrite String.eqb_refl.
    + right. rewrite Hn. apply orb_true_r.
Qed.

(** With distinct parameter names, the parameters left for the positional
    tokens are the declared ones, in their order, without the keys of the
    keyword mapping. *)
Lemma mixed_switches_pos self s2n optlist name kw0 pos0 kw pos names :
  NoDup names ->
  pos0 = filter (fun n => negb (Dict.mem kw0 n)) names ->
  mixed_switches self s2n optlist name kw0 pos0 = Return (kw, pos) ->
  pos = filter (fun n => negb (Dict.mem kw n)) names.
Proof.
  intros Hnd. revert name kw0 pos0.
  induction optlist as [|[opt val] optlist IH]; intros name kw0 pos0 Hpos H.
  - cbn [mixed_switches] in H. injection H as <- <-. assumption.
  - cbn [mixed_switches] in H.
    apply bind_Return_inv in H. destruct H as [[name1|] [_ H]]; [|discriminate].
    apply bind_Return_inv in H. destruct H as [parsed [_ H]].
    destruct (PyList.remove name1 pos0) as [pos1|] eqn:Hrem; [|discriminate].
    apply IH in H; [assumption|].
    apply remove_filter in Hrem.
    + rewrite Hrem, Hpos, filter_filter. apply filter_ext. intros n.
      rewrite Dict_mem_set.
      destruct (Dict.mem kw0 n), (String.eqb name1 n); reflexivity.
    + rewrite Hpos. now apply NoDup_filter.
Qed.

Lemma mixed_positional_Return self kw pos rest args kwargs :
  mixed_positional self kw pos rest = Return (args, kwargs) ->
  kwargs = kw
  /\ Forall2 (fun p v => cast_parameter self (fst p) (snd p) = Return v)
             (combine pos rest) args.
Proof.
  unfold mixed_positional. intros H.
  apply bind_Return_inv in H. destruct H as [vals [Hm H]].
  destruct (0 <? PyList.len _)%Z; [discriminate|].
  injection H as <- <-. split; [reflexivity|].
  apply mapM_Return_Forall2 in Hm.
  clear -Hm. induction Hm as [|[n t] v l vs Hv _ IH]; constructor; auto.
Qed.

(** C7, as the code has it. Switches are read at the front of the token
    stream only: when the tokens of [front] are all taken by the scan and
    [token] is not an option, the scan of [front] followed by [token] and
    any further tokens gives the same keyword mapping and leaves [token] and
    all that follows it, switch-like or not, as positional tokens; these go,
    in the declared order, to the parameters that are not keys of the
    keyword mapping, each cast by the cast of its own parameter. *)
Theorem mixed_switches_end_at_first_plain_token (self : FunctionWrapper)
    (front after : list string) (token : string)
    (kw : Dict.t pyvalue) (pos : list string) :
  mixed_scan self front = Return (kw, pos, []) ->
  getopt.is_option token = false ->
  mixed_scan self (front ++ token :: after) = Return (kw, pos, token :: after)
  /\ MixedFunction_parse self (front ++ token :: after)
     = mixed_positional self kw pos (token :: after)
  /\ (distinct (arg_names self) = true ->
      pos = filter (fun n => negb (Dict.mem kw n)) (arg_names self))
  /\ (forall args kwargs,
         MixedFunction_parse self (front ++ token :: after)
         = Return (args, kwargs) ->
         kwargs = kw
         /\ Forall2 (fun p v => cast_parameter self (fst p) (snd p) = Return v)
                    (combine pos (token :: after)) args).
Proof.
  intros Hscan Hplain.
  assert (Happ : mixed_scan self (front ++ token :: after)
                 = Return (kw, pos, token :: after)).
  { apply (mixed_scan_app self front (token :: after)) in Hscan;
      [assumption | right; exact Hplain]. }
  assert (Hparse : MixedFunction_parse self (front ++ token :: after)
                   = mixed_positional self kw pos (token :: after)).
  { unfold MixedFunction_parse. now rewrite Happ. }
  repeat split; try assumption.
  - intros Hdistinct. apply mixed_scan_inv in Hscan.
    destruct Hscan as (s2n & shorts & optlist & _ & _ & _ & Hsw).
    eapply mixed_switches_pos; [| | exact Hsw].
    + now apply distinct_NoDup.
    + symmetry. apply filter_all. reflexivity.
  - rewrite Hparse in H. now apply mixed_positional_Return in H.
  - rewrite Hparse in H. now apply mixed_positional_Return in H.
Qed.

Lemma mixed_switches_end_at_first_plain_token_witness :
  MixedFunction_parse (FunctionWrapper_init listed MixedFunction copy Cstr)
    (["-v"] ++ "a" :: ["-s"; "b"])
  = mixed_positional (FunctionWrapper_init listed MixedFunction copy Cstr)
      [("verbose", VBool true)] ["src"; "dst"] ("a" :: ["-s"; "b"]).
Proof.
  apply (mixed_switches_end_at_first_plain_token
           (FunctionWrapper_init listed MixedFunction copy Cstr)
           ["-v"] ["-s"; "b"] "a" [("verbose", VBool true)] ["src"; "dst"]).
  - reflexivity.
  - reflexivity.
Defined.

(** C7, as stated, fails: [-v] is a switch of [copy], read as one at the
    front; after the plain token [a] it is not read as a switch but bound,
    as a text, to the parameter [dst]. *)
Lemma mixed_switch_after_plain_token :
  let self := FunctionWrapper_init listed MixedFunction copy Cstr in
  parse self ["-v"; "a"; "b"]
  = Return ([VStr "a"; VStr "b"], [("verbose", VBool true)])
  /\ parse self ["a"; "-v"; "b"]
     = Return ([VStr "a"; VStr "-v"; VBool true], [])
  /\ parse self ["a"; "-v"; "b"]
     <> Return ([VStr "a"; VStr "b"], [("verbose", VBool true)]).
Proof.
  repeat split. vm_compute. discriminate.
Qed.

Lemma slice_to_incl {A} (l : list A) n x :
  In x (PyList.slice_to l n) -> In x l.
Proof.
  unfold PyList.slice_to.
  destruct (n <? 0)%Z; intros H;
    match type of H with
    | In _ (firstn ?k _) => rewrite <- (firstn_skipn k l)
    end; apply in_or_app; now left.
Qed.

(** A required parameter is a declared parameter, and not a boolean. *)
Lemma init_required_declared set_iter kind function default_cast r :
  let self := FunctionWrapper_init set_iter kind function default_cast in
  In r (required self) ->
  In r (arg_names self) /\ PyList.mem r (booleans self) = false.
Proof.
  intros self Hr. unfold self in Hr. rewrite init_required in Hr.
  apply filter_In in Hr. destruct Hr as [Hin Hnb].
  split.
  - now apply slice_to_incl in Hin.
  - now apply negb_true_iff in Hnb.
Qed.

Lemma combine_firstn_r {A B} (l : list A) (r : list B) :
  combine l r = combine l (firstn (length l) r).
Proof.
  revert r. induction l as [|a l IH]; intros [|b r]; simpl; try reflexivity.
  f_equal. apply IH.
Qed.

Lemma map_fst_combine {A B} (l : list A) (r : list B) :
  length l <= length r -> map fst (combine l r) = l.
Proof.
  revert r. induction l as [|a l IH]; intros [|b r]; simpl; intros H;
    try reflexivity; try lia.
  f_equal. apply IH. lia.
Qed.

Lemma filter_none {A} (f : A -> bool) l :
  (forall x, In x l -> f x = false) -> filter f l = [].
Proof.
  induction l as [|x l IH]; simpl; intros H; [reflexivity|].
  rewrite (H x) by now left. apply IH. intros y Hy. apply H. now right.
Qed.

(** When every required parameter is a key of the keyword mapping or is
    left for a positional token, and there are at least as many positional
    tokens as parameters left, the end of the mixed parse only casts the
    tokens that have a parameter. *)
Lemma mixed_positional_filled self kw pos rest :
  (forall r, In r (required self) -> In r pos \/ Dict.mem kw r = true) ->
  length pos <= length rest ->
  mixed_positional self kw pos rest
  = (args_list <- mapM (fun '(name, val) => cast_parameter self name val)
                       (combine pos (firstn (length pos) rest)) ;;
     Return (args_list, kw)).
Proof.
  intros Hcov Hlen. unfold mixed_positional.
  rewrite (map_fst_combine pos rest Hlen), filter_filter.
  rewrite filter_none.
  - rewrite <- combine_firstn_r. reflexivity.
  - intros r Hr. destruct (Hcov r Hr) as [Hpos|Hkw].
    + apply PyList_mem_In in Hpos. rewrite Hpos. apply andb_false_r.
    + now rewrite Hkw.
Qed.

(** C10, as the code has it. The mixed strategy drops the positional tokens
    in excess: when the scan leaves more positional tokens than there are
    parameters not taken by a switch, the parse casts the first tokens, one
    for each such parameter, and returns their values with the keyword
    mapping of the switches; the failure of one of these casts is the only
    error it can raise, the tokens in excess are in neither result, and
    further tokens change nothing. *)
Theorem mixed_excess_tokens_dropped (set_iter : list string -> list string)
    (function : pyfunction) (default_cast : cast) (raw_args : list string)
    (kw : Dict.t pyvalue) (pos rest : list string) :
  let self := FunctionWrapper_init set_iter MixedFunction function default_cast in
  mixed_scan self raw_args = Return (kw, pos, rest) ->
  length pos < length rest ->
  parse self raw_args
  = (args_list <- mapM (fun '(name, val) => cast_parameter self name val)
                       (combine pos (firstn (length pos) rest)) ;;
     Return (args_list, kw))
  /\ (forall more, parse self (raw_args ++ more) = parse self raw_args).
Proof.
  intros self Hscan Hlen.
  assert (Hcov : forall r, In r (required self) ->
                           In r pos \/ Dict.mem kw r = true).
  { intros r Hr. apply init_required_declared in Hr. destruct Hr as [Hr _].
    pose proof Hscan as Hinv. apply mixed_scan_inv in Hinv.
    destruct Hinv as (s2n & shorts & optlist & _ & _ & _ & Hsw).
    eapply mixed_switches_covers; [exact Hsw | now left]. }
  assert (Hparse : parse self raw_args
                   = (args_list <-
                        mapM (fun '(name, val) => cast_parameter self name val)
                             (combine pos (firstn (length pos) rest)) ;;
                      Return (args_list, kw))).
  { change (parse self raw_args) with (MixedFunction_parse self raw_args).
    unfold MixedFunction_parse. rewrite Hscan. cbn [bind].
    apply mixed_positional_filled; [assumption | lia]. }
  split; [assumption|].
  intros more. rewrite Hparse.
  change (parse self (raw_args ++ more))
    with (MixedFunction_parse self (raw_args ++ more)).
  unfold MixedFunction_parse.
  rewrite (mixed_scan_app self raw_args more kw pos rest Hscan).
  - cbn [bind]. rewrite mixed_positional_filled.
    + rewrite firstn_app.
      replace (length pos - length rest) with 0 by lia.
      cbn [firstn]. now rewrite app_nil_r.
    + assumption.
    + rewrite length_app. lia.
  - left. intros ->. simpl in Hlen. lia.
Qed.

Lemma mixed_excess_tokens_dropped_witness :
  parse (FunctionWrapper_init listed MixedFunction copy Cstr)
        ["-v"; "a"; "b"; "c"; "-s"]
  = Return ([VStr "a"; VStr "b"], [("verbose", VBool true)])
  /\ (forall more,
         parse (FunctionWrapper_init listed MixedFunction copy Cstr)
               (["-v"; "a"; "b"; "c"; "-s"] ++ more)
         = parse (FunctionWrapper_init listed MixedFunction copy Cstr)
                 ["-v"; "a"; "b"; "c"; "-s"]).
Proof.
  apply (mixed_excess_tokens_dropped listed copy Cstr
           ["-v"; "a"; "b"; "c"; "-s"]
           [("verbose", VBool true)] ["src"; "dst"] ["a"; "b"; "c"; "-s"]).
  - reflexivity.
  - simpl. lia.
Defined.

(** C10, as stated, fails: with two plain tokens for the one parameter of
    [take], the parse raises an error all the same, because the cast of the
    first token fails. *)
Lemma mixed_excess_tokens_cast_failure :
  let self := FunctionWrapper_init listed MixedFunction take_count Cstr in
  mixed_scan self ["abc"; "x"] = Return ([], ["count"], ["abc"; "x"])
  /\ parse self ["abc"; "x"]
     = Raise (PyoptError "Failed parsing 'count', not a number.").
Proof.
  split; reflexivity.
Qed.

(** ** Usage texts *)

Lemma identifier_first_letter n :
  is_identifier n = true -> exists c r, n = String c r.
Proof. destruct n as [|c r]; [discriminate | eauto]. Qed.

Lemma valid_signature_names function n :
  valid_signature function = true ->
  In n (fn_args function) -> exists c r, n = String c r.
Proof.
  unfold valid_signature. intros H Hn.
  apply andb_prop in H. destruct H as [H _].
  apply andb_prop in H. destruct H as [H _].
  rewrite forallb_forall in H. apply identifier_first_letter. now apply H.
Qed.

Lemma valid_signature_defaults function :
  valid_signature function = true ->
  length (fn_defaults function) <= length (fn_args function).
Proof.
  unfold valid_signature. intros H.
  apply andb_prop in H. destruct H as [_ H]. now apply Nat.leb_le in H.
Qed.

Lemma mapM_Return_all {A B} (f : A -> result B) (l : list A) :
  (forall a, In a l -> exists b, f a = Return b) ->
  exists bs, mapM f l = Return bs.
Proof.
  induction l as [|a l IH]; intros H; [now exists []|].
  destruct (H a (or_introl eq_refl)) as [b Hb].
  destruct IH as [bs Hbs]; [intros a' Ha'; apply H; now right|].
  exists (b :: bs). cbn [mapM]. now rewrite Hb, Hbs.
Qed.

(** The shortcut table of parameters with non-empty names: it is built, and
    the first letter of every name is a key of it. *)
Lemma shortcuts_from_Return names d :
  (forall n, In n names -> exists c r, n = String c r) ->
  exists d',
    shortcuts_from names d = Return d'
    /\ (forall k, Dict.mem d k = true -> Dict.mem d' k = true)
    /\ (forall c r, In (String c r) names -> Dict.mem d' (Str.chr1 c) = true).
Proof.
  revert d. induction names as [|n names IH]; intros d Hne.
  - exists d. split; [reflexivity|]. split; [auto|]. intros c r [].
  - destruct (Hne n (or_introl eq_refl)) as (c & r & ->).
    destruct (IH (Dict.set d (Str.chr1 c) (String c r))) as (d' & Hd' & Hmono & Hkeys).
    { intros n' Hn'. apply Hne. now right. }
    exists d'. split; [exact Hd'|]. split.
    + intros k Hk. apply Hmono. rewrite Dict_mem_set, Hk. apply orb_true_r.
    + intros c' r' [Heq|Hin].
      * injection Heq as <- <-. apply Hmono.
        rewrite Dict_mem_set, String.eqb_refl. reflexivity.
      * eapply Hkeys; eassumption.
Qed.

Lemma Dict_set_In {V} (d : Dict.t V) k v k' v' :
  In (k', v') (Dict.set d k v) -> (k' = k /\ v' = v) \/ In (k', v') d.
Proof.
  induction d as [|[k0 v0] d IH]; simpl.
  - intros [H|[]]. injection H as <- <-. now left.
  - destruct (String.eqb k0 k); simpl.
    + intros [H|H]; [injection H as <- <-; now left | right; now right].
    + intros [H|H]; [right; now left|].
      destruct (IH H) as [Heq|Hin]; [now left | right; now right].
Qed.

Lemma match_alt_In alts s a rest :
  match_alt alts s = Some (a, rest) -> In a alts.
Proof.
  induction alts as [|a0 alts IH]; simpl; [discriminate|].
  destruct (Str.startswith s a0).
  - intros H. injection H as <- _. now left.
  - intros H. right. now apply IH.
Qed.

(** The keys of the help mapping are alternatives of the pattern. *)
Lemma parse_doc_lines_keys names lines i first_line d k v :
  In (k, v) (snd (parse_doc_lines names lines i first_line d)) ->
  In (k, v) d \/ In k (alternatives names).
Proof.
  revert i first_line d. induction lines as [|ln lines IH];
    intros i first_line d H; [now left|].
  cbn [parse_doc_lines] in H.
  destruct (var_doc_match names (Str.strip ln)) as [[name doc]|] eqn:Hm.
  - apply IH in H. destruct H as [H|H]; [|now right].
    apply Dict_set_In in H. destruct H as [[-> _]|H]; [|now left].
    right. unfold var_doc_match in Hm.
    destruct (match_alt (alternatives names) (Str.strip ln)) as [[a rest]|] eqn:Ha;
      [|discriminate].
    injection Hm as <- _. eapply match_alt_In; eassumption.
  - now apply IH in H.
Qed.

Lemma parse_docstring_keys function k v :
  In (k, v) (snd (_parse_docstring function)) ->
  In k (alternatives (fn_args function)).
Proof.
  unfold _parse_docstring, _getfunctionspec.
  match goal with
  | |- context [parse_doc_lines ?n ?l ?i ?f ?d0] =>
      pose proof (parse_doc_lines_keys n l i f d0 k v) as Hkeys;
      destruct (parse_doc_lines n l i f d0) as [first_line d']
  end.
  cbn [snd] in *. intros H. destruct (Hkeys H) as [[]|Hk]. exact Hk.
Qed.

Section Usage.

Variable set_iter : list string -> list string.
Hypothesis set_iter_incl : forall l x, In x (set_iter l) -> In x l.

Variable kind : strategy.
Variable fn : pyfunction.
Variable default_cast : cast.
Hypothesis valid : valid_signature fn = true.

Let self := FunctionWrapper_init set_iter kind fn default_cast.

Lemma init_booleans_declared b : In b (booleans self) -> In b (arg_names self).
Proof.
  unfold self. rewrite init_booleans, init_arg_names. intros H.
  now apply filter_In in H.
Qed.

Lemma init_optional_declared a : In a (optional self) -> In a (arg_names self).
Proof.
  intros H. apply set_iter_incl in H. apply nodup_In in H.
  now apply filter_In in H.
Qed.

Lemma first_letter_Return n :
  In n (arg_names self) -> exists c r, n = String c r.
Proof. intros H. eapply valid_signature_names; eassumption. Qed.

Lemma shortcuts_Return :
  exists short_to_name,
    _shortcuts self = Return short_to_name
    /\ (forall c r, In (String c r) (arg_names self) ->
                    Dict.mem short_to_name (Str.chr1 c) = true).
Proof.
  destruct (shortcuts_from_Return (arg_names self) Dict.empty)
    as (d' & Hd' & _ & Hkeys); [exact first_letter_Return|].
  exists d'. split; assumption.
Qed.

Lemma first_letters_Return (l : list string) (fmt : string -> string -> string) :
  (forall a, In a l -> In a (arg_names self)) ->
  exists strs,
    mapM (fun arg => a0 <- str_item arg 0 ;; Return (fmt a0 arg)) l
    = Return strs.
Proof.
  intros Hl. apply mapM_Return_all. intros a Ha.
  destruct (first_letter_Return a (Hl a Ha)) as (c & r & ->).
  eexists. reflexivity.
Qed.

Lemma parameters_repr_Return : exists params, parameters_repr self = Return params.
Proof.
  unfold parameters_repr.
  assert (Hcls : cls self = kind) by reflexivity. rewrite Hcls.
  destruct (first_letters_Return (required self)
              (fun a0 arg => "-" ++ a0 ++ " " ++ arg)) as [req Hreq].
  { intros a Ha. now apply init_required_declared in Ha. }
  destruct (first_letters_Return
              (filter (fun arg => negb (PyList.mem arg (booleans self)))
                      (optional self))
              (fun a0 arg => "[-" ++ a0 ++ " " ++ arg ++ "]")) as [opt Hopt].
  { intros a Ha. apply filter_In in Ha. destruct Ha as [Ha _].
    now apply init_optional_declared. }
  destruct (first_letters_Return (booleans self)
              (fun a0 arg => "[-" ++ a0 ++ "]")) as [bools Hbools].
  { exact init_booleans_declared. }
  destruct kind; [eauto | |]; rewrite Hreq, Hopt, Hbools; cbn [bind]; eauto.
Qed.

Lemma docstring_usage_Return :
  fn_args fn <> [] -> exists usage, docstring_usage self = Return usage.
Proof.
  intros Hargs. unfold docstring_usage.
  assert (Hcls : cls self = kind) by reflexivity. rewrite Hcls.
  change (function self) with fn.
  pose proof (parse_docstring_keys fn) as Hkeys.
  destruct (_parse_docstring fn) as [summary docs_dict]. cbn [snd] in Hkeys.
  destruct shortcuts_Return as (s2n & Hs2n & Hletters).
  assert (Hlines :
    exists usage_lines,
      mapM (fun '(name, explanation) =>
              short <- str_item name 0 ;;
              full <- Dict.item s2n short ;;
              if String.eqb full name
              then Return (Str.TAB ++ "-" ++ short ++ " --" ++ name ++ " - "
                             ++ explanation)
              else Return (Str.TAB ++ "--" ++ name ++ " - " ++ explanation))
           docs_dict = Return usage_lines).
  { apply mapM_Return_all. intros [name explanation] Hin.
    apply Hkeys in Hin.
    assert (Hname : In name (arg_names self)).
    { change (arg_names self) with (fn_args fn).
      destruct (fn_args fn); [congruence | exact Hin]. }
    destruct (first_letter_Return name Hname) as (c & r & ->).
    specialize (Hletters c r Hname). unfold Dict.mem in Hletters.
    change (str_item (String c r) 0) with (Return (Str.chr1 c)).
    cbn [bind]. unfold Dict.item.
    destruct (Dict.get s2n (Str.chr1 c)) as [full|]; [|discriminate].
    cbn [bind]. destruct (String.eqb full (String c r)); eauto. }
  destruct Hlines as [usage_lines Hlines].
  destruct kind; [eauto | |]; rewrite Hs2n; cbn [bind]; rewrite Hlines;
    cbn [bind]; eauto.
Qed.

(** With a required parameter and no token, each of the three strategies
    raises [NotEnoughArgs]. *)
Lemma parse_nothing_NotEnoughArgs :
  required self <> [] -> exists msg, parse self [] = Raise (NotEnoughArgs msg).
Proof.
  intros Hreq. unfold parse.
  assert (Hcls : cls self = kind) by reflexivity. rewrite Hcls.
  destruct shortcuts_Return as (s2n & Hs2n & _).
  destruct (first_letters_Return (required self) (fun n0 _ => n0 ++ ":"))
    as [req_part Hreq_part].
  { intros a Ha. now apply init_required_declared in Ha. }
  assert (Hnb : forall r, In r (required self) ->
                          PyList.mem r (booleans self) = false).
  { intros r Hr. now apply init_required_declared in Hr. }
  assert (Hneeded : needed_args self
                    = (PyList.len (fn_args fn) - PyList.len (fn_defaults fn))%Z)
    by reflexivity.
  assert (Hrequired :
            required self
            = filter (fun arg => negb (PyList.mem arg (booleans self)))
                (PyList.slice_to (fn_args fn)
                   (PyList.len (fn_args fn) - PyList.len (fn_defaults fn))))
    by reflexivity.
  clearbody self. clear set_iter_incl.
  destruct kind.
  - unfold ArgsFunction_parse.
    assert (Hlt : (PyList.len (@nil string) <? needed_args self)%Z = true).
    { apply Z.ltb_lt. rewrite Hneeded.
      pose proof (valid_signature_defaults fn valid) as Hdef.
      rewrite Hrequired in Hreq.
      unfold PyList.slice_to, PyList.len in *. cbn [length].
      destruct (Z.of_nat (length (fn_args fn))
                - Z.of_nat (length (fn_defaults fn)) <? 0)%Z eqn:Hneg.
      { apply Z.ltb_lt in Hneg. lia. }
      destruct (Z.to_nat (Z.of_nat (length (fn_args fn))
                          - Z.of_nat (length (fn_defaults fn)))) eqn:Hn.
      { exfalso. apply Hreq. reflexivity. }
      lia. }
    rewrite Hlt. eauto.
  - unfold MixedFunction_parse, mixed_scan. rewrite Hs2n. cbn [bind].
    unfold mixed_shorts_str.
    rewrite Hreq_part. cbn [bind].
    change (getopt.getopt [] _ _) with (@Return (getopt.opts_t * list string) ([], [])).
    cbn [bind mixed_switches]. unfold mixed_positional.
    rewrite combine_nil. cbn [mapM bind map].
    rewrite !filter_all by reflexivity.
    destruct (required self) as [|r rs]; [congruence|].
    unfold PyList.len. cbn [length].
    destruct (0 <? Z.of_nat (S (length rs)))%Z eqn:Hpos; [eauto|].
    apply Z.ltb_ge in Hpos. lia.
  - unfold KwargsFunction_parse. rewrite Hs2n. cbn [bind kwargs_loop].
    rewrite filter_all.
    + destruct (required self) as [|r rs]; [congruence|].
      unfold PyList.len. cbn [length].
      destruct (0 <? Z.of_nat (S (length rs)))%Z eqn:Hpos; [eauto|].
      apply Z.ltb_ge in Hpos. lia.
    + intros r Hr. rewrite kwargs_seed_mem. now rewrite (Hnb r Hr).
Qed.

End Usage.

(** ** The coordinator *)

Lemma docstring_usage_Args w :
  cls w = ArgsFunction -> exists usage, docstring_usage w = Return usage.
Proof.
  intros Hcls. unfold docstring_usage.
  destruct (_parse_docstring (function w)) as [summary docs_dict].
  rewrite Hcls. eauto.
Qed.

Lemma required_declared_nonempty set_iter kind fn default_cast :
  required (FunctionWrapper_init set_iter kind fn default_cast) <> [] ->
  fn_args fn <> [].
Proof.
  intros Hreq Hnil. apply Hreq. rewrite init_required, Hnil.
  unfold PyList.slice_to. now destruct (_ <? 0)%Z; rewrite firstn_nil.
Qed.

(** The usage text of a registered function is always computed, in the
    single-function form as long as the function is positional or has a
    required parameter. *)
Lemma func_usage_Return set_iter kind fn default_cast self :
  (forall l x, In x (set_iter l) -> In x l) ->
  valid_signature fn = true ->
  let w := FunctionWrapper_init set_iter kind fn default_cast in
  func self = Some w ->
  kind = ArgsFunction \/ required w <> [] ->
  exists usage, _func_usage self = Return usage.
Proof.
  intros Hset Hvalid w Hfunc Hkind.
  destruct (parameters_repr_Return set_iter Hset kind fn default_cast Hvalid)
    as [params Hparams].
  fold w in Hparams.
  assert (Hdoc : exists doc_usage, docstring_usage w = Return doc_usage).
  { destruct Hkind as [Hargs|Hreq].
    - apply docstring_usage_Args. now rewrite <- Hargs.
    - apply docstring_usage_Return; [assumption|].
      now apply required_declared_nonempty in Hreq. }
  destruct Hdoc as [doc_usage Hdoc].
  unfold _func_usage, _single_usage, get_usage, the_func. rewrite Hfunc.
  cbn [bind]. rewrite Hparams. cbn [bind]. rewrite Hdoc. cbn [bind].
  destruct (is_single self); eauto.
Qed.

(** C1. The one reinterpretation of the coordinator.  When the parse of the
    selected function raises [NotEnoughArgs]: with no raw argument,
    [parse_args] raises [PrintHelp] instead, with the usage text of that
    function, and with raw arguments it lets the [NotEnoughArgs] through as it
    is.  For a registered function that is positional or has a required
    parameter, the usage text is always computed.  Hence, with a single
    registered function that has a required parameter, and the program path
    as only token, [parse_args] raises [PrintHelp] with the usage text of the
    function, and not [NotEnoughArgs]. *)
Theorem parse_args_without_arguments :
  (forall self cmd_args self' f e,
      _setup self cmd_args = Return self' ->
      func self' = Some f ->
      parse f (raw_args self') = Raise (NotEnoughArgs e) ->
      (raw_args self' = [] ->
       parse_args self cmd_args
       = (usage <- _func_usage self' ;; Raise (PrintHelp usage)))
      /\ (raw_args self' <> [] ->
          parse_args self cmd_args = Raise (NotEnoughArgs e)))
  /\ (forall set_iter kind fn default_cast self cmd_args self' e,
         (forall l x, In x (set_iter l) -> In x l) ->
         valid_signature fn = true ->
         let w := FunctionWrapper_init set_iter kind fn default_cast in
         _setup self cmd_args = Return self' ->
         func self' = Some w ->
         parse w (raw_args self') = Raise (NotEnoughArgs e) ->
         raw_args self' = [] ->
         kind = ArgsFunction \/ required w <> [] ->
         exists usage,
           _func_usage self' = Return usage
           /\ parse_args self cmd_args = Raise (PrintHelp usage))
  /\ (forall set_iter kind fn default_cast self key cmd_args prog,
         (forall l x, In x (set_iter l) -> In x l) ->
         valid_signature fn = true ->
         let w := FunctionWrapper_init set_iter kind fn default_cast in
         functions_dict self = [(key, w)] ->
         required w <> [] ->
         tokens_of cmd_args = [prog] ->
         exists params doc_usage,
           parameters_repr w = Return params
           /\ docstring_usage w = Return doc_usage
           /\ parse_args self cmd_args
              = Raise (PrintHelp (("Usage: " ++ Str.basename prog ++ " "
                                   ++ params) ++ Str.NL ++ doc_usage))).
Proof.
  assert (Hgeneral :
    forall self cmd_args self' f e,
      _setup self cmd_args = Return self' ->
      func self' = Some f ->
      parse f (raw_args self') = Raise (NotEnoughArgs e) ->
      (raw_args self' = [] ->
       parse_args self cmd_args
       = (usage <- _func_usage self' ;; Raise (PrintHelp usage)))
      /\ (raw_args self' <> [] ->
          parse_args self cmd_args = Raise (NotEnoughArgs e))).
  { intros self cmd_args self' f e Hsetup Hfunc Hparse.
    unfold parse_args. rewrite Hsetup. cbn [bind].
    unfold the_func. rewrite Hfunc. cbn [bind]. rewrite Hparse.
    split.
    + intros ->. reflexivity.
    + intros Hraw. destruct (raw_args self') as [|a r]; [congruence|].
      reflexivity. }
  split; [exact Hgeneral|]. split.
  - intros set_iter kind fn default_cast self cmd_args self' e
           Hset Hvalid w Hsetup Hfunc Hparse Hraw Hkind.
    destruct (func_usage_Return set_iter kind fn default_cast self'
                Hset Hvalid Hfunc Hkind) as [usage Husage].
    exists usage. split; [assumption|].
    destruct (Hgeneral self cmd_args self' w e Hsetup Hfunc Hparse) as [Hhelp _].
    rewrite (Hhelp Hraw), Husage. reflexivity.
  - intros set_iter kind fn default_cast self key cmd_args prog
           Hset Hvalid w Hdict Hreq Htokens.
    destruct (parameters_repr_Return set_iter Hset kind fn default_cast Hvalid)
      as [params Hparams].
    assert (Hargs : fn_args fn <> [])
      by now apply required_declared_nonempty in Hreq.
    destruct (docstring_usage_Return set_iter kind fn default_cast Hvalid Hargs)
      as [doc_usage Hdoc].
    destruct (parse_nothing_NotEnoughArgs set_iter kind fn default_cast
                Hvalid Hreq) as [msg Hmsg].
    fold w in Hparams, Hdoc, Hmsg.
    exists params, doc_usage. split; [assumption|]. split; [assumption|].
    unfold parse_args, _setup. rewrite Htokens, Hdict.
    cbn [list_item nth_error bind length Dict.values map hd_error snd
         PyList.slice_from Z.ltb Z.compare Z.to_nat Pos.to_nat Pos.iter_op
         Nat.add skipn the_func func raw_args].
    change (skipn (Pos.to_nat 1) [prog]) with (@nil string).
    rewrite Hmsg. cbn [PyList.len length Z.of_nat Z.eqb].
    unfold _func_usage, _single_usage, the_func.
    cbn [is_single func script_name bind]. rewrite Hparams. cbn [bind].
    rewrite Hdoc. reflexivity.
Qed.

Lemma parse_args_without_arguments_witness :
  (exists params doc_usage,
      parameters_repr (FunctionWrapper_init listed KwargsFunction greet Cstr)
      = Return params
      /\ docstring_usage (FunctionWrapper_init listed KwargsFunction greet Cstr)
         = Return doc_usage
      /\ parse_args (Exposer_kwargs listed bare greet)
                    (CmdStr "/usr/bin/prog.py")
         = Raise (PrintHelp (("Usage: " ++ Str.basename "/usr/bin/prog.py" ++ " "
                              ++ params) ++ Str.NL ++ doc_usage)))
  /\ parse_args (Exposer_mixed listed (Exposer_kwargs listed bare greet) copy)
                (CmdList ["prog.py"; "greet"; "-d"])
     = Raise (NotEnoughArgs "The following options are required: name.")
  /\ (exists usage,
         parse_args (Exposer_mixed listed (Exposer_kwargs listed bare greet) copy)
                    (CmdList ["prog.py"; "copy"])
         = Raise (PrintHelp usage)).
Proof.
  destruct parse_args_without_arguments as (Hgeneral & Husage & Hsingle).
  split; [|split].
  - apply (Hsingle listed KwargsFunction greet Cstr
                   (Exposer_kwargs listed bare greet) "greet"
                   (CmdStr "/usr/bin/prog.py") "/usr/bin/prog.py").
    + intros l x Hx. exact Hx.
    + reflexivity.
    + reflexivity.
    + discriminate.
    + reflexivity.
  - eapply (Hgeneral
              (Exposer_mixed listed (Exposer_kwargs listed bare greet) copy)
              (CmdList ["prog.py"; "greet"; "-d"])).
    + reflexivity.
    + reflexivity.
    + reflexivity.
    + discriminate.
  - destruct (Husage listed MixedFunction copy Cstr
                (Exposer_mixed listed (Exposer_kwargs listed bare greet) copy)
                (CmdList ["prog.py"; "copy"])
                {| functions_dict :=
                     functions_dict
                       (Exposer_mixed listed (Exposer_kwargs listed bare greet)
                                      copy);
                   default_cast := Cstr;
                   cmd_args := ["prog.py"; "copy"];
                   script_name := "prog.py";
                   is_single := false;
                   raw_args := [];
                   func := Some (FunctionWrapper_init listed MixedFunction copy
                                                      Cstr) |}
                "The following options are required: src, dst.")
      as [usage [_ Hraise]].
    + intros l x Hx. exact Hx.
    + reflexivity.
    + reflexivity.
    + reflexivity.
    + reflexivity.
    + reflexivity.
    + right. discriminate.
    + exists usage. exact Hraise.
Defined.

(** * Further properties *)

(** ** The signature that the wrapper extracts *)

Lemma fold_set_get {V} (g : string -> V) (l : list string) (d : Dict.t V) n :
  Dict.get (fold_left (fun d name => Dict.set d name (g name)) l d) n
  = if PyList.mem n l then Some (g n) else Dict.get d n.
Proof.
  revert d. induction l as [|a l IH]; intros d; [reflexivity|].
  cbn [fold_left]. rewrite IH. unfold PyList.mem. cbn [existsb].
  fold (PyList.mem n l). destruct (PyList.mem n l).
  - now rewrite orb_true_r.
  - rewrite orb_false_r. destruct (String.eqb_spec n a) as [->|Hne].
    + apply Dict_get_set_eq.
    + apply Dict_get_set_ne. congruence.
Qed.

Lemma fold_pairs_get {V} (l : list (string * V)) (d : Dict.t V) n :
  NoDup (map fst l) ->
  Dict.get (fold_left (fun d kv => Dict.set d (fst kv) (snd kv)) l d) n
  = match Dict.get l n with
    | Some v => Some v
    | None => Dict.get d n
    end.
Proof.
  revert d. induction l as [|[k v] l IH]; intros d Hnd; [reflexivity|].
  cbn [fold_left fst snd map] in *. inversion Hnd as [|? ? Hk Hl]; subst.
  rewrite IH by assumption. cbn [Dict.get].
  destruct (String.eqb_spec k n) as [->|Hne].
  - assert (Hnone : Dict.get l n = None).
    { destruct (Dict.get l n) as [v'|] eqn:E; [|reflexivity].
      exfalso. apply Hk. clear -E.
      induction l as [|[k' v0] l IH]; [discriminate|].
      cbn [Dict.get map fst] in *.
      destruct (String.eqb_spec k' n) as [->|]; [now left | right; auto]. }
    rewrite Hnone. apply Dict_get_set_eq.
  - destruct (Dict.get l n); [reflexivity|]. now apply Dict_get_set_ne.
Qed.

Lemma of_list_get {V} (l : list (string * V)) n :
  NoDup (map fst l) -> Dict.get (Dict.of_list l) n = Dict.get l n.
Proof.
  intros Hnd. unfold Dict.of_list. rewrite fold_pairs_get by assumption.
  now destruct (Dict.get l n).
Qed.

Lemma combine_keys_NoDup {V} (keys : list string) (vals : list V) :
  NoDup keys -> NoDup (map fst (combine keys vals)).
Proof.
  revert vals. induction keys as [|k keys IH]; intros [|v vals] Hnd;
    cbn [combine map fst]; try constructor.
  - inversion Hnd as [|? ? Hk _]; subst. intros Hin. apply Hk.
    apply in_map_iff in Hin. destruct Hin as [[k' v'] [Heq Hin]].
    cbn [fst] in Heq. subst k'. eapply in_combine_l; eassumption.
  - inversion Hnd; subst. now apply IH.
Qed.

Lemma combine_get {V} (keys : list string) (vals : list V) j n v :
  NoDup keys ->
  nth_error keys j = Some n -> nth_error vals j = Some v ->
  Dict.get (combine keys vals) n = Some v.
Proof.
  revert vals j. induction keys as [|k keys IH]; intros vals j Hnd Hk Hv.
  - now destruct j.
  - destruct vals as [|v0 vals]; [now destruct j|].
    inversion Hnd as [|? ? Hnotin Hnd']; subst.
    destruct j as [|j]; cbn [nth_error combine Dict.get] in *.
    + injection Hk as ->. injection Hv as ->. now rewrite String.eqb_refl.
    + destruct (String.eqb_spec k n) as [->|_].
      * exfalso. apply Hnotin. eapply nth_error_In; eassumption.
      * eapply IH; eassumption.
Qed.

Lemma combine_get_None {V} (keys : list string) (vals : list V) n :
  ~ In n keys -> Dict.get (combine keys vals) n = None.
Proof.
  revert vals. induction keys as [|k keys IH]; intros [|v vals] Hn;
    cbn [combine Dict.get]; try reflexivity.
  destruct (String.eqb_spec k n) as [->|_].
  - exfalso. apply Hn. now left.
  - apply IH. intros Hin. apply Hn. now right.
Qed.

Lemma valid_signature_NoDup fn :
  valid_signature fn = true -> NoDup (fn_args fn).
Proof.
  unfold valid_signature. intros H.
  apply andb_prop in H. destruct H as [H _].
  apply andb_prop in H. destruct H as [_ H]. now apply distinct_NoDup.
Qed.

Lemma slice_to_count {A} (l : list A) (a b : nat) :
  b <= a ->
  PyList.slice_to l (Z.of_nat a - Z.of_nat b) = firstn (a - b) l.
Proof.
  intros Hle. unfold PyList.slice_to.
  destruct (Z.of_nat a - Z.of_nat b <? 0)%Z eqn:E.
  - apply Z.ltb_lt in E. lia.
  - f_equal. lia.
Qed.

Lemma slice_from_count {A} (l : list A) (a b : nat) :
  b <= a ->
  PyList.slice_from l (Z.of_nat a - Z.of_nat b) = skipn (a - b) l.
Proof.
  intros Hle. unfold PyList.slice_from.
  destruct (Z.of_nat a - Z.of_nat b <? 0)%Z eqn:E.
  - apply Z.ltb_lt in E. lia.
  - f_equal. lia.
Qed.

(** X1. The cast of a declared parameter: its annotation when it has one;
    else the type of its default value when it has one, the defaults
    belonging to the last parameters; else the default cast. *)
Theorem init_casts_resolution (set_iter : list string -> list string)
    (kind : strategy) (fn : pyfunction) (default_cast : cast)
    (i : nat) (n : string) :
  valid_signature fn = true ->
  nth_error (fn_args fn) i = Some n ->
  let self := FunctionWrapper_init set_iter kind fn default_cast in
  let k := length (fn_args fn) - length (fn_defaults fn) in
  Dict.get (casts self) n
  = Some (match Dict.get (fn_annotations fn) n with
          | Some c => c
          | None => if (i <? k)%nat then default_cast
                    else nth (i - k) (fn_defaults fn) default_cast
          end).
Proof.
  intros Hvalid Hi self k.
  pose proof (valid_signature_NoDup fn Hvalid) as Hnd.
  pose proof (valid_signature_defaults fn Hvalid) as Hdef.
  change (casts self)
    with (compute_casts (fn_args fn) (fn_annotations fn)
            (Dict.of_list
               (combine (PyList.slice_from (fn_args fn)
                           (PyList.len (fn_args fn) - PyList.len (fn_defaults fn)))
                        (fn_defaults fn)))
            default_cast).
  unfold compute_casts. rewrite fold_set_get.
  assert (Hmem : PyList.mem n (fn_args fn) = true).
  { apply PyList_mem_In. eapply nth_error_In; eassumption. }
  rewrite Hmem. f_equal.
  destruct (Dict.get (fn_annotations fn) n) as [c|]; [reflexivity|].
  unfold PyList.len. rewrite slice_from_count by assumption. fold k.
  rewrite of_list_get.
  2:{ apply combine_keys_NoDup.
      rewrite <- (firstn_skipn k (fn_args fn)) in Hnd.
      now apply NoDup_app_remove_l in Hnd. }
  assert (Hlen : i < length (fn_args fn)).
  { apply nth_error_Some. congruence. }
  destruct (i <? k)%nat eqn:Hik.
  - apply Nat.ltb_lt in Hik. rewrite combine_get_None; [reflexivity|].
    intros Hin. apply In_nth_error in Hin. destruct Hin as [j Hj].
    rewrite nth_error_skipn in Hj.
    apply (proj1 (NoDup_nth_error _) Hnd i (k + j)) in Hlen; [lia | congruence].
  - apply Nat.ltb_ge in Hik.
    rewrite (combine_get _ _ (i - k) n (nth (i - k) (fn_defaults fn) default_cast));
      [reflexivity | | |].
    + rewrite <- (firstn_skipn k (fn_args fn)) in Hnd.
      now apply NoDup_app_remove_l in Hnd.
    + rewrite nth_error_skipn. replace (k + (i - k)) with i by lia. assumption.
    + apply nth_error_nth'. unfold k in *. lia.
Qed.

Lemma init_casts_resolution_witness :
  Dict.get (casts (FunctionWrapper_init listed MixedFunction copy Cstr)) "verbose"
  = Some Cbool
  /\ Dict.get (casts (FunctionWrapper_init listed MixedFunction copy Cstr)) "dst"
     = Some Cstr.
Proof.
  split.
  - apply (init_casts_resolution listed MixedFunction copy Cstr 2 "verbose");
      reflexivity.
  - apply (init_casts_resolution listed MixedFunction copy Cstr 1 "dst");
      reflexivity.
Defined.

Lemma init_booleans_cast_bool set_iter kind fn default_cast b :
  let self := FunctionWrapper_init set_iter kind fn default_cast in
  In b (booleans self)
  <-> In b (fn_args fn) /\ Dict.get (casts self) b = Some Cbool.
Proof.
  intros self. unfold self. rewrite init_booleans, filter_In.
  unfold cast_is_bool.
  split; intros [Hin Hc]; split; try assumption.
  - destruct (Dict.get _ b) as [[|conv]|]; try discriminate. reflexivity.
  - now rewrite Hc.
Qed.

(** X2. The boolean parameters are the declared parameters whose cast is
    [bool], and the cast of a boolean parameter returns true whatever the
    text is that it is given. *)
Theorem init_boolean_cast (set_iter : list string -> list string)
    (kind : strategy) (fn : pyfunction) (default_cast : cast) (b : string) :
  let self := FunctionWrapper_init set_iter kind fn default_cast in
  (In b (booleans self)
   <-> In b (fn_args fn) /\ Dict.get (casts self) b = Some Cbool)
  /\ (In b (booleans self) ->
      forall value, cast_parameter self b value = Return (VBool true)).
Proof.
  intros self.
  assert (Hiff : In b (booleans self)
                 <-> In b (fn_args fn) /\ Dict.get (casts self) b = Some Cbool).
  { unfold self. rewrite init_booleans, filter_In. unfold cast_is_bool.
    split; intros [Hin Hc]; split; try assumption.
    - destruct (Dict.get _ b) as [[|conv]|]; try discriminate. reflexivity.
    - now rewrite Hc. }
  split; [exact Hiff|].
  intros Hb value. apply cast_parameter_bool. now apply Hiff.
Qed.

Lemma init_boolean_cast_witness :
  cast_parameter (FunctionWrapper_init listed KwargsFunction greet Cstr)
                 "debug" "no"
  = Return (VBool true).
Proof.
  apply (init_boolean_cast listed KwargsFunction greet Cstr "debug").
  simpl. left. reflexivity.
Defined.

(** X3. The required parameters are the parameters without a default that
    are not boolean; with the defaults belonging to the last parameters, a
    parameter with a default is never required. *)
Theorem init_required_characterized (set_iter : list string -> list string)
    (kind : strategy) (fn : pyfunction) (default_cast : cast) (r : string) :
  valid_signature fn = true ->
  let self := FunctionWrapper_init set_iter kind fn default_cast in
  let k := length (fn_args fn) - length (fn_defaults fn) in
  (In r (required self)
   <-> (exists i, i < k /\ nth_error (fn_args fn) i = Some r)
       /\ ~ In r (booleans self))
  /\ (forall i, k <= i -> nth_error (fn_args fn) i = Some r ->
                ~ In r (required self)).
Proof.
  intros Hvalid self k.
  pose proof (valid_signature_NoDup fn Hvalid) as Hnd.
  pose proof (valid_signature_defaults fn Hvalid) as Hdef.
  assert (Hfirst : In r (PyList.slice_to (fn_args fn)
                           (PyList.len (fn_args fn) - PyList.len (fn_defaults fn)))
                   <-> exists i, i < k /\ nth_error (fn_args fn) i = Some r).
  { unfold PyList.len. rewrite slice_to_count by assumption. fold k.
    rewrite In_iff_nth_error. split.
    - intros [i Hi]. rewrite nth_error_firstn in Hi.
      destruct (i <? k)%nat eqn:E; [|discriminate].
      apply Nat.ltb_lt in E. eauto.
    - intros [i [Hlt Hi]]. exists i. rewrite nth_error_firstn.
      apply Nat.ltb_lt in Hlt. now rewrite Hlt. }
  assert (Hiff : In r (required self)
                 <-> (exists i, i < k /\ nth_error (fn_args fn) i = Some r)
                     /\ ~ In r (booleans self)).
  { unfold self at 1. rewrite init_required, filter_In, Hfirst.
    fold self. rewrite negb_true_iff, <- not_true_iff_false, PyList_mem_In.
    reflexivity. }
  split; [exact Hiff|].
  intros i Hki Hi Hreq. apply Hiff in Hreq.
  destruct Hreq as [[j [Hjk Hj]] _].
  assert (Hlen : j < length (fn_args fn)) by (apply nth_error_Some; congruence).
  apply (proj1 (NoDup_nth_error _) Hnd j i) in Hlen; [lia | congruence].
Qed.

Lemma init_required_characterized_witness :
  ~ In "verbose" (required (FunctionWrapper_init listed MixedFunction copy Cstr)).
Proof.
  destruct (init_required_characterized listed MixedFunction copy Cstr "verbose"
              eq_refl) as [_ Hdefaulted].
  apply (Hdefaulted 2).
  - simpl. lia.
  - reflexivity.
Defined.

(** ** The positional strategy on plain signatures *)

Lemma init_casts_declared set_iter kind fn default_cast n :
  In n (fn_args fn) ->
  exists c,
    Dict.get (casts (FunctionWrapper_init set_iter kind fn default_cast)) n
    = Some c.
Proof.
  intros Hn.
  change (casts (FunctionWrapper_init set_iter kind fn default_cast))
    with (compute_casts (fn_args fn) (fn_annotations fn)
            (Dict.of_list
               (combine (PyList.slice_from (fn_args fn)
                           (PyList.len (fn_args fn) - PyList.len (fn_defaults fn)))
                        (fn_defaults fn)))
            default_cast).
  unfold compute_casts. rewrite fold_set_get.
  apply PyList_mem_In in Hn. rewrite Hn. eauto.
Qed.

Lemma init_casts_plain set_iter kind fn n :
  fn_annotations fn = [] -> fn_defaults fn = [] -> In n (fn_args fn) ->
  Dict.get (casts (FunctionWrapper_init set_iter kind fn Cstr)) n = Some Cstr.
Proof.
  intros Hann Hdef Hn.
  change (casts (FunctionWrapper_init set_iter kind fn Cstr))
    with (compute_casts (fn_args fn) (fn_annotations fn)
            (Dict.of_list
               (combine (PyList.slice_from (fn_args fn)
                           (PyList.len (fn_args fn) - PyList.len (fn_defaults fn)))
                        (fn_defaults fn)))
            Cstr).
  unfold compute_casts. rewrite fold_set_get.
  apply PyList_mem_In in Hn. rewrite Hn, Hann, Hdef, combine_nil. reflexivity.
Qed.

(** X4. A function without annotations and without defaults, exposed with
    the default cast [str]: the positional strategy, given as many tokens as
    parameters, returns the tokens themselves, in their order. *)
Theorem ArgsFunction_parse_plain (set_iter : list string -> list string)
    (fn : pyfunction) (raw_args : list string) :
  fn_annotations fn = [] ->
  fn_defaults fn = [] ->
  length raw_args = length (fn_args fn) ->
  parse (FunctionWrapper_init set_iter ArgsFunction fn Cstr) raw_args
  = Return (map VStr raw_args, Dict.empty).
Proof.
  intros Hann Hdef Hlen.
  set (self := FunctionWrapper_init set_iter ArgsFunction fn Cstr).
  change (parse self raw_args) with (ArgsFunction_parse self raw_args).
  unfold ArgsFunction_parse.
  change (needed_args self)
    with (PyList.len (fn_args fn) - PyList.len (fn_defaults fn))%Z.
  change (arg_names self) with (fn_args fn).
  rewrite Hdef. unfold PyList.len. cbn [length]. rewrite Hlen.
  rewrite Z.sub_0_r, Z.ltb_irrefl.
  assert (Hstr : forall n, In n (fn_args fn) ->
                           Dict.get (casts self) n = Some Cstr).
  { intros n Hn. now apply init_casts_plain. }
  assert (Hcast : forall names raw,
             (forall n, In n names -> In n (fn_args fn)) ->
             length raw = length names ->
             mapM (fun '(arg, arg_name) => cast_parameter self arg_name arg)
                  (combine raw names)
             = Return (map VStr raw)).
  { induction names as [|n names IH]; intros [|a raw] Hsub Hl;
      try discriminate; [reflexivity|].
    cbn [combine mapM map]. unfold cast_parameter at 1.
    rewrite (Hstr n) by (apply Hsub; now left).
    cbn [bind]. rewrite IH; [reflexivity | | now injection Hl].
    intros n' Hn'. apply Hsub. now right. }
  rewrite Hcast by auto. reflexivity.
Qed.

Lemma ArgsFunction_parse_plain_witness :
  parse (FunctionWrapper_init listed ArgsFunction pick Cstr) ["7"]
  = Return (map VStr ["7"], Dict.empty).
Proof.
  apply (ArgsFunction_parse_plain listed pick ["7"]); reflexivity.
Defined.

(** ** The mixed strategy on plain tokens *)

Lemma getopt_plain shortopts longopts args :
  plain_head args ->
  getopt.getopt args shortopts longopts = Return ([], args).
Proof.
  intros Hplain. apply (getopt_of_loop shortopts longopts 1).
  cbn [getopt.getopt_loop]. destruct args as [|token args]; [reflexivity|].
  cbn [plain_head] in Hplain. now rewrite Hplain.
Qed.

Lemma mapM_combine_swap {A B C} (f : A -> B -> result C) l1 l2 :
  mapM (fun '(b, a) => f a b) (combine l2 l1)
  = mapM (fun '(a, b) => f a b) (combine l1 l2).
Proof.
  revert l2. induction l1 as [|a l1 IH]; intros [|b l2]; try reflexivity.
  cbn [combine mapM]. now rewrite IH.
Qed.

Lemma map_fst_combine_firstn {A B} (l : list A) (r : list B) :
  map fst (combine l r) = firstn (length r) l.
Proof.
  revert r. induction l as [|a l IH]; intros [|b r]; try reflexivity.
  cbn [combine map fst length firstn]. now rewrite IH.
Qed.

Lemma In_firstn_le {A} (l : list A) k m x :
  k <= m -> In x (firstn k l) -> In x (firstn m l).
Proof.
  intros Hle Hin.
  replace k with (Nat.min k m) in Hin by lia.
  rewrite <- firstn_firstn in Hin.
  rewrite <- (firstn_skipn k (firstn m l)). apply in_or_app. now left.
Qed.

(** X5. On tokens that do not begin with an option, and whose number is
    within the bounds of the positional strategy, the mixed strategy parses
    as the positional strategy does: the same values, the same failure of a
    cast. *)
Theorem MixedFunction_parse_as_positional
    (set_iter : list string -> list string) (fn : pyfunction)
    (default_cast : cast) (raw_args : list string) :
  valid_signature fn = true ->
  plain_head raw_args ->
  length (fn_args fn) - length (fn_defaults fn) <= length raw_args ->
  length raw_args <= length (fn_args fn) ->
  parse (FunctionWrapper_init set_iter MixedFunction fn default_cast) raw_args
  = parse (FunctionWrapper_init set_iter ArgsFunction fn default_cast) raw_args.
Proof.
  intros Hvalid Hplain Hlo Hhi.
  pose proof (valid_signature_defaults fn Hvalid) as Hdef.
  set (m := FunctionWrapper_init set_iter MixedFunction fn default_cast).
  set (a := FunctionWrapper_init set_iter ArgsFunction fn default_cast).
  (* the positional side *)
  change (parse a raw_args) with (ArgsFunction_parse a raw_args).
  unfold ArgsFunction_parse.
  change (needed_args a)
    with (PyList.len (fn_args fn) - PyList.len (fn_defaults fn))%Z.
  change (arg_names a) with (fn_args fn).
  assert (Hge : (PyList.len raw_args
                 <? PyList.len (fn_args fn) - PyList.len (fn_defaults fn))%Z
                = false).
  { apply Z.ltb_ge. unfold PyList.len. lia. }
  assert (Hle : (PyList.len (fn_args fn) <? PyList.len raw_args)%Z = false).
  { apply Z.ltb_ge. unfold PyList.len. lia. }
  rewrite Hge, Hle.
  (* the mixed side *)
  change (parse m raw_args) with (MixedFunction_parse m raw_args).
  unfold MixedFunction_parse, mixed_scan.
  destruct (shortcuts_from_Return (fn_args fn) Dict.empty) as (s2n & Hs2n & _).
  { intros n Hn. eapply valid_signature_names; eassumption. }
  change (_shortcuts m) with (shortcuts_from (fn_args fn) Dict.empty).
  rewrite Hs2n. cbn [bind].
  assert (Hshorts : exists shorts, mixed_shorts_str m = Return shorts).
  { unfold mixed_shorts_str.
    destruct (mapM_Return_all
                (fun name => n0 <- str_item name 0 ;; Return (n0 ++ ":"))
                (required m)) as [req_part Hreq].
    - intros r Hr. apply init_required_declared in Hr. destruct Hr as [Hr _].
      destruct (valid_signature_names fn r Hvalid Hr) as (c & s & ->).
      eexists. reflexivity.
    - rewrite Hreq. cbn [bind]. eauto. }
  destruct Hshorts as [shorts Hshorts]. rewrite Hshorts. cbn [bind].
  rewrite (getopt_plain _ _ _ Hplain). cbn [bind mixed_switches].
  change (arg_names m) with (fn_args fn).
  unfold mixed_positional.
  rewrite map_fst_combine_firstn.
  assert (Hnone :
    filter (fun arg => negb (PyList.mem arg (firstn (length raw_args) (fn_args fn))))
           (filter (fun arg => negb (Dict.mem (@Dict.empty pyvalue) arg))
                   (required m)) = []).
  { rewrite filter_filter. apply filter_none. intros r Hr. cbn [Dict.mem Dict.get Dict.empty negb andb].
    apply negb_false_iff. apply PyList_mem_In.
    unfold m in Hr. rewrite init_required in Hr. apply filter_In in Hr.
    destruct Hr as [Hr _]. unfold PyList.len in Hr.
    rewrite slice_to_count in Hr by assumption.
    eapply In_firstn_le; [|exact Hr]. assumption. }
  rewrite Hnone.
  change (fun '(name, val) => cast_parameter m name val)
    with (fun '(name, val) => cast_parameter a name val).
  rewrite (mapM_combine_swap (fun arg name => cast_parameter a name arg)
             raw_args (fn_args fn)).
  reflexivity.
Qed.

Lemma MixedFunction_parse_as_positional_witness :
  parse (FunctionWrapper_init listed MixedFunction copy Cstr) ["a"; "b"]
  = parse (FunctionWrapper_init listed ArgsFunction copy Cstr) ["a"; "b"].
Proof.
  apply (MixedFunction_parse_as_positional listed copy Cstr ["a"; "b"]).
  - reflexivity.
  - reflexivity.
  - simpl. lia.
  - simpl. lia.
Defined.

(** ** The keyword strategy at its edges *)

Lemma Dict_set_set {V} (d : Dict.t V) k v1 v2 :
  Dict.set (Dict.set d k v1) k v2 = Dict.set d k v2.
Proof.
  induction d as [|[k' v'] d IH]; cbn [Dict.set].
  - now rewrite String.eqb_refl.
  - destruct (String.eqb k' k) eqn:E; cbn [Dict.set].
    + now rewrite String.eqb_refl.
    + now rewrite E, IH.
Qed.

Lemma kwargs_read_long self s2n n name d :
  kwargs_read self s2n ("--" ++ n) name d = Return (Named (Some n)).
Proof.
  unfold kwargs_read. cbn [append].
  now rewrite !startswith_cons, startswith_empty.
Qed.

(** X6. A long switch of a declared parameter that is not boolean, given as
    the last token: the keyword strategy reads the value after the end of
    the tokens, which raises the built-in [IndexError], whatever the scan
    has read before; so does the parse of that switch alone. *)
Theorem kwargs_value_switch_at_end (set_iter : list string -> list string)
    (fn : pyfunction) (default_cast : cast) (n : string) :
  let self := FunctionWrapper_init set_iter KwargsFunction fn default_cast in
  valid_signature fn = true ->
  In n (fn_args fn) ->
  ~ In n (booleans self) ->
  (forall short_to_name name d,
      kwargs_loop self short_to_name ["--" ++ n] name d
      = Raise (IndexError "list index out of range"))
  /\ parse self ["--" ++ n] = Raise (IndexError "list index out of range").
Proof.
  intros self Hvalid Hn Hnb.
  assert (Hloop : forall short_to_name name d,
             kwargs_loop self short_to_name ["--" ++ n] name d
             = Raise (IndexError "list index out of range")).
  { intros s2n name d. cbn [kwargs_loop]. rewrite kwargs_read_long.
    cbn [bind]. change (arg_names self) with (fn_args fn).
    apply PyList_mem_In in Hn. rewrite Hn. cbn [negb]. unfold Dict.item.
    apply PyList_mem_In in Hn.
    destruct (init_casts_declared set_iter KwargsFunction fn default_cast n Hn)
      as [c Hc].
    fold self in Hc. rewrite Hc. cbn [bind].
    destruct c as [|conv]; [|reflexivity].
    exfalso. apply Hnb.
    apply (init_booleans_cast_bool set_iter KwargsFunction fn default_cast n).
    split; assumption. }
  split; [exact Hloop|].
  change (parse self ["--" ++ n]) with (KwargsFunction_parse self ["--" ++ n]).
  unfold KwargsFunction_parse.
  destruct (shortcuts_from_Return (fn_args fn) Dict.empty) as (s2n & Hs2n & _).
  { intros m Hm. eapply valid_signature_names; eassumption. }
  change (_shortcuts self) with (shortcuts_from (fn_args fn) Dict.empty).
  rewrite Hs2n. cbn [bind]. now rewrite Hloop.
Qed.

Lemma kwargs_value_switch_at_end_witness :
  parse (FunctionWrapper_init listed KwargsFunction greet Cstr) ["--" ++ "name"]
  = Raise (IndexError "list index out of range").
Proof.
  apply (kwargs_value_switch_at_end listed greet Cstr "name").
  - reflexivity.
  - simpl. left. reflexivity.
  - simpl. intros [H|[]]. discriminate.
Defined.


(** X8. A switch given twice: for a boolean the second occurrence changes
    nothing, and for a parameter with a value the later value replaces the
    earlier one, as if the first occurrence and its value were not there. *)
Theorem kwargs_repeated_switch (self : FunctionWrapper)
    (short_to_name : Dict.t string) (token n : string) (rest : list string)
    (name : option string) (d : Dict.t pyvalue) :
  (forall nm dd,
      kwargs_read self short_to_name token nm dd = Return (Named (Some n))) ->
  PyList.mem n (arg_names self) = true ->
  (Dict.get (casts self) n = Some Cbool ->
   kwargs_loop self short_to_name (token :: token :: rest) name d
   = kwargs_loop self short_to_name (token :: rest) name d)
  /\ (forall conv v1 p1 v2,
         Dict.get (casts self) n = Some (Ccall conv) ->
         conv v1 = inr p1 ->
         kwargs_loop self short_to_name (token :: v1 :: token :: v2 :: rest)
                     name d
         = kwargs_loop self short_to_name (token :: v2 :: rest) name d).
Proof.
  intros Hread Hmem. split.
  - intros Hc.
    assert (Hstep : forall l nm dd,
               kwargs_loop self short_to_name (token :: l) nm dd
               = kwargs_loop self short_to_name l (Some n)
                             (Dict.set dd n (VBool true))).
    { intros l nm dd. cbn [kwargs_loop]. rewrite Hread. cbn [bind].
      rewrite Hmem. cbn [negb]. unfold Dict.item. rewrite Hc. reflexivity. }
    rewrite (Hstep (token :: rest)), !Hstep, Dict_set_set. reflexivity.
  - intros conv v1 p1 v2 Hc Hv1.
    assert (Hstep : forall v l nm dd,
               kwargs_loop self short_to_name (token :: v :: l) nm dd
               = (parsed_val <- cast_parameter self n v ;;
                  kwargs_loop self short_to_name l (Some n)
                              (Dict.set dd n parsed_val))).
    { intros v l nm dd. cbn [kwargs_loop]. rewrite Hread. cbn [bind].
      rewrite Hmem. cbn [negb]. unfold Dict.item. rewrite Hc. reflexivity. }
    rewrite (Hstep v1 (token :: v2 :: rest)).
    unfold cast_parameter at 1. rewrite Hc, Hv1. cbn [bind].
    rewrite !Hstep.
    destruct (cast_parameter self n v2) as [p2|e]; [|reflexivity].
    cbn [bind]. now rewrite Dict_set_set.
Qed.

Lemma kwargs_repeated_switch_witness :
  kwargs_loop (FunctionWrapper_init listed KwargsFunction greet Cstr)
              [("n", "name"); ("d", "debug")]
              ["-n"; "Alice"; "-n"; "Bob"] None []
  = kwargs_loop (FunctionWrapper_init listed KwargsFunction greet Cstr)
                [("n", "name"); ("d", "debug")] ["-n"; "Bob"] None [].
Proof.
  destruct (kwargs_repeated_switch
              (FunctionWrapper_init listed KwargsFunction greet Cstr)
              [("n", "name"); ("d", "debug")] "-n" "name" [] None [])
    as [_ Hvalue].
  - reflexivity.
  - reflexivity.
  - apply (Hvalue (fun s => inr (VStr s)) "Alice" (VStr "Alice") "Bob");
      reflexivity.
Defined.

Lemma kwargs_bundle_get self s2n shorts name d :
  (forall c, In c (list_ascii_of_string shorts) ->
             exists n, Dict.get s2n (Str.chr1 c) = Some n
                       /\ PyList.mem n (booleans self) = true) ->
  exists name' d',
    kwargs_bundle self s2n shorts name d = Return (name', d')
    /\ forall k,
         Dict.get d' k
         = if existsb (letter_names s2n k) (list_ascii_of_string shorts)
           then Some (VBool true) else Dict.get d k.
Proof.
  revert name d. induction shorts as [|c shorts IH]; intros name d Hall.
  - exists name, d. split; reflexivity.
  - destruct (Hall c (or_introl eq_refl)) as (n & Hn & Hb).
    destruct (IH (Some n) (Dict.set d n (VBool true))) as (name' & d' & Hrun & Hget).
    { intros c' Hc'. apply Hall. now right. }
    exists name', d'. split.
    + cbn [kwargs_bundle]. unfold Dict.item. rewrite Hn. cbn [bind].
      rewrite Hb. exact Hrun.
    + intros k. rewrite Hget. cbn [list_ascii_of_string existsb].
      unfold letter_names at 2. rewrite Hn.
      destruct (existsb (letter_names s2n k) (list_ascii_of_string shorts));
        [now rewrite orb_true_r|].
      rewrite orb_false_r. destruct (String.eqb_spec n k) as [->|Hne].
      * apply Dict_get_set_eq.
      * now apply Dict_get_set_ne.
Qed.

(** X9. Bundled short booleans: a token of a hyphen and two or more
    letters, each the shortcut of a boolean parameter, takes no value; it
    sets every parameter that one of the letters names to true and leaves
    the other entries of the mapping as they are. *)
Theorem kwargs_bundle_sets_booleans (self : FunctionWrapper)
    (short_to_name : Dict.t string) (c1 c2 : ascii) (more : string)
    (rest : list string) (name : option string) (d : Dict.t pyvalue) :
  let letters := String c1 (String c2 more) in
  c1 <> "-"%char ->
  (forall c, In c (list_ascii_of_string letters) ->
             exists n, Dict.get short_to_name (Str.chr1 c) = Some n
                       /\ PyList.mem n (booleans self) = true) ->
  exists name' d',
    kwargs_loop self short_to_name (String "-" letters :: rest) name d
    = kwargs_loop self short_to_name rest name' d'
    /\ (forall c n, In c (list_ascii_of_string letters) ->
                    Dict.get short_to_name (Str.chr1 c) = Some n ->
                    Dict.get d' n = Some (VBool true))
    /\ (forall k, (forall c, In c (list_ascii_of_string letters) ->
                             Dict.get short_to_name (Str.chr1 c) <> Some k) ->
                  Dict.get d' k = Dict.get d k).
Proof.
  intros letters Hc1 Hall.
  destruct (kwargs_bundle_get self short_to_name letters name d Hall)
    as (name' & d' & Hrun & Hget).
  exists name', d'. split; [|split].
  - cbn [kwargs_loop]. unfold kwargs_read.
    assert (Hlong : Str.startswith (String "-" letters) "--" = false).
    { unfold letters. rewrite !startswith_cons.
      assert (Hne : Ascii.eqb "-" c1 = false) by (apply Ascii.eqb_neq; congruence).
      rewrite Hne. apply andb_false_r. }
    assert (Hshort : Str.startswith (String "-" letters) "-" = true).
    { now rewrite startswith_cons, startswith_empty. }
    assert (Hlen2 : (Str.len (String "-" letters) =? 2)%Z = false).
    { apply Z.eqb_neq. unfold Str.len, letters. cbn [String.length]. lia. }
    assert (Hlen : (2 <? Str.len (String "-" letters))%Z = true).
    { apply Z.ltb_lt. unfold Str.len, letters. cbn [String.length]. lia. }
    rewrite Hlong, Hshort, Hlen2, Hlen.
    change (Str.drop 1 (String "-" letters)) with letters.
    rewrite Hrun. reflexivity.
  - intros c n Hc Hn. rewrite Hget.
    assert (Hex : existsb (letter_names short_to_name n)
                          (list_ascii_of_string letters) = true).
    { apply existsb_exists. exists c. split; [assumption|].
      unfold letter_names. rewrite Hn. apply String.eqb_refl. }
    now rewrite Hex.
  - intros k Hk. rewrite Hget.
    assert (Hex : existsb (letter_names short_to_name k)
                          (list_ascii_of_string letters) = false).
    { apply not_true_iff_false. intros Hex. apply existsb_exists in Hex.
      destruct Hex as [c [Hc Hl]]. unfold letter_names in Hl.
      destruct (Dict.get short_to_name (Str.chr1 c)) as [n|] eqn:E;
        [|discriminate].
      apply String.eqb_eq in Hl. subst n. exact (Hk c Hc E). }
    now rewrite Hex.
Qed.

Lemma kwargs_bundle_sets_booleans_witness :
  exists name' d',
    kwargs_loop (FunctionWrapper_init listed KwargsFunction greet Cstr)
                [("n", "name"); ("d", "debug")] ["-dd"; "-n"; "Al"] None []
    = kwargs_loop (FunctionWrapper_init listed KwargsFunction greet Cstr)
                  [("n", "name"); ("d", "debug")] ["-n"; "Al"] name' d'
    /\ (forall c n, In c (list_ascii_of_string "dd") ->
                    Dict.get [("n", "name"); ("d", "debug")] (Str.chr1 c)
                    = Some n ->
                    Dict.get d' n = Some (VBool true))
    /\ (forall k, (forall c, In c (list_ascii_of_string "dd") ->
                             Dict.get [("n", "name"); ("d", "debug")]
                                      (Str.chr1 c) <> Some k) ->
                  Dict.get d' k = Dict.get (@Dict.empty pyvalue) k).
Proof.
  apply (kwargs_bundle_sets_booleans
           (FunctionWrapper_init listed KwargsFunction greet Cstr)
           [("n", "name"); ("d", "debug")] "d" "d" EmptyString
           ["-n"; "Al"] None []).
  - discriminate.
  - intros c [<-|[<-|[]]]; exists "debug"; split; reflexivity.
Defined.

(** ** The shortcut table *)

Lemma shortcuts_from_other_letter names d d' c :
  shortcuts_from names d = Return d' ->
  (forall r, ~ In (String c r) names) ->
  Dict.get d' (Str.chr1 c) = Dict.get d (Str.chr1 c).
Proof.
  revert d. induction names as [|n names IH]; intros d H Hc.
  - cbn [shortcuts_from] in H. now injection H as <-.
  - cbn [shortcuts_from] in H.
    apply bind_Return_inv in H. destruct H as [short [Hshort H]].
    destruct n as [|c0 r0]; [discriminate|].
    injection Hshort as <-.
    rewrite (IH _ H) by (intros r Hr; apply (Hc r); now right).
    apply Dict_get_set_ne. unfold Str.chr1. intros Heq. injection Heq as ->.
    apply (Hc r0). now left.
Qed.

(** X10. Parameters that share their first letter: the shortcut table sends
    the letter to the last of them, so the short switch never reaches the
    earlier ones. *)
Theorem shortcuts_last_wins (self : FunctionWrapper)
    (before after : list string) (c : ascii) (r : string) :
  arg_names self = (before ++ String c r :: after)%list ->
  (forall n, In n (arg_names self) -> n <> EmptyString) ->
  (forall r', ~ In (String c r') after) ->
  exists short_to_name,
    _shortcuts self = Return short_to_name
    /\ Dict.get short_to_name (Str.chr1 c) = Some (String c r).
Proof.
  intros Hnames Hne Hlast. unfold _shortcuts. rewrite Hnames.
  assert (Hne' : forall n, In n (before ++ String c r :: after) ->
                           exists c0 r0, n = String c0 r0).
  { intros n Hn. rewrite <- Hnames in Hn. apply Hne in Hn.
    destruct n as [|c0 r0]; [congruence | eauto]. }
  clear Hnames Hne. generalize (@Dict.empty string) as d.
  induction before as [|n before IH]; intros d.
  - cbn [app shortcuts_from].
    change (str_item (String c r) 0) with (Return (Str.chr1 c)). cbn [bind].
    destruct (shortcuts_from_Return after (Dict.set d (Str.chr1 c) (String c r)))
      as (d' & Hd' & _ & _).
    { intros n Hn. apply Hne'. now right. }
    exists d'. split; [exact Hd'|].
    rewrite (shortcuts_from_other_letter _ _ _ _ Hd' Hlast).
    apply Dict_get_set_eq.
  - destruct (Hne' n (or_introl eq_refl)) as (c0 & r0 & ->).
    cbn [app shortcuts_from].
    change (str_item (String c0 r0) 0) with (Return (Str.chr1 c0)). cbn [bind].
    apply IH. intros n Hn. apply Hne'. now right.
Qed.

Lemma shortcuts_last_wins_witness :
  exists short_to_name,
    _shortcuts (FunctionWrapper_init listed KwargsFunction
                  {| fn_name := "move";
                     fn_doc := None;
                     fn_args := ["source"; "speed"];
                     fn_defaults := [];
                     fn_annotations := [] |} Cstr)
    = Return short_to_name
    /\ Dict.get short_to_name (Str.chr1 "s") = Some "speed".
Proof.
  apply (shortcuts_last_wins
           (FunctionWrapper_init listed KwargsFunction
              {| fn_name := "move";
                 fn_doc := None;
                 fn_args := ["source"; "speed"];
                 fn_defaults := [];
                 fn_annotations := [] |} Cstr)
           ["source"] [] "s" "peed").
  - reflexivity.
  - intros n [<-|[<-|[]]]; discriminate.
  - intros r' [].
Defined.

(** ** The mixed strategy at its edges *)

Lemma mixed_switches_step self s2n opt n val optlist name kw pos :
  names_switch s2n opt n ->
  mixed_switches self s2n ((opt, val) :: optlist) name kw pos
  = (parsed <- cast_parameter self n val ;;
     match PyList.remove n pos with
     | None => Raise (ValueError "list.remove(x): x not in list")
     | Some pos' =>
         mixed_switches self s2n optlist (Some n) (Dict.set kw n parsed) pos'
     end).
Proof.
  intros [->|(c & Hc & -> & Hget)]; cbn [mixed_switches].
  - cbn [append]. rewrite !startswith_cons, startswith_empty. reflexivity.
  - unfold Str.chr1 in *. rewrite !startswith_cons, startswith_empty.
    assert (Hne : Ascii.eqb "-" c = false) by (apply Ascii.eqb_neq; congruence).
    rewrite Hne. cbn [andb bind].
    change (str_item (String "-" (String c EmptyString)) 1)
      with (Return (String c EmptyString)).
    cbn [bind]. unfold Dict.item. rewrite Hget. reflexivity.
Qed.

Lemma remove_absent x l : ~ In x l -> PyList.remove x l = None.
Proof.
  induction l as [|y l IH]; intros Hx; [reflexivity|].
  cbn [PyList.remove]. destruct (String.eqb_spec y x) as [->|_].
  - exfalso. apply Hx. now left.
  - rewrite IH; [reflexivity|]. intros Hin. apply Hx. now right.
Qed.

(** X11. A parameter given by two switches: the second one finds its name
    already taken off the list of positional parameters, and the loop over
    the options raises the built-in [ValueError] of [list.remove]. *)
Theorem mixed_repeated_switch (self : FunctionWrapper)
    (short_to_name : Dict.t string) (opt1 opt2 n val1 val2 : string)
    (p1 p2 : pyvalue) (optlist : getopt.opts_t) (name : option string)
    (kw : Dict.t pyvalue) (pos : list string) :
  NoDup pos ->
  names_switch short_to_name opt1 n ->
  names_switch short_to_name opt2 n ->
  cast_parameter self n val1 = Return p1 ->
  cast_parameter self n val2 = Return p2 ->
  mixed_switches self short_to_name ((opt1, val1) :: (opt2, val2) :: optlist)
                 name kw pos
  = Raise (ValueError "list.remove(x): x not in list").
Proof.
  intros Hnd H1 H2 Hv1 Hv2.
  rewrite (mixed_switches_step _ _ _ _ _ _ _ _ _ H1), Hv1. cbn [bind].
  destruct (PyList.remove n pos) as [pos'|] eqn:Hrem; [|reflexivity].
  rewrite (mixed_switches_step _ _ _ _ _ _ _ _ _ H2), Hv2. cbn [bind].
  rewrite remove_absent; [reflexivity|].
  rewrite (remove_filter _ _ _ Hnd Hrem). intros Hin.
  apply filter_In in Hin. destruct Hin as [_ Hin].
  now rewrite String.eqb_refl in Hin.
Qed.

Lemma mixed_repeated_switch_witness :
  mixed_switches (FunctionWrapper_init listed MixedFunction copy Cstr)
                 [("s", "src"); ("d", "dst"); ("v", "verbose")]
                 [("-v", EmptyString); ("--verbose", EmptyString)]
                 None Dict.empty ["src"; "dst"; "verbose"]
  = Raise (ValueError "list.remove(x): x not in list").
Proof.
  apply (mixed_repeated_switch
           (FunctionWrapper_init listed MixedFunction copy Cstr)
           [("s", "src"); ("d", "dst"); ("v", "verbose")]
           "-v" "--verbose" "verbose" EmptyString EmptyString
           (VBool true) (VBool true)).
  - repeat constructor; simpl; intuition discriminate.
  - right. exists "v"%char. repeat split. discriminate.
  - left. reflexivity.
  - reflexivity.
  - reflexivity.
Defined.

Section ScannerSlice.

Variable shortopts : string.
Variable longopts : list string.

Lemma do_shorts_suffix opts optstring args opts' args' :
  getopt.do_shorts opts optstring shortopts args = Return (opts', args') ->
  exists taken, args = (taken ++ args')%list.
Proof.
  revert opts. induction optstring as [|opt s IH]; intros opts H.
  - cbn [getopt.do_shorts] in H. injection H as _ <-. now exists [].
  - cbn [getopt.do_shorts] in H.
    destruct (getopt.short_has_arg opt shortopts) as [[|]|e];
      cbn [bind] in H; [| now apply IH in H | discriminate].
    destruct s as [|c s].
    + destruct args as [|optarg args]; [discriminate|].
      injection H as _ <-. now exists [optarg].
    + injection H as _ <-. now exists [].
Qed.

Lemma do_longs_suffix opts opt args opts' args' :
  getopt.do_longs opts opt longopts args = Return (opts', args') ->
  exists taken, args = (taken ++ args')%list.
Proof.
  unfold getopt.do_longs.
  destruct (match Str.index opt "=" with
            | Some i => (Str.take i opt, Some (Str.drop (S i) opt))
            | None => (opt, None)
            end) as [opt1 optarg].
  destruct (getopt.long_has_args opt1 longopts) as [[[|] opt2]|e];
    cbn [bind]; [| | discriminate].
  - destruct optarg as [optarg|].
    + intros H. injection H as _ <-. now exists [].
    + destruct args as [|optarg args]; [discriminate|].
      intros H. injection H as _ <-. now exists [optarg].
  - destruct optarg as [optarg|]; [discriminate|].
    intros H. injection H as _ <-. now exists [].
Qed.

Lemma getopt_loop_suffix fuel opts args opts' rest :
  getopt.getopt_loop fuel opts args shortopts longopts
  = Some (Return (opts', rest)) ->
  exists front, args = (front ++ rest)%list.
Proof.
  revert opts args. induction fuel as [|fuel IH]; intros opts args H;
    [discriminate|].
  cbn [getopt.getopt_loop] in H. destruct args as [|arg0 args].
  - injection H as _ <-. now exists [].
  - destruct (getopt.is_option arg0).
    + destruct (String.eqb arg0 "--").
      * injection H as _ <-. now exists [arg0].
      * destruct (Str.startswith arg0 "--").
        -- destruct (getopt.do_longs opts (Str.drop 2 arg0) longopts args)
             as [[opts1 args1]|e] eqn:Hdo; [|discriminate].
           apply do_longs_suffix in Hdo. destruct Hdo as [taken ->].
           apply IH in H. destruct H as [front ->].
           exists (arg0 :: taken ++ front)%list.
           cbn [app]. now rewrite app_assoc.
        -- destruct (getopt.do_shorts opts (Str.drop 1 arg0) shortopts args)
             as [[opts1 args1]|e] eqn:Hdo; [|discriminate].
           apply do_shorts_suffix in Hdo. destruct Hdo as [taken ->].
           apply IH in H. destruct H as [front ->].
           exists (arg0 :: taken ++ front)%list.
           cbn [app]. now rewrite app_assoc.
    + injection H as _ <-. now exists [].
Qed.

End ScannerSlice.

(** X12. The positional tokens of the mixed strategy are a trailing slice of
    the raw arguments: the scan takes its switches and their values from the
    front and hands the rest on as it is, in its order. *)
Theorem mixed_scan_trailing_slice (self : FunctionWrapper)
    (raw_args : list string) (kw : Dict.t pyvalue) (pos rest : list string) :
  mixed_scan self raw_args = Return (kw, pos, rest) ->
  exists front, raw_args = (front ++ rest)%list.
Proof.
  intros H. apply mixed_scan_inv in H.
  destruct H as (s2n & shorts & optlist & _ & _ & Hg & _).
  pose proof (getopt_unfold shorts (mixed_long_opts self) raw_args) as Hu.
  rewrite Hg in Hu. eapply getopt_loop_suffix. exact Hu.
Qed.

Lemma mixed_scan_trailing_slice_witness :
  exists front, ["--src"; "a"; "--"; "-b"; "c"] = (front ++ ["-b"; "c"])%list.
Proof.
  apply (mixed_scan_trailing_slice
           (FunctionWrapper_init listed MixedFunction copy Cstr)
           ["--src"; "a"; "--"; "-b"; "c"]
           [("src", VStr "a")] ["dst"; "verbose"] ["-b"; "c"]).
  reflexivity.
Defined.

Lemma filter_nil_inv {A} (f : A -> bool) l x :
  filter f l = [] -> In x l -> f x = false.
Proof.
  induction l as [|y l IH]; cbn [filter]; intros H Hx; [contradiction|].
  destruct (f y) eqn:E; [discriminate|].
  destruct Hx as [<-|Hx]; auto.
Qed.

(** X13. No strategy that works with switches succeeds while a required
    parameter is missing: after a successful parse of the keyword strategy
    every required parameter is a key of the keyword mapping, and after one
    of the mixed strategy every required parameter is a key of the keyword
    mapping or one of the parameters that received a positional token. *)
Theorem required_parameters_bound (self : FunctionWrapper)
    (raw_args : list string) (args : list pyvalue) (kwargs : Dict.t pyvalue) :
  (KwargsFunction_parse self raw_args = Return (args, kwargs) ->
   Forall (fun r => Dict.mem kwargs r = true) (required self))
  /\ (MixedFunction_parse self raw_args = Return (args, kwargs) ->
      exists pos rest,
        mixed_scan self raw_args = Return (kwargs, pos, rest)
        /\ length args = Nat.min (length pos) (length rest)
        /\ Forall (fun r => Dict.mem kwargs r = true
                            \/ In r (firstn (length args) pos))
                  (required self)).
Proof.
  split.
  - unfold KwargsFunction_parse. intros H.
    apply bind_Return_inv in H. destruct H as [s2n [_ H]].
    apply bind_Return_inv in H. destruct H as [d [_ H]].
    destruct (0 <? PyList.len _)%Z eqn:Hlen; [discriminate|].
    injection H as _ <-. apply Forall_forall. intros r Hr.
    apply Z.ltb_ge in Hlen. unfold PyList.len in Hlen.
    destruct (filter _ (required self)) as [|x l] eqn:Hf;
      [|cbn [length] in Hlen; lia].
    apply (filter_nil_inv _ _ r Hf) in Hr. now apply negb_false_iff in Hr.
  - unfold MixedFunction_parse. intros H.
    apply bind_Return_inv in H. destruct H as [[[kw pos] rest] [Hscan H]].
    unfold mixed_positional in H.
    apply bind_Return_inv in H. destruct H as [vals [Hm H]].
    destruct (0 <? PyList.len _)%Z eqn:Hlen; [discriminate|].
    injection H as <- <-. exists pos, rest. split; [assumption|].
    apply mapM_length in Hm. rewrite length_combine in Hm.
    split; [assumption|].
    apply Forall_forall. intros r Hr.
    apply Z.ltb_ge in Hlen. unfold PyList.len in Hlen.
    match type of Hlen with
    | context [filter ?f (filter ?g ?l)] =>
        destruct (filter f (filter g l)) as [|x l'] eqn:Hf;
          [|cbn [length] in Hlen; lia]
    end.
    rewrite filter_filter in Hf.
    apply (filter_nil_inv _ _ r Hf) in Hr.
    apply andb_false_iff in Hr. destruct Hr as [Hr|Hr].
    + left. now apply negb_false_iff in Hr.
    + right. apply negb_false_iff, PyList_mem_In in Hr.
      rewrite map_fst_combine_firstn in Hr.
      rewrite Hm. destruct (Nat.min_spec (length pos) (length rest))
        as [[Hlt ->]|[Hge ->]]; [|assumption].
      rewrite firstn_all2; [|lia].
      rewrite <- (firstn_skipn (length rest) pos). apply in_or_app. now left.
Qed.

Lemma required_parameters_bound_witness :
  Forall (fun r => Dict.mem [("debug", VBool false); ("name", VStr "Alice")] r
                   = true)
         (required (FunctionWrapper_init listed KwargsFunction greet Cstr)).
Proof.
  apply (required_parameters_bound
           (FunctionWrapper_init listed KwargsFunction greet Cstr)
           ["-n"; "Alice"] []).
  reflexivity.
Defined.

(** ** The docstring parser at its edges *)

Lemma parse_doc_lines_no_match names lines i first_line d :
  (forall ln, In ln lines -> var_doc_match names (Str.strip ln) = None) ->
  parse_doc_lines names lines i first_line d = (first_line, d).
Proof.
  revert i. induction lines as [|ln lines IH]; intros i Hnone; [reflexivity|].
  cbn [parse_doc_lines]. rewrite (Hnone ln) by now left.
  apply IH. intros ln' Hin. apply Hnone. now right.
Qed.

(** X14. A docstring none of whose lines starts with a parameter name gives
    an empty help mapping and an empty summary as well: its text does not
    reach the usage. *)
Theorem parse_docstring_without_parameter_lines (fn : pyfunction) :
  (forall ln,
      In ln (Str.splitlines (match fn_doc fn with
                             | None => EmptyString
                             | Some d => d
                             end)) ->
      var_doc_match (fn_args fn) (Str.strip ln) = None) ->
  _parse_docstring fn = (EmptyString, Dict.empty).
Proof.
  intros Hnone. unfold _parse_docstring, _getfunctionspec.
  rewrite parse_doc_lines_no_match by assumption.
  now rewrite Z.ltb_irrefl.
Qed.

Lemma parse_docstring_without_parameter_lines_witness :
  _parse_docstring {| fn_name := "pick";
                      fn_doc := Some ("Pick one." ++ Str.NL ++ "Any one.");
                      fn_args := ["x"];
                      fn_defaults := [];
                      fn_annotations := [] |}
  = (EmptyString, Dict.empty).
Proof.
  apply parse_docstring_without_parameter_lines.
  intros ln [<-|[<-|[]]]; reflexivity.
Defined.

Lemma splitlines_from_length skip s :
  length (Str.splitlines_from skip s) <= String.length s.
Proof.
  revert skip. induction s as [|c r IH]; intros skip; [reflexivity|].
  cbn [Str.splitlines_from String.length].
  destruct (skip && Str.is_lf c).
  - specialize (IH false). lia.
  - destruct (Str.islinebreak c).
    + specialize (IH (Str.is_cr c)). cbn [length]. lia.
    + specialize (IH false).
      destruct (Str.splitlines_from false r) as [|l ls]; cbn [length] in *; lia.
Qed.

Lemma parse_doc_lines_first_line_kept names lines i first_line d :
  (first_line <= i)%Z ->
  fst (parse_doc_lines names lines i first_line d) = first_line.
Proof.
  revert i d. induction lines as [|ln lines IH]; intros i d Hle; [reflexivity|].
  cbn [parse_doc_lines].
  destruct (var_doc_match names (Str.strip ln)) as [[name doc]|].
  - assert (Hlt : (i <? first_line)%Z = false) by (apply Z.ltb_ge; lia).
    rewrite Hlt. apply IH. lia.
  - apply IH. lia.
Qed.

(** X15. The summary is the text before the first line that starts with a
    parameter name: the lines before it, joined by line feeds and
    trimmed. *)
Theorem parse_docstring_summary (fn : pyfunction) (docs : string)
    (before after : list string) (ln name doc : string) :
  fn_doc fn = Some docs ->
  Str.splitlines docs = (before ++ ln :: after)%list ->
  (forall ln', In ln' before ->
               var_doc_match (fn_args fn) (Str.strip ln') = None) ->
  var_doc_match (fn_args fn) (Str.strip ln) = Some (name, doc) ->
  fst (_parse_docstring fn) = Str.strip (Str.join Str.NL before).
Proof.
  intros Hdoc Hlines Hbefore Hmatch.
  assert (Hcount : (PyList.len before < Str.len docs)%Z).
  { pose proof (splitlines_from_length false docs) as Hlen.
    fold (Str.splitlines docs) in Hlen. rewrite Hlines, length_app in Hlen.
    cbn [length] in Hlen. unfold PyList.len, Str.len. lia. }
  unfold _parse_docstring, _getfunctionspec. rewrite Hdoc, Hlines.
  rewrite parse_doc_lines_app.
  rewrite (parse_doc_lines_no_match (fn_args fn) before) by assumption.
  cbn [fst snd parse_doc_lines]. rewrite Hmatch.
  assert (Hfirst : (0 + PyList.len before <? Str.len docs)%Z = true)
    by (apply Z.ltb_lt; lia).
  rewrite Hfirst.
  match goal with
  | |- context [parse_doc_lines ?n ?l ?i ?f ?d0] =>
      pose proof (parse_doc_lines_first_line_kept n l i f d0) as Hkept;
      destruct (parse_doc_lines n l i f d0) as [first_line d']
  end.
  cbn [fst] in *. rewrite Hkept by lia. rewrite Hfirst.
  cbn [fst]. f_equal. f_equal.
  unfold PyList.slice_to, PyList.len.
  assert (Hneg : (0 + Z.of_nat (length before) <? 0)%Z = false)
    by (apply Z.ltb_ge; lia).
  rewrite Hneg.
  replace (Z.to_nat (0 + Z.of_nat (length before))) with (length before + 0)
    by lia.
  now rewrite firstn_app_2, app_nil_r.
Qed.

Lemma parse_docstring_summary_witness :
  fst (_parse_docstring pick) = Str.strip (Str.join Str.NL ["Pick one."]).
Proof.
  apply (parse_docstring_summary pick
           ("Pick one." ++ Str.NL ++ "x - first" ++ Str.NL ++ "x - second")
           ["Pick one."] ["x - second"] "x - first" "x" "first").
  - reflexivity.
  - reflexivity.
  - intros ln' [<-|[]]. reflexivity.
  - reflexivity.
Defined.

Lemma Dict_set_keys_In {V} (d : Dict.t V) k v k' :
  In k' (Dict.keys (Dict.set d k v)) <-> k' = k \/ In k' (Dict.keys d).
Proof.
  unfold Dict.keys. induction d as [|[k0 v0] d IH]; cbn [Dict.set map fst In].
  - intuition.
  - destruct (String.eqb_spec k0 k) as [->|Hne]; cbn [map fst In].
    + intuition.
    + rewrite IH. intuition.
Qed.

Lemma Dict_set_keys_NoDup {V} (d : Dict.t V) k v :
  NoDup (Dict.keys d) -> NoDup (Dict.keys (Dict.set d k v)).
Proof.
  induction d as [|[k0 v0] d IH]; intros Hnd.
  - cbn. constructor; [intros [] | constructor].
  - cbn [Dict.set]. destruct (String.eqb_spec k0 k) as [->|Hne].
    + exact Hnd.
    + unfold Dict.keys in *. cbn [map fst] in *.
      inversion Hnd as [|? ? Hk Hd]; subst. constructor.
      * intros Hin. apply (Dict_set_keys_In d k v k0) in Hin.
        destruct Hin as [->|Hin]; [congruence | contradiction].
      * now apply IH.
Qed.

Lemma parse_doc_lines_keys_NoDup names lines i first_line d :
  NoDup (Dict.keys d) ->
  NoDup (Dict.keys (snd (parse_doc_lines names lines i first_line d))).
Proof.
  revert i first_line d. induction lines as [|ln lines IH];
    intros i first_line d Hnd; [assumption|].
  cbn [parse_doc_lines].
  destruct (var_doc_match names (Str.strip ln)) as [[name doc]|].
  - apply IH. now apply Dict_set_keys_NoDup.
  - now apply IH.
Qed.

(** X16. The help mapping of a function with parameters has one entry per
    documented parameter: its keys differ from each other, and each of them
    is a parameter name. *)
Theorem parse_docstring_keys_are_parameters (fn : pyfunction) :
  fn_args fn <> [] ->
  NoDup (Dict.keys (snd (_parse_docstring fn)))
  /\ forall k, In k (Dict.keys (snd (_parse_docstring fn))) ->
               In k (fn_args fn).
Proof.
  intros Hargs. split.
  - unfold _parse_docstring, _getfunctionspec.
    match goal with
    | |- context [parse_doc_lines ?n ?l ?i ?f ?d0] =>
        pose proof (parse_doc_lines_keys_NoDup n l i f d0) as Hnd;
        destruct (parse_doc_lines n l i f d0) as [first_line d']
    end.
    cbn [snd] in *. apply Hnd. constructor.
  - intros k Hk. unfold Dict.keys in Hk. apply in_map_iff in Hk.
    destruct Hk as [[k' v] [Heq Hin]]. cbn [fst] in Heq. subst k'.
    apply parse_docstring_keys in Hin.
    destruct (fn_args fn); [congruence | exact Hin].
Qed.

Lemma parse_docstring_keys_are_parameters_witness :
  NoDup (Dict.keys (snd (_parse_docstring pick)))
  /\ forall k, In k (Dict.keys (snd (_parse_docstring pick))) ->
               In k (fn_args pick).
Proof.
  apply (parse_docstring_keys_are_parameters pick). discriminate.
Defined.

Lemma var_doc_match_parameterless s :
  var_doc_match [] s = Some (EmptyString, dot_star (skip_class s)).
Proof.
  unfold var_doc_match. cbn [alternatives match_alt].
  now rewrite startswith_empty.
Qed.

Lemma parse_doc_lines_parameterless lines i first_line d :
  (lines <> [] /\ d = []) \/ (exists v, d = [(EmptyString, v)]) ->
  exists v,
    snd (parse_doc_lines [] lines i first_line d) = [(EmptyString, v)].
Proof.
  revert i first_line d. induction lines as [|ln lines IH];
    intros i first_line d Hd.
  - destruct Hd as [[Hne _]|Hd]; [congruence | exact Hd].
  - cbn [parse_doc_lines]. rewrite var_doc_match_parameterless.
    apply IH. right.
    destruct Hd as [[_ ->]|[v ->]]; eexists; reflexivity.
Qed.

(** The usage of the documented parameters, for a function without
    parameters that has a docstring: every line of the docstring matches the
    pattern with the empty name, whose first letter does not exist. *)
Lemma docstring_usage_parameterless set_iter kind fn default_cast docs :
  kind <> ArgsFunction ->
  fn_args fn = [] ->
  fn_doc fn = Some docs ->
  Str.splitlines docs <> [] ->
  docstring_usage (FunctionWrapper_init set_iter kind fn default_cast)
  = Raise (IndexError "string index out of range").
Proof.
  intros Hkind Hargs Hdoc Hlines. unfold docstring_usage.
  change (function (FunctionWrapper_init set_iter kind fn default_cast)) with fn.
  change (cls (FunctionWrapper_init set_iter kind fn default_cast)) with kind.
  change (_shortcuts (FunctionWrapper_init set_iter kind fn default_cast))
    with (shortcuts_from (fn_args fn) Dict.empty).
  unfold _parse_docstring, _getfunctionspec. rewrite Hargs, Hdoc.
  destruct (parse_doc_lines_parameterless (Str.splitlines docs) 0
              (Str.len docs) Dict.empty) as [v Hv].
  { left. split; [assumption | reflexivity]. }
  destruct (parse_doc_lines [] (Str.splitlines docs) 0 (Str.len docs)
              Dict.empty) as [first_line d].
  cbn [snd] in Hv. subst d.
  destruct kind; [congruence | |]; reflexivity.
Qed.

(** X17. A request for help to a single registered function of the keyword
    or of the mixed strategy that has no parameters but has a docstring:
    [_setup] does not come to raise [PrintHelp]; the usage text fails with
    the built-in [IndexError]. *)
Theorem setup_help_parameterless (set_iter : list string -> list string)
    (kind : strategy) (fn : pyfunction) (default_cast : cast)
    (self : Exposer) (key prog h docs : string) (rest : list string) :
  (forall l x, In x (set_iter l) -> In x l) ->
  valid_signature fn = true ->
  kind <> ArgsFunction ->
  fn_args fn = [] ->
  fn_doc fn = Some docs ->
  Str.splitlines docs <> [] ->
  functions_dict self
  = [(key, FunctionWrapper_init set_iter kind fn default_cast)] ->
  PyList.mem h HELP_SET = true ->
  _setup self (CmdList (prog :: h :: rest))
  = Raise (IndexError "string index out of range").
Proof.
  intros Hset Hvalid Hkind Hargs Hdoc Hlines Hdict Hhelp.
  destruct (parameters_repr_Return set_iter Hset kind fn default_cast Hvalid)
    as [params Hparams].
  unfold _setup. cbn [tokens_of list_item nth_error bind]. rewrite Hdict.
  cbn [length Dict.values map snd hd_error]. rewrite Hhelp.
  unfold _complete_usage, _single_usage, the_func.
  cbn [is_single func bind]. rewrite Hparams. cbn [bind].
  now rewrite (docstring_usage_parameterless set_iter kind fn default_cast docs).
Qed.

Lemma setup_help_parameterless_witness :
  _setup (Exposer_kwargs listed bare
            {| fn_name := "status";
               fn_doc := Some "Show the status.";
               fn_args := [];
               fn_defaults := [];
               fn_annotations := [] |})
         (CmdList ("prog.py" :: "-h" :: []))
  = Raise (IndexError "string index out of range").
Proof.
  apply (setup_help_parameterless listed KwargsFunction
           {| fn_name := "status";
              fn_doc := Some "Show the status.";
              fn_args := [];
              fn_defaults := [];
              fn_annotations := [] |}
           Cstr _ "status" "prog.py" "-h" "Show the status." []).
  - intros l x Hx. exact Hx.
  - reflexivity.
  - discriminate.
  - reflexivity.
  - reflexivity.
  - discriminate.
  - reflexivity.
  - reflexivity.
Defined.

(** ** Dispatch *)

(** X18. With two or more functions registered, the token after the program
    path selects the function by its name and the tokens after it are the
    raw arguments: [parse_args] returns what the parse of that function
    returns, together with the function, and lets every exception of the
    parse other than [NotEnoughArgs] through; a name that is not registered
    raises [PyoptError]. *)
Theorem parse_args_dispatch (self : Exposer) (prog nm : string)
    (rest : list string) :
  2 <= length (functions_dict self) ->
  PyList.mem nm HELP_SET = false ->
  (forall f args kwargs,
      Dict.get (functions_dict self) nm = Some f ->
      parse f rest = Return (args, kwargs) ->
      parse_args self (CmdList (prog :: nm :: rest))
      = Return (function f, args, kwargs))
  /\ (forall f e,
         Dict.get (functions_dict self) nm = Some f ->
         parse f rest = Raise e ->
         (forall m, e <> NotEnoughArgs m) ->
         parse_args self (CmdList (prog :: nm :: rest)) = Raise e)
  /\ (Dict.get (functions_dict self) nm = None ->
      parse_args self (CmdList (prog :: nm :: rest))
      = Raise (PyoptError ("Unkown function '" ++ nm ++ "'."))).
Proof.
  intros Hcount Hhelp.
  assert (Hsetup : forall f,
             Dict.get (functions_dict self) nm = Some f ->
             _setup self (CmdList (prog :: nm :: rest))
             = Return {| functions_dict := functions_dict self;
                         default_cast := default_cast self;
                         cmd_args := prog :: nm :: rest;
                         script_name := Str.basename prog;
                         is_single := false;
                         raw_args := rest;
                         func := Some f |}).
  { intros f Hf. unfold _setup. cbn [tokens_of list_item nth_error bind].
    destruct (functions_dict self) as [|e1 [|e2 l]] eqn:Hd;
      cbn [length] in Hcount; try lia.
    cbn [length functions_dict]. rewrite Hhelp, Hf. reflexivity. }
  split; [|split].
  - intros f args kwargs Hf Hparse. unfold parse_args.
    rewrite (Hsetup f Hf). cbn [bind the_func func raw_args].
    now rewrite Hparse.
  - intros f e Hf Hparse Hne. unfold parse_args.
    rewrite (Hsetup f Hf). cbn [bind the_func func raw_args].
    rewrite Hparse. destruct e; try reflexivity. now destruct (Hne msg).
  - intros Hf. unfold parse_args, _setup.
    cbn [tokens_of list_item nth_error bind].
    destruct (functions_dict self) as [|e1 [|e2 l]] eqn:Hd;
      cbn [length] in Hcount; try lia.
    cbn [length functions_dict]. rewrite Hhelp, Hf. reflexivity.
Qed.

Lemma parse_args_dispatch_witness :
  parse_args (Exposer_mixed listed (Exposer_kwargs listed bare greet) copy)
             (CmdList ("prog.py" :: "copy" :: ["a"; "b"]))
  = Return (function (FunctionWrapper_init listed MixedFunction copy Cstr),
            [VStr "a"; VStr "b"], Dict.empty)
  /\ parse_args (Exposer_mixed listed (Exposer_kwargs listed bare greet) copy)
                (CmdList ("prog.py" :: "baz" :: []))
     = Raise (PyoptError ("Unkown function '" ++ "baz" ++ "'.")).
Proof.
  split.
  - apply (parse_args_dispatch
             (Exposer_mixed listed (Exposer_kwargs listed bare greet) copy)
             "prog.py" "copy" ["a"; "b"]).
    + simpl. lia.
    + reflexivity.
    + reflexivity.
    + reflexivity.
  - apply (parse_args_dispatch
             (Exposer_mixed listed (Exposer_kwargs listed bare greet) copy)
             "prog.py" "baz" []).
    + simpl. lia.
    + reflexivity.
    + reflexivity.
Defined.

(** X19. With a single function registered no function name is expected:
    every token after the program path is a raw argument of that function,
    also a token that is the name of the function, and [parse_args] returns
    what the parse of these tokens returns. *)
Theorem parse_args_single_function (self : Exposer) (key prog : string)
    (f : FunctionWrapper) (rest : list string)
    (args : list pyvalue) (kwargs : Dict.t pyvalue) :
  functions_dict self = [(key, f)] ->
  match rest with
  | [] => True
  | first :: _ => PyList.mem first HELP_SET = false
  end ->
  parse f rest = Return (args, kwargs) ->
  parse_args self (CmdList (prog :: rest)) = Return (function f, args, kwargs).
Proof.
  intros Hdict Hhelp Hparse. unfold parse_args, _setup.
  cbn [tokens_of list_item nth_error bind]. rewrite Hdict.
  cbn [length Dict.values map snd hd_error].
  change (PyList.slice_from (prog :: rest) 1) with rest.
  destruct rest as [|first rest'].
  - cbn [bind the_func func raw_args]. now rewrite Hparse.
  - rewrite Hhelp. cbn [bind the_func func raw_args]. now rewrite Hparse.
Qed.

Lemma parse_args_single_function_witness :
  parse_args (Exposer_args listed bare pick) (CmdList ("prog.py" :: ["pick"]))
  = Return (function (FunctionWrapper_init listed ArgsFunction pick Cstr),
            [VStr "pick"], Dict.empty).
Proof.
  apply (parse_args_single_function (Exposer_args listed bare pick) "pick"
           "prog.py" (FunctionWrapper_init listed ArgsFunction pick Cstr)
           ["pick"]); reflexivity.
Defined.

(** X20. A help token after the program path, with two or more functions
    registered: followed by the name of a registered function it raises
    [PrintHelp] with the usage of that function; followed by anything else,
    or by nothing, or when there is no token after the program path at all,
    [_setup] raises [PrintHelp] with the usage of all the functions. *)
Theorem setup_help_with_functions (self : Exposer) (prog h : string)
    (usages : list string) :
  2 <= length (functions_dict self) ->
  PyList.mem h HELP_SET = true ->
  mapM get_usage (Dict.values (functions_dict self)) = Return usages ->
  let complete :=
    Str.join Str.NL
      (("Usage: " ++ Str.basename prog ++ " [function_name] [args]")
       :: "Available functions are:" :: usages) in
  (forall nm rest f usage,
      Dict.get (functions_dict self) nm = Some f ->
      get_usage f = Return usage ->
      _setup self (CmdList (prog :: h :: nm :: rest)) = Raise (PrintHelp usage))
  /\ (forall nm rest,
         Dict.get (functions_dict self) nm = None ->
         _setup self (CmdList (prog :: h :: nm :: rest))
         = Raise (PrintHelp complete))
  /\ _setup self (CmdList [prog; h]) = Raise (PrintHelp complete)
  /\ _setup self (CmdList [prog]) = Raise (PrintHelp complete).
Proof.
  intros Hcount Hhelp Husages complete.
  assert (Hmany : forall A (none one many : A),
             match length (functions_dict self) with
             | 0 => none
             | 1 => one
             | _ => many
             end = many).
  { intros A none one many.
    destruct (functions_dict self) as [|e1 [|e2 l]];
      cbn [length] in Hcount; try lia. reflexivity. }
  repeat split.
  - intros nm rest f usage Hf Hu. unfold _setup.
    cbn [tokens_of list_item nth_error bind]. rewrite Hmany, Hhelp.
    unfold _give_help.
    cbn [cmd_args functions_dict list_item nth_error bind].
    unfold Dict.item. rewrite Hf. cbn [bind]. now rewrite Hu.
  - intros nm rest Hf. unfold _setup.
    cbn [tokens_of list_item nth_error bind]. rewrite Hmany, Hhelp.
    unfold _give_help.
    cbn [cmd_args functions_dict list_item nth_error bind].
    unfold Dict.item. rewrite Hf. cbn [bind].
    unfold _complete_usage. cbn [is_single functions_dict script_name].
    now rewrite Husages.
  - unfold _setup. cbn [tokens_of list_item nth_error bind].
    rewrite Hmany, Hhelp. unfold _give_help.
    cbn [cmd_args functions_dict list_item nth_error bind].
    unfold _complete_usage. cbn [is_single functions_dict script_name].
    now rewrite Husages.
  - unfold _setup. cbn [tokens_of list_item nth_error bind]. rewrite Hmany.
    unfold _complete_usage. cbn [is_single functions_dict script_name].
    now rewrite Husages.
Qed.

Lemma setup_help_with_functions_witness :
  _setup (Exposer_mixed listed (Exposer_kwargs listed bare greet) copy)
         (CmdList ("prog.py" :: "-h" :: "greet" :: []))
  = Raise (PrintHelp (Str.TAB ++ "greet -n name [-d]" ++ Str.NL)).
Proof.
  destruct (setup_help_with_functions
              (Exposer_mixed listed (Exposer_kwargs listed bare greet) copy)
              "prog.py" "-h"
              [Str.TAB ++ "greet -n name [-d]" ++ Str.NL;
               Str.TAB ++ "copy -s src -d dst [-v]" ++ Str.NL])
    as [Hone _].
  - simpl. lia.
  - reflexivity.
  - reflexivity.
  - apply (Hone "greet" []
                (FunctionWrapper_init listed KwargsFunction greet Cstr));
      reflexivity.
Defined.

(** ** The registry *)

Lemma Dict_set_length {V} (d : Dict.t V) k v :
  length (Dict.set d k v)
  = if Dict.mem d k then length d else S (length d).
Proof.
  unfold Dict.mem. induction d as [|[k0 v0] d IH]; [reflexivity|].
  cbn [Dict.set Dict.get]. destruct (String.eqb k0 k); [reflexivity|].
  cbn [length]. rewrite IH. now destruct (Dict.get d k).
Qed.

(** X21. Registering a function: afterwards its name selects the wrapper
    just built, the other names select what they selected before, and the
    number of registered functions grows by one, or stays as it is when the
    name was registered already, the earlier wrapper being replaced. *)
Theorem expose_registers (set_iter : list string -> list string)
    (kind : strategy) (self : Exposer) (fn : pyfunction) :
  let self' := expose set_iter kind self fn in
  Dict.get (functions_dict self') (fn_name fn)
  = Some (FunctionWrapper_init set_iter kind fn (default_cast self))
  /\ (forall nm, nm <> fn_name fn ->
                 Dict.get (functions_dict self') nm
                 = Dict.get (functions_dict self) nm)
  /\ length (functions_dict self')
     = (if Dict.mem (functions_dict self) (fn_name fn)
        then length (functions_dict self)
        else S (length (functions_dict self)))
  /\ default_cast self' = default_cast self.
Proof.
  intros self'. unfold self', expose, with_functions. cbn [functions_dict].
  repeat split.
  - apply Dict_get_set_eq.
  - intros nm Hnm. apply Dict_get_set_ne. congruence.
  - apply Dict_set_length.
Qed.

Lemma expose_registers_witness :
  Dict.get (functions_dict (expose listed ArgsFunction
                              (expose listed KwargsFunction bare greet) pick))
           "greet"
  = Dict.get (functions_dict (expose listed KwargsFunction bare greet)) "greet".
Proof.
  apply (expose_registers listed ArgsFunction
           (expose listed KwargsFunction bare greet) pick).
  discriminate.
Defined.

(** ** Running *)

(** X22. What [run] lets through: it never raises [PrintHelp],
    [PyoptError], [NotEnoughArgs] or [ValueError], whether they come from
    the parse or from the exposed function; a help request is printed as it
    is, and the message of missing arguments is printed with the hint; but
    without a registered function the [NotImplementedError] of [_setup]
    comes out of [run]. *)
Theorem run_outcomes
    (call : pyfunction -> list pyvalue -> Dict.t pyvalue -> result pyvalue)
    (self : Exposer) (cmd_args : cmdline) :
  (forall e, run call self cmd_args = Raise e ->
             is_PyoptError e = false /\ forall m, e <> ValueError m)
  /\ (forall m, parse_args self cmd_args = Raise (PrintHelp m) ->
                run call self cmd_args = Return (Printed m))
  /\ (forall m, parse_args self cmd_args = Raise (NotEnoughArgs m) ->
                run call self cmd_args
                = Return (Printed (m ++ " " ++ "Run with ? or -h for more help.")))
  /\ (functions_dict self = [] -> tokens_of cmd_args <> [] ->
      run call self cmd_args
      = Raise (NotImplementedError
                 "No functions were decorated for command-line usage.")).
Proof.
  repeat split.
  - unfold run in H.
    destruct (parsed <- parse_args self cmd_args ;;
              (let '(func, args, kwargs) := parsed in call func args kwargs))
      as [v|[]]; try discriminate; injection H as <-; reflexivity.
  - unfold run in H.
    destruct (parsed <- parse_args self cmd_args ;;
              (let '(func, args, kwargs) := parsed in call func args kwargs))
      as [v|[]]; try discriminate; injection H as <-; discriminate.
  - intros m H. unfold run. now rewrite H.
  - intros m H. unfold run. now rewrite H.
  - intros Hnone Htokens. unfold run, parse_args, _setup.
    destruct (tokens_of cmd_args) as [|arg0 rest]; [congruence|].
    cbn [list_item nth_error bind]. now rewrite Hnone.
Qed.

Lemma run_outcomes_witness :
  run (fun _ _ _ => Return (VStr "done")) bare (CmdStr "prog.py now")
  = Raise (NotImplementedError
             "No functions were decorated for command-line usage.").
Proof.
  apply (run_outcomes (fun _ _ _ => Return (VStr "done")) bare
           (CmdStr "prog.py now")).
  - reflexivity.
  - vm_compute. discriminate.
Defined.

Lemma parse_args_single_nothing set_iter kind fn default_cast self key
    cmd_args prog :
  (forall l x, In x (set_iter l) -> In x l) ->
  valid_signature fn = true ->
  let w := FunctionWrapper_init set_iter kind fn default_cast in
  functions_dict self = [(key, w)] ->
  required w <> [] ->
  tokens_of cmd_args = [prog] ->
  exists params doc_usage,
    parameters_repr w = Return params
    /\ docstring_usage w = Return doc_usage
    /\ parse_args self cmd_args
       = Raise (PrintHelp (("Usage: " ++ Str.basename prog ++ " " ++ params)
                           ++ Str.NL ++ doc_usage)).
Proof.
  intros Hset Hvalid w Hdict Hreq Htokens.
  destruct (parameters_repr_Return set_iter Hset kind fn default_cast Hvalid)
    as [params Hparams].
  assert (Hargs : fn_args fn <> [])
    by now apply required_declared_nonempty in Hreq.
  destruct (docstring_usage_Return set_iter kind fn default_cast Hvalid Hargs)
    as [doc_usage Hdoc].
  destruct (parse_nothing_NotEnoughArgs set_iter kind fn default_cast
              Hvalid Hreq) as [msg Hmsg].
  fold w in Hparams, Hdoc, Hmsg.
  exists params, doc_usage. split; [assumption|]. split; [assumption|].
  unfold parse_args, _setup. rewrite Htokens, Hdict.
  cbn [list_item nth_error bind length Dict.values map hd_error snd
       the_func func raw_args].
  change (PyList.slice_from [prog] 1) with (@nil string).
  rewrite Hmsg. cbn [PyList.len length Z.of_nat Z.eqb].
  unfold _func_usage, _single_usage, the_func.
  cbn [is_single func script_name bind]. rewrite Hparams. cbn [bind].
  rewrite Hdoc. reflexivity.
Qed.

(** X23. Running a program that exposes a single function with a required
    parameter, without any argument: [run] raises nothing and calls nothing;
    it prints the usage of the function, without the hint that goes with an
    error. *)
Theorem run_without_arguments
    (call : pyfunction -> list pyvalue -> Dict.t pyvalue -> result pyvalue)
    (set_iter : list string -> list string) (kind : strategy)
    (fn : pyfunction) (default_cast : cast) (self : Exposer)
    (key prog : string) (cmd_args : cmdline) :
  (forall l x, In x (set_iter l) -> In x l) ->
  valid_signature fn = true ->
  let w := FunctionWrapper_init set_iter kind fn default_cast in
  functions_dict self = [(key, w)] ->
  required w <> [] ->
  tokens_of cmd_args = [prog] ->
  exists params doc_usage,
    parameters_repr w = Return params
    /\ docstring_usage w = Return doc_usage
    /\ run call self cmd_args
       = Return (Printed (("Usage: " ++ Str.basename prog ++ " " ++ params)
                          ++ Str.NL ++ doc_usage)).
Proof.
  intros Hset Hvalid w Hdict Hreq Htokens.
  destruct (parse_args_single_nothing set_iter kind fn default_cast self key
              cmd_args prog Hset Hvalid Hdict Hreq Htokens)
    as (params & doc_usage & Hparams & Hdoc & Hraise).
  exists params, doc_usage. split; [assumption|]. split; [assumption|].
  unfold run. now rewrite Hraise.
Qed.

Lemma run_without_arguments_witness :
  exists params doc_usage,
    parameters_repr (FunctionWrapper_init listed KwargsFunction greet Cstr)
    = Return params
    /\ docstring_usage (FunctionWrapper_init listed KwargsFunction greet Cstr)
       = Return doc_usage
    /\ run (fun _ _ _ => Return (VStr "done"))
           (Exposer_kwargs listed bare greet) (CmdStr "./prog.py")
       = Return (Printed (("Usage: " ++ Str.basename "./prog.py" ++ " "
                           ++ params) ++ Str.NL ++ doc_usage)).
Proof.
  apply (run_without_arguments (fun _ _ _ => Return (VStr "done")) listed
           KwargsFunction greet Cstr (Exposer_kwargs listed bare greet)
           "greet" "./prog.py" (CmdStr "./prog.py")).
  - intros l x Hx. exact Hx.
  - reflexivity.
  - reflexivity.
  - discriminate.
  - reflexivity.
Defined.

(** X24. An unknown short switch to a single function of the keyword
    strategy: the [KeyError] of the shortcut table is none of the exceptions
    that [run] handles, so it comes out of [run]. *)
Theorem run_unknown_short_switch
    (call : pyfunction -> list pyvalue -> Dict.t pyvalue -> result pyvalue)
    (self : Exposer) (key prog : string) (f : FunctionWrapper)
    (short_to_name : Dict.t string) (c : ascii) (rest : list string) :
  functions_dict self = [(key, f)] ->
  cls f = KwargsFunction ->
  _shortcuts f = Return short_to_name ->
  Dict.get short_to_name (Str.chr1 c) = None ->
  c <> "-"%char ->
  PyList.mem (String "-" (Str.chr1 c)) HELP_SET = false ->
  run call self (CmdList (prog :: String "-" (Str.chr1 c) :: rest))
  = Raise (KeyError (Str.chr1 c)).
Proof.
  intros Hdict Hcls Hs2n Hget Hc Hhelp.
  unfold run, parse_args, _setup.
  cbn [tokens_of list_item nth_error bind]. rewrite Hdict.
  cbn [length Dict.values map snd hd_error]. rewrite Hhelp.
  cbn [bind the_func func raw_args].
  change (PyList.slice_from (prog :: String "-" (Str.chr1 c) :: rest) 1)
    with (String "-" (Str.chr1 c) :: rest).
  unfold parse. rewrite Hcls. unfold KwargsFunction_parse. rewrite Hs2n.
  cbn [bind]. now rewrite kwargs_loop_unknown_short.
Qed.

Lemma run_unknown_short_switch_witness :
  run (fun _ _ _ => Return (VStr "done")) (Exposer_kwargs listed bare greet)
      (CmdList ("prog.py" :: String "-" (Str.chr1 "x") :: ["y"]))
  = Raise (KeyError (Str.chr1 "x")).
Proof.
  apply (run_unknown_short_switch (fun _ _ _ => Return (VStr "done"))
           (Exposer_kwargs listed bare greet) "greet" "prog.py"
           (FunctionWrapper_init listed KwargsFunction greet Cstr)
           [("n", "name"); ("d", "debug")] "x" ["y"]).
  - reflexivity.
  - reflexivity.
  - reflexivity.
  - reflexivity.
  - discriminate.
  - reflexivity.
Defined.

(** X25. An unknown long switch to the mixed strategy: when no long option
    of the function starts with the name that follows the two hyphens, the
    parse raises the [GetoptError] of the scanner, which is not a
    [PyoptError]. *)
Theorem mixed_unknown_long_switch (set_iter : list string -> list string)
    (fn : pyfunction) (default_cast : cast) (c : ascii) (opt : string)
    (rest : list string) :
  let self := FunctionWrapper_init set_iter MixedFunction fn default_cast in
  let name := String c opt in
  valid_signature fn = true ->
  Str.index name "=" = None ->
  (forall o, In o (mixed_long_opts self) -> Str.startswith o name = false) ->
  parse self (("--" ++ name) :: rest)
  = Raise (GetoptError ("option --" ++ name ++ " not recognized"))
  /\ is_PyoptError (GetoptError ("option --" ++ name ++ " not recognized"))
     = false.
Proof.
  intros self name Hvalid Heq Hnone. split; [|reflexivity].
  change (parse self (("--" ++ name) :: rest))
    with (MixedFunction_parse self (("--" ++ name) :: rest)).
  unfold MixedFunction_parse, mixed_scan.
  destruct (shortcuts_from_Return (fn_args fn) Dict.empty) as (s2n & Hs2n & _).
  { intros n Hn. eapply valid_signature_names; eassumption. }
  change (_shortcuts self) with (shortcuts_from (fn_args fn) Dict.empty).
  rewrite Hs2n. cbn [bind].
  assert (Hshorts : exists shorts, mixed_shorts_str self = Return shorts).
  { unfold mixed_shorts_str.
    destruct (mapM_Return_all
                (fun name => n0 <- str_item name 0 ;; Return (n0 ++ ":"))
                (required self)) as [req_part Hreq].
    - intros r Hr. apply init_required_declared in Hr. destruct Hr as [Hr _].
      destruct (valid_signature_names fn r Hvalid Hr) as (c0 & s & ->).
      eexists. reflexivity.
    - rewrite Hreq. cbn [bind]. eauto. }
  destruct Hshorts as [shorts Hshorts]. rewrite Hshorts. cbn [bind].
  assert (Hscan : getopt.getopt (("--" ++ name) :: rest) shorts
                                (mixed_long_opts self)
                  = Raise (GetoptError ("option --" ++ name ++ " not recognized"))).
  { apply (getopt_of_loop shorts (mixed_long_opts self) 1).
    cbn [getopt.getopt_loop].
    assert (Hopt : getopt.is_option ("--" ++ name) = true) by reflexivity.
    assert (Hsep : String.eqb ("--" ++ name) "--" = false) by reflexivity.
    assert (Hlong : Str.startswith ("--" ++ name) "--" = true).
    { cbn [append]. now rewrite !startswith_cons, startswith_empty. }
    rewrite Hopt, Hsep, Hlong.
    change (Str.drop 2 ("--" ++ name)) with name.
    unfold getopt.do_longs. rewrite Heq. unfold getopt.long_has_args.
    rewrite (filter_none _ _ Hnone). reflexivity. }
  now rewrite Hscan.
Qed.

Lemma mixed_unknown_long_switch_witness :
  parse (FunctionWrapper_init listed MixedFunction copy Cstr)
        (("--" ++ String "f" "orce") :: ["a"; "b"])
  = Raise (GetoptError ("option --" ++ String "f" "orce" ++ " not recognized"))
  /\ is_PyoptError
       (GetoptError ("option --" ++ String "f" "orce" ++ " not recognized"))
     = false.
Proof.
  apply (mixed_unknown_long_switch listed copy Cstr "f" "orce" ["a"; "b"]).
  - reflexivity.
  - reflexivity.
  - intros o [<-|[<-|[<-|[]]]]; reflexivity.
Defined.
